(** * The Baofeng BF-T1 driver (chirp/drivers/bf_t1.py)

    A shallow embedding of the clone protocol and of the channel and
    settings codec of the driver, with the properties of its
    specification stated and proved over it.

    Conventions.
    - A byte is a [Z] in [0, 256); a memory image and a serial frame are
      [list Z].
    - Python code that mutates the image or talks to the serial port is a
      computation in the state-and-error monad [M S]: it maps a state to
      a result and the state it leaves behind.  A raised exception is
      [Err], and the state next to it is the state at the moment of the
      raise, so writes done before a raise stay visible.
    - Python floats that hold a frequency are exact rationals ([Q]). *)

From Stdlib Require Import ZArith List String Ascii Lia QArith.
From Stdlib Require DecimalString HexadecimalString.
From stdpp Require Import base list strings.

Local Open Scope string_scope.
Local Open Scope list_scope.
Local Open Scope Z_scope.

(** ** Exceptions and the monad *)

Inductive error : Type :=
| RadioError (msg : string)        (* errors.RadioError *)
| InvalidDataError (msg : string)  (* errors.InvalidDataError *)
| PyError (kind : string).         (* any other Python exception *)

Inductive result (A : Type) : Type :=
| Ok (a : A)
| Err (e : error).
Arguments Ok {A} a.
Arguments Err {A} e.

Definition M (S A : Type) : Type := S -> result A * S.

Definition ret {S A : Type} (a : A) : M S A := fun s => (Ok a, s).

Definition raise {S A : Type} (e : error) : M S A := fun s => (Err e, s).

Definition bind {S A B : Type} (c : M S A) (k : A -> M S B) : M S B :=
  fun s => match c s with
           | (Ok a, s') => k a s'
           | (Err e, s') => (Err e, s')
           end.

Notation "x <- c ;; k" := (bind c (fun x => k))
  (at level 100, c at next level, right associativity).
Notation "c ;;; k" := (bind c (fun _ => k))
  (at level 100, k at level 200, right associativity).

(** ** Constants of the module *)

Definition MEM_SIZE : nat := 2048.    (* 0x0800 *)
Definition WRITE_SIZE : nat := 384.   (* 0x0180 *)
Definition BLOCK_SIZE : nat := 16.    (* 0x10 *)
Definition ACK_CMD : list Z := [6].
Definition MODES : list string := ["NFM"; "FM"].
Definition SKIP_VALUES : list string := ["S"; ""].
Definition SPECIALS : list (string * Z) := [("EMG", -2); ("RLY", -1)].
Definition BFT1_magic : list Z := [5; 80; 82; 79; 71; 82; 65; 77].  (* "\x05PROGRAM" *)
Definition BFT1_ident : list Z := [32; 66; 70; 57; 49; 48; 48; 83]. (* " BF9100S" *)

(** ** Python list helpers *)

(** [l.index(x)]: position of the first element equal to [x]; Python
    raises ValueError when there is none. *)
Fixpoint index {A : Type} `{EqDecision A} (x : A) (l : list A) : option nat :=
  match l with
  | [] => None
  | y :: r => if decide (x = y) then Some 0%nat
              else match index x r with
                   | Some i => Some (S i)
                   | None => None
                   end
  end.

(** [l[i]] for a Python integer [i]: a negative index counts from the
    end, anything outside [-len, len) raises IndexError. *)
Definition py_getitem {A : Type} (l : list A) (i : Z) : option A :=
  let n := Z.of_nat (length l) in
  if (0 <=? i) && (i <? n) then l !! Z.to_nat i
  else if (- n <=? i) && (i <? 0) then l !! Z.to_nat (i + n)
  else None.

(** [s.lower()] on ASCII letters. *)
Definition lower_ascii (c : ascii) : ascii :=
  let n := nat_of_ascii c in
  if (65 <=? n)%nat && (n <=? 90)%nat then ascii_of_nat (n + 32) else c.

Fixpoint lower (s : string) : string :=
  match s with
  | EmptyString => EmptyString
  | String c r => String (lower_ascii c) (lower r)
  end.

(** Lookup in a dict written as an association list. *)
Fixpoint dict_get {V : Type} (d : list (string * V)) (k : string) : option V :=
  match d with
  | [] => None
  | (k', v) :: r => if decide (k = k') then Some v else dict_get r k
  end.

(** ** The bitwise layer *)

(** Modelled from the spec: [chirp.bitwise], whose
    [parse(MEM_FORMAT, mmap)] builds the objects through which the
    driver reaches the image, is outside the driver.  Each object is a
    typed view at a fixed offset of the shared image (the spec's
    projection over a byte range): reading it converts the bytes found
    there, assigning to it rewrites those bytes in place.  The kinds of
    MEM_FORMAT are [u8], [u16] (big-endian), [lbcd] (BCD, each nibble one
    decimal digit, lowest byte first) and bit fields of a byte. *)
Definition get_byte (off : nat) : M (list Z) Z :=
  fun img => match img !! off with
             | Some b => (Ok b, img)
             | None => (Err (PyError "IndexError"), img)
             end.

Definition set_byte (off : nat) (v : Z) : M (list Z) unit :=
  fun img => if decide (off < length img)%nat
             then (Ok tt, <[off := v]> img)
             else (Err (PyError "IndexError"), img).

(** [u8]: one byte; an assigned value is cut to its low 8 bits. *)
Definition u8_get (off : nat) : M (list Z) Z := get_byte off.
Definition u8_set (off : nat) (v : Z) : M (list Z) unit :=
  set_byte off (Z.land v 255).

(** One BCD byte: two nibbles read as (tens, ones); a value in 0..99 is
    stored as its two decimal digits read as hexadecimal. *)
Definition bcd_digits (b : Z) : Z * Z := (Z.shiftr (Z.land b 240) 4, Z.land b 15).

Definition bcd_get (off : nat) : M (list Z) (Z * Z) :=
  b <- get_byte off ;;
  ret (bcd_digits b).

Definition bcd_pack (twodigits : Z) : Z := 16 * (twodigits / 10) + twodigits mod 10.

Definition bcd_set (off : nat) (twodigits : Z) : M (list Z) unit :=
  set_byte off (bcd_pack twodigits).

(** [lbcd x[n]]: little-endian BCD, the first byte holds the two lowest
    decimal digits. *)
Definition items (base n : nat) : list nat := map (fun i => (base + i)%nat) (seq 0 n).

Fixpoint lbcd_get_items (offs : list nat) (val : Z) : M (list Z) Z :=
  match offs with
  | [] => ret val
  | o :: r => d <- bcd_get o ;;
              lbcd_get_items r (val * 100 + fst d * 10 + snd d)
  end.

Definition lbcd_get (base n : nat) : M (list Z) Z :=
  lbcd_get_items (rev (items base n)) 0.

Fixpoint lbcd_set_items (offs : list nat) (value : Z) : M (list Z) unit :=
  match offs with
  | [] => ret tt
  | o :: r => bcd_set o (value mod 100) ;;;
              lbcd_set_items r (value / 100)
  end.

Definition lbcd_set (base n : nat) (value : Z) : M (list Z) unit :=
  lbcd_set_items (items base n) value.

(** A bit field of [nbits] bits whose lowest bit is bit [shift] of the
    byte at [off]: reading masks and shifts the byte, assigning replaces
    the masked bits and stores the byte back. *)
Definition bits_mask (shift nbits : Z) : Z := Z.shiftl (Z.ones nbits) shift.

Definition bits_extract (data shift nbits : Z) : Z :=
  Z.shiftr (Z.land data (bits_mask shift nbits)) shift.

Definition bits_insert (data shift nbits value : Z) : Z :=
  Z.lor (Z.land data (Z.lnot (bits_mask shift nbits)))
        (Z.land (Z.shiftl value shift) (bits_mask shift nbits)).

Definition bits_get (off : nat) (shift nbits : Z) : M (list Z) Z :=
  data <- u8_get off ;;
  ret (bits_extract data shift nbits).

Definition bits_set (off : nat) (shift nbits : Z) (value : Z) : M (list Z) unit :=
  data <- u8_get off ;;
  u8_set off (bits_insert data shift nbits value).

(** [u16]: two bytes, big-endian. *)
Definition u16_get (off : nat) : M (list Z) Z :=
  hi <- get_byte off ;;
  lo <- get_byte (off + 1) ;;
  ret (hi * 256 + lo).

(** ** MEM_FORMAT

    [struct channel] is 16 bytes; the fields of the flag byte are
    declared from the most significant bit down. *)

Module channel.
Definition size : nat := 16.
Definition rxfreq (c : nat) : nat := (c + 0)%nat. (* lbcd rxfreq[4]   *)
Definition rxtone (c : nat) : nat := (c + 4)%nat. (* u8 rxtone        *)
Definition txoffset (c : nat) : nat := (c + 5)%nat. (* lbcd txoffset[4] *)
Definition txtone (c : nat) : nat := (c + 9)%nat. (* u8 txtone        *)
Definition flags (c : nat) : nat := (c + 10)%nat.
Definition noskip : Z := 7.
Definition wide : Z := 6.
Definition ttondinv : Z := 5.
Definition unA : Z := 4.
Definition rtondinv : Z := 3.
Definition unB : Z := 2.
Definition offplus : Z := 1.
Definition offminus : Z := 0.
End channel.

Module memobj.
Definition emg : nat := 0.                       (* #seekto 0x0000 *)
Definition channels : nat := 16.                 (* #seekto 0x0010, channels[20] *)
Definition nchannels : nat := 20.
Definition settings : nat := 336.                (* #seekto 0x0150 *)
Definition rly : nat := 368.                     (* #seekto 0x0170 *)
(* offsets inside the settings struct *)
Definition volume : nat := (settings + 27)%nat.  (* 0x016B *)
Definition fm_vfo : nat := (settings + 28)%nat.  (* 0x016C, u16 *)
End memobj.

(** [getattr(self._memobj, name)].  The parsed object has the four
    attributes MEM_FORMAT declares: [emg], [channels], [settings] and
    [rly]; an attribute is given by the offset of its first byte.  What
    else the object of the bitwise layer answers to is outside the
    driver: a name that MEM_FORMAT does not declare is taken to be
    missing.  Only [emg] and [rly] are channel records; for the name of
    any other attribute [get_memory] raises KeyError at
    [SPECIALS[number]], before it reads from the object. *)
Definition memobj_getattr (name : string) : result nat :=
  if decide (name = "emg") then Ok memobj.emg
  else if decide (name = "channels") then Ok memobj.channels
  else if decide (name = "settings") then Ok memobj.settings
  else if decide (name = "rly") then Ok memobj.rly
  else Err (PyError "AttributeError").

(** ** String formatting *)

Definition nl : string := String "010"%char EmptyString.

(** ["%d" % n] *)
Definition fmt_d (n : Z) : string :=
  DecimalString.NilZero.string_of_int (Z.to_int n).

(** ["%04x" % a] for a non-negative [a]: lower-case hexadecimal, padded
    with zeros to four digits. *)
Definition fmt_04x (a : Z) : string :=
  let digits := HexadecimalString.NilZero.string_of_uint (N.to_hex_uint (Z.to_N a)) in
  (String.concat "" (repeat "0" (4 - String.length digits)) ++ digits)%string.

(** ** The values exchanged with the user interface *)

(** A tone specification, as [chirp_common.split_tone_encode] returns
    one per direction and [chirp_common.split_tone_decode] takes one per
    direction: (mode, value, polarity).  The mode is [''], ['Tone'] or
    ['DTCS'] ([None] is Python's None); an analog tone is held in tenths
    of a hertz (88.5 is [885]), a digital code as the integer it is. *)
Record tonespec : Type := mk_tonespec {
  t_mode : option string;
  t_value : option Z;
  t_pol : option string
}.

#[global] Instance tonespec_eq_dec : EqDecision tonespec.
Proof. solve_decision. Defined.

Definition no_tone : tonespec := mk_tonespec (Some "") None None.

(** Modelled from the spec: [chirp_common.Memory], the channel value of
    the user interface, is declared outside the driver.  The record keeps
    the fields the driver reads or assigns (the spec's frequency, offset,
    duplex, bandwidth, skip and tone settings); the tone settings are
    kept as the two per-direction specifications that the external
    tone-combination rules produce from, and consume into, the unified
    tone fields. *)
Record Memory : Type := mk_Memory {
  number : Z;
  extd_number : string;
  empty : bool;
  freq : Z;
  offset : Z;
  duplex : string;
  mode : string;
  skip : string;
  tx_tone : tonespec;
  rx_tone : tonespec
}.

#[global] Instance Memory_eq_dec : EqDecision Memory.
Proof. solve_decision. Defined.

(** Modelled from the spec: [chirp_common.Memory()], a fresh channel
    value: not empty, no duplex, wide mode, scanned, no tone. *)
Definition Memory_new : Memory :=
  mk_Memory 0 "" false 0 600000 "" "FM" "" no_tone no_tone.

Definition with_number (n : Z) (m : Memory) : Memory :=
  mk_Memory n (extd_number m) (empty m) (freq m) (offset m) (duplex m)
            (mode m) (skip m) (tx_tone m) (rx_tone m).
Definition with_extd_number (x : string) (m : Memory) : Memory :=
  mk_Memory (number m) x (empty m) (freq m) (offset m) (duplex m)
            (mode m) (skip m) (tx_tone m) (rx_tone m).
Definition with_empty (b : bool) (m : Memory) : Memory :=
  mk_Memory (number m) (extd_number m) b (freq m) (offset m) (duplex m)
            (mode m) (skip m) (tx_tone m) (rx_tone m).
Definition with_freq (f : Z) (m : Memory) : Memory :=
  mk_Memory (number m) (extd_number m) (empty m) f (offset m) (duplex m)
            (mode m) (skip m) (tx_tone m) (rx_tone m).
Definition with_offset (o : Z) (m : Memory) : Memory :=
  mk_Memory (number m) (extd_number m) (empty m) (freq m) o (duplex m)
            (mode m) (skip m) (tx_tone m) (rx_tone m).
Definition with_duplex (d : string) (m : Memory) : Memory :=
  mk_Memory (number m) (extd_number m) (empty m) (freq m) (offset m) d
            (mode m) (skip m) (tx_tone m) (rx_tone m).
Definition with_mode (x : string) (m : Memory) : Memory :=
  mk_Memory (number m) (extd_number m) (empty m) (freq m) (offset m) (duplex m)
            x (skip m) (tx_tone m) (rx_tone m).
Definition with_skip (x : string) (m : Memory) : Memory :=
  mk_Memory (number m) (extd_number m) (empty m) (freq m) (offset m) (duplex m)
            (mode m) x (tx_tone m) (rx_tone m).
Definition with_tones (tx rx : tonespec) (m : Memory) : Memory :=
  mk_Memory (number m) (extd_number m) (empty m) (freq m) (offset m) (duplex m)
            (mode m) (skip m) tx rx.

(** The argument of [get_memory]: a Python int or a Python str. *)
Inductive selector : Type :=
| Num (n : Z)
| Name (s : string).

(** Insertion sort, for Python's [sorted] on integers. *)
Fixpoint sorted_insert (x : Z) (l : list Z) : list Z :=
  match l with
  | [] => [x]
  | y :: r => if x <=? y then x :: l else y :: sorted_insert x r
  end.

Definition sorted (l : list Z) : list Z := foldr sorted_insert [] l.

Definition try_except {S A : Type} (body : M S A) (handler : error -> M S A) : M S A :=
  fun s => match body s with
           | (Ok a, s') => (Ok a, s')
           | (Err e, s') => handler e s'
           end.

Definition of_option {S A : Type} (o : option A) (e : error) : M S A :=
  match o with
  | Some a => ret a
  | None => raise e
  end.

Definition of_result {S A : Type} (r : result A) : M S A :=
  match r with
  | Ok a => ret a
  | Err e => raise e
  end.

(** ** class BFT1: the channel codec *)

Section BFT1.

(** [chirp_common.TONES] (in tenths of a hertz) and
    [chirp_common.DTCS_CODES]: the two tables of the framework. *)
Variable TONES : list Z.
Variable DTCS_CODES : list Z.

Definition DTCS : list Z := sorted (DTCS_CODES ++ [645]).

Definition _decode_tone (val inv : Z) : result tonespec :=
  if val =? 0 then Ok (mk_tonespec (Some "") None None)
  else if val <? 51 then
    match py_getitem TONES (val - 1) with
    | Some t => Ok (mk_tonespec (Some "Tone") (Some t) None)
    | None => Err (PyError "IndexError")
    end
  else if val >? 50 then
    let pol := "N" in
    let pol := if inv =? 1 then "R" else pol in
    match py_getitem DTCS (val - 51) with
    | Some c => Ok (mk_tonespec (Some "DTCS") (Some c) (Some pol))
    | None => Err (PyError "IndexError")
    end
  else Err (PyError "TypeError").

(** ["... '%d' ..." % tone]: a number is printed as the integer it
    truncates to, None cannot be formatted. *)
Definition tone_msg (pre : string) (scale : Z) (tone : option Z) : error :=
  match tone with
  | Some t => RadioError (pre ++ " '" ++ fmt_d (Z.quot t scale) ++ "' is not supported")%string
  | None => PyError "TypeError"
  end.

(** [memtone] is the u8 at offset [memtone]; [meminv] is the one-bit
    field at bit [meminv] of the flag byte at offset [flags]. *)
Definition _encode_tone (memtone flags : nat) (meminv : Z) (t : tonespec)
  : M (list Z) unit :=
  if decide (t_mode t = Some "" \/ t_mode t = None) then
    u8_set memtone 0 ;;;
    bits_set flags meminv 1 0
  else if decide (t_mode t = Some "Tone") then
    try_except
      (i <- of_option (match t_value t with
                       | Some v => index v TONES
                       | None => None
                       end) (PyError "ValueError") ;;
       u8_set memtone (Z.of_nat i + 1) ;;;
       bits_set flags meminv 1 0)
      (fun _ => raise (tone_msg "TCSS Tone" 10 (t_value t)))
  else if decide (t_mode t = Some "DTCS") then
    try_except
      (i <- of_option (match t_value t with
                       | Some v => index v DTCS
                       | None => None
                       end) (PyError "ValueError") ;;
       u8_set memtone (Z.of_nat i + 51) ;;;
       if decide (t_pol t = Some "R")
       then bits_set flags meminv 1 1
       else bits_set flags meminv 1 0)
      (fun _ => raise (tone_msg "Digital Tone" 1 (t_value t)))
  else
    raise (InvalidDataError
             ("Internal error: invalid mode '" ++ default "" (t_mode t) ++ "'")%string).

(** The channel record a selector stands for, as the offset of its
    first byte; [None] is Python's None, returned when a negative
    number is not in SPECIALS. *)
Definition _get_special (number : selector) : result (option nat) :=
  match number with
  | Name s =>
      match memobj_getattr (lower s) with
      | Ok c => Ok (Some c)
      | Err e => Err e
      end
  | Num n =>
      if n <? 0 then
        match find (fun kv => Z.eqb n (snd kv)) SPECIALS with
        | Some kv =>
            match memobj_getattr (lower (fst kv)) with
            | Ok c => Ok (Some c)
            | Err e => Err e
            end
        | None => Ok None
        end
      else
        match py_getitem (seq 0 memobj.nchannels) (n - 1) with
        | Some i => Ok (Some (memobj.channels + channel.size * i)%nat)
        | None => Err (PyError "IndexError")
        end
  end.

(** Any attribute access on None raises. *)
Definition deref {S : Type} (_mem : option nat) : M S nat :=
  of_option _mem (PyError "AttributeError").

(** [get_memory], "must work out the polarity" (lines 647-665), on
    the channel value built so far and the two direction flags of the
    record. *)
Definition work_out_polarity (offminus offplus : Z) (mem : Memory) : Memory :=
  if negb (offset mem =? 0) then
    let mem := if offminus =? 1 then with_duplex "-" mem else mem in
    let mem := if offplus =? 1 then with_duplex "+" mem else mem in
    (* split RX/TX in different bands *)
    if offset mem >? 71000000 then
      let mem := with_duplex "split" mem in
      let mem := if offminus =? 1
                 then with_offset (freq mem - offset mem) mem else mem in
      let mem := if offplus =? 1
                 then with_offset (freq mem + offset mem) mem else mem in
      mem
    else mem
  else mem.

Definition get_memory (number : selector) : M (list Z) Memory :=
  _mem <- of_result (_get_special number) ;;
  let mem := Memory_new in
  mem <- match number with
         | Name s =>
             n <- of_option (dict_get SPECIALS s) (PyError "KeyError") ;;
             ret (with_extd_number s (with_number n mem))
         | Num n => ret (with_number n mem)
         end ;;
  c <- deref _mem ;;
  raw0 <- get_byte c ;;
  if raw0 =? 255 then ret (with_empty true mem)
  else
    (* Freq and offset *)
    rxfreq <- lbcd_get (channel.rxfreq c) 4 ;;
    let mem := with_freq (rxfreq * 10) mem in
    txoffset <- lbcd_get (channel.txoffset c) 4 ;;
    let mem := with_offset (txoffset * 10) mem in
    let mem := with_duplex "" mem in
    offminus <- bits_get (channel.flags c) channel.offminus 1 ;;
    offplus <- bits_get (channel.flags c) channel.offplus 1 ;;
    let mem := work_out_polarity offminus offplus mem in
    (* wide/narrow *)
    wide <- bits_get (channel.flags c) channel.wide 1 ;;
    m <- of_option (py_getitem MODES wide) (PyError "IndexError") ;;
    let mem := with_mode m mem in
    (* skip *)
    noskip <- bits_get (channel.flags c) channel.noskip 1 ;;
    sk <- of_option (py_getitem SKIP_VALUES noskip) (PyError "IndexError") ;;
    let mem := with_skip sk mem in
    (* tone data *)
    txt <- u8_get (channel.txtone c) ;;
    ttondinv <- bits_get (channel.flags c) channel.ttondinv 1 ;;
    txtone <- of_result (_decode_tone txt ttondinv) ;;
    rxt <- u8_get (channel.rxtone c) ;;
    rtondinv <- bits_get (channel.flags c) channel.rtondinv 1 ;;
    rxtone <- of_result (_decode_tone rxt rtondinv) ;;
    ret (with_tones txtone rxtone mem).

(** [_mem.set_raw(data)]: the bytes of the record, overwritten in
    order. *)
Fixpoint set_raw (c : nat) (data : list Z) : M (list Z) unit :=
  match data with
  | [] => ret tt
  | b :: r => set_byte c b ;;; set_raw (S c) r
  end.

Definition set_memory (mem : Memory) : M (list Z) Memory :=
  _mem <- of_result (_get_special (Num (number mem))) ;;
  c <- deref _mem ;;
  if empty mem then
    set_raw c (repeat 255 16) ;;;
    ret mem
  else
    (* frequency *)
    lbcd_set (channel.rxfreq c) 4 (Z.quot (freq mem) 10) ;;;
    (* duplex / offset *)
    lbcd_set (channel.txoffset c) 4 (Z.quot (offset mem) 10) ;;;
    (if decide (duplex mem = "") then
       bits_set (channel.flags c) channel.offplus 1 0 ;;;
       bits_set (channel.flags c) channel.offminus 1 0
     else if decide (duplex mem = "+") then
       bits_set (channel.flags c) channel.offplus 1 1 ;;;
       bits_set (channel.flags c) channel.offminus 1 0
     else if decide (duplex mem = "-") then
       bits_set (channel.flags c) channel.offplus 1 0 ;;;
       bits_set (channel.flags c) channel.offminus 1 1
     else if decide (duplex mem = "split") then
       if freq mem >? offset mem then
         bits_set (channel.flags c) channel.offplus 1 0 ;;;
         bits_set (channel.flags c) channel.offminus 1 1 ;;;
         lbcd_set (channel.txoffset c) 4 (Z.quot (freq mem - offset mem) 10)
       else
         bits_set (channel.flags c) channel.offplus 1 1 ;;;
         bits_set (channel.flags c) channel.offminus 1 0 ;;;
         lbcd_set (channel.txoffset c) 4 (Z.quot (offset mem - freq mem) 10)
     else ret tt) ;;;
    (* wide/narrow *)
    w <- of_option (index (mode mem) MODES) (PyError "ValueError") ;;
    bits_set (channel.flags c) channel.wide 1 (Z.of_nat w) ;;;
    (* skip *)
    sk <- of_option (index (skip mem) SKIP_VALUES) (PyError "ValueError") ;;
    bits_set (channel.flags c) channel.noskip 1 (Z.of_nat sk) ;;;
    (* tone data *)
    _encode_tone (channel.txtone c) (channel.flags c) channel.ttondinv (tx_tone mem) ;;;
    _encode_tone (channel.rxtone c) (channel.flags c) channel.rtondinv (rx_tone mem) ;;;
    ret mem.

End BFT1.

(** ** The tables of the framework

    Modelled from the spec: the fixed tables of analog tones and digital
    codes live in [chirp_common], outside the driver.  The analog table
    has the 50 entries that tone bytes 1..50 index (tenths of a hertz);
    with 645 added, the digital table has the 105 entries that tone
    bytes 0x33..0x9b index.  The properties below are proved for any
    tables; these are the instance they are exercised on. *)
Definition chirp_TONES : list Z :=
  [ 670; 693; 719; 744; 770; 797; 825; 854; 885; 915;
    948; 974; 1000; 1035; 1072; 1109; 1148; 1188; 1230; 1273;
    1318; 1365; 1413; 1462; 1514; 1567; 1598; 1622; 1655; 1679;
    1713; 1738; 1773; 1799; 1835; 1862; 1899; 1928; 1966; 1995;
    2035; 2065; 2107; 2181; 2257; 2291; 2336; 2418; 2503; 2541 ].

Definition chirp_DTCS_CODES : list Z :=
  [ 23; 25; 26; 31; 32; 36; 43; 47; 51; 53; 54;
    65; 71; 72; 73; 74; 114; 115; 116; 122; 125; 131;
    132; 134; 143; 145; 152; 155; 156; 162; 165; 172; 174;
    205; 212; 223; 225; 226; 243; 244; 245; 246; 251; 252;
    255; 261; 263; 265; 266; 271; 274; 306; 311; 315; 325;
    331; 332; 343; 346; 351; 356; 364; 365; 371; 411; 412;
    413; 423; 431; 432; 445; 446; 452; 454; 455; 462; 464;
    465; 466; 503; 506; 516; 523; 526; 532; 546; 565; 606;
    612; 624; 627; 631; 632; 654; 662; 664; 703; 712; 723;
    731; 732; 734; 743; 754 ].

(** ** class BFT1: the settings read by [get_settings] and written by
    [set_settings]

    The settings toolkit ([chirp.settings]) is outside the driver; of a
    value object the model keeps the range check its constructor makes,
    its declared bound and the value it holds. *)

(** Modelled from the spec: [RadioSettingValueInteger(minval, maxval,
    current)] and [RadioSettingValueFloat(minval, maxval, current)]
    validate the current value against the declared bounds. *)
Definition RadioSettingValueInteger (minval maxval current : Z) : result Z :=
  if (minval <=? current) && (current <=? maxval) then Ok current
  else Err (PyError "InvalidValueError").

Definition RadioSettingValueFloat (minval maxval current : Q) : result Q :=
  if Qle_bool minval current && Qle_bool current maxval then Ok current
  else Err (PyError "InvalidValueError").

(** [get_settings], the volume entry (lines 758-764): the value shown
    for "volume".  [get_settings] below runs it in its place, after the
    entries built before it. *)
Definition get_settings_volume : M (list Z) Z :=
  _volume <- u8_get memobj.volume ;;
  let _volume := if _volume >? 7 then 7 else _volume in
  of_result (RadioSettingValueInteger 0 7 _volume).

Definition swap16 (value : Z) : Z :=
  Z.lor (Z.shiftl (Z.land value 255) 8) (Z.shiftr (Z.land value 65280) 8).

(** The bound [108.0 * 10 - 650] of both tests. *)
Definition fm_bound : Q := 108 * 10 - 650.

(** [get_settings], the broadcast FM entry (lines 829-846).  The
    argument is [self._bw_shift] before the call; the result is
    [self._bw_shift] after it and the value of the "fm_vfo" entry
    appended to the FM group, [None] when no entry is appended.
    [get_settings] below runs it in its place. *)
Definition get_settings_fm_vfo (_bw_shift : bool) : M (list Z) (bool * option Q) :=
  value <- u16_get memobj.fm_vfo ;;
  let value_shifted := swap16 value in
  let '(_bw_shift, _fm_vfo) :=
    if Qle_bool (inject_Z value_shifted) fm_bound then
      (* storage method 3 *)
      (true, Some (inject_Z value_shifted / 10 + 65)%Q)
    else if Qle_bool (inject_Z value) fm_bound then
      (* original storage method *)
      (_bw_shift, Some (inject_Z value / 10 + 65)%Q)
    else
      (* unknown *)
      (_bw_shift, None) in
  match _fm_vfo with
  | Some f =>
      if negb (Qeq_bool f 0) then
        v <- of_result (RadioSettingValueFloat 65 108 f) ;;
        ret (_bw_shift, Some v)
      else ret (_bw_shift, None)
  | None => ret (_bw_shift, None)
  end.

(** Settings vars (lines 65-72). *)

(** ["%s" % (x * 0.5)] for an integer [x]: a half prints with one
    decimal. *)
Definition fmt_half (x : Z) : string :=
  (fmt_d (x / 2) ++ (if Z.even x then ".0" else ".5"))%string.

Definition TOT_LIST : list string :=
  "Off" :: map fmt_d [30; 60; 90; 120; 150; 180]. (* range(30, 210, 30) *)
Definition SCAN_TYPE_LIST : list string := ["Time"; "Carrier"; "Search"].
Definition LANGUAGE_LIST : list string := ["Off"; "English"; "Chinese"].
Definition TIMER_LIST : list string :=
  "Off" :: map (fun x => (fmt_half x ++ " h")%string)
               (map Z.of_nat (seq 1 16)). (* range(1, 17) *)
Definition FM_RANGE_LIST : list string := ["76-108"; "65-76"].
Definition RELAY_MODE_LIST : list string := ["Off"; "RX sync"; "TX sync"].
Definition BACKLIGHT_LIST : list string := ["Off"; "Key"; "On"].
Definition POWER_LIST : list string := ["0.5 Watt"; "1.0 Watt"].

(** Modelled from the spec: [RadioSettingValueList(options,
    current_index=i)] validates the index against the options and
    [RadioSettingValueBoolean(current)] holds the truth value of what it
    is given. *)
Definition RadioSettingValueList (options : list string) (current_index : Z)
  : result Z :=
  if (0 <=? current_index) && (current_index <? Z.of_nat (length options))
  then Ok current_index
  else Err (PyError "InvalidValueError").

Definition RadioSettingValueBoolean (current : Z) : bool := negb (current =? 0).

(** Modelled from the spec: the settings tree of the toolkit, as
    [get_settings] builds it.  A value object keeps its declared bound
    and its current value: one of a list of options by its index, an
    integer or a float between two bounds, a boolean.  An entry
    ([RadioSetting(name, shortname, value)]) has its name, its label,
    its value object and the apply callback set on it, if any; a group
    ([RadioSettingGroup(name, shortname)]) has its name, its label and
    the entries appended to it, in order; [RadioSettings(basic, fm, adv)]
    is the list of its groups. *)
Inductive RadioSettingValue : Type :=
| ListValue (options : list string) (current_index : Z)
| IntegerValue (minval maxval current : Z)
| BooleanValue (current : bool)
| FloatValue (minval maxval current : Q).

Inductive callback : Type :=
| cb_apply_fm_freq   (* apply_fm_freq, lines 822-827 *)
| cb_apply_limit.    (* apply_limit, lines 849-850 *)

Record setting : Type := mk_setting {
  s_name : string;
  s_shortname : string;
  s_value : RadioSettingValue;
  s_apply_callback : option callback
}.

Record settings_group : Type := mk_settings_group {
  g_name : string;
  g_shortname : string;
  g_entries : list setting
}.

(** Offsets of the fields of the settings struct that [get_settings]
    reads one byte or one bit field at a time. *)
Module _settings.
Definition vhfl : nat := (memobj.settings + 0)%nat.     (* lbcd vhfl[2] *)
Definition vhfh : nat := (memobj.settings + 2)%nat.     (* lbcd vhfh[2] *)
Definition uhfl : nat := (memobj.settings + 4)%nat.     (* lbcd uhfl[2] *)
Definition uhfh : nat := (memobj.settings + 6)%nat.     (* lbcd uhfh[2] *)
Definition squelch : nat := (memobj.settings + 18)%nat.
Definition vox : nat := (memobj.settings + 19)%nat.
Definition timeout : nat := (memobj.settings + 20)%nat.
Definition flags : nat := (memobj.settings + 21)%nat.
Definition batsave : Z := 7.
Definition fm_funct : Z := 6.
Definition ste : Z := 5.
Definition blo : Z := 4.
Definition beep : Z := 3.
Definition lock : Z := 2.
Definition backlight : Z := 0.                          (* two bits *)
Definition scantype : nat := (memobj.settings + 22)%nat.
Definition channel : nat := (memobj.settings + 23)%nat.
Definition fmrange : nat := (memobj.settings + 24)%nat.
Definition alarm : nat := (memobj.settings + 25)%nat.
Definition voice : nat := (memobj.settings + 26)%nat.
Definition relaym : nat := (memobj.settings + 30)%nat.
Definition tx_pwr : nat := (memobj.settings + 31)%nat.
End _settings.

(** [get_settings] (lines 733-881).  The argument is [self._bw_shift]
    before the call; the result is [self._bw_shift] after it and the
    tree returned.  The entries are built in the order of the source, so
    the first value object whose constructor refuses the stored value
    ends the call with its exception.  Modelled from the spec: a band
    limit is presented as whole MHz; the quotient
    [int(_settings.vhfl) / 10] is given to an integer value object,
    which holds the integer it truncates to. *)
Definition get_settings (_bw_shift : bool)
  : M (list Z) (bool * list settings_group) :=
  let basic : list setting := [] in
  let fm : list setting := [] in
  let adv : list setting := [] in

  (* ## Basic Settings *)
  tx_pwr <- u8_get _settings.tx_pwr ;;
  i <- of_result (RadioSettingValueList POWER_LIST tx_pwr) ;;
  let basic := basic ++ [mk_setting "tx_pwr" "TX Power"
                                    (ListValue POWER_LIST i) None] in

  chan <- u8_get _settings.channel ;;
  v <- of_result (RadioSettingValueInteger 1 20 chan) ;;
  let basic := basic ++ [mk_setting "channel" "Active Channel"
                                    (IntegerValue 1 20 v) None] in

  squelch <- u8_get _settings.squelch ;;
  v <- of_result (RadioSettingValueInteger 0 9 squelch) ;;
  let basic := basic ++ [mk_setting "squelch" "Squelch Level"
                                    (IntegerValue 0 9 v) None] in

  vox <- u8_get _settings.vox ;;
  v <- of_result (RadioSettingValueInteger 0 9 vox) ;;
  let basic := basic ++ [mk_setting "vox" "VOX Level"
                                    (IntegerValue 0 9 v) None] in

  (* volume validation, as the OEM software set 0xFF on write *)
  v <- get_settings_volume ;;
  let basic := basic ++ [mk_setting "volume" "Volume Level"
                                    (IntegerValue 0 7 v) None] in

  scantype <- u8_get _settings.scantype ;;
  i <- of_result (RadioSettingValueList SCAN_TYPE_LIST scantype) ;;
  let basic := basic ++ [mk_setting "scantype" "Scan Type"
                                    (ListValue SCAN_TYPE_LIST i) None] in

  timeout <- u8_get _settings.timeout ;;
  i <- of_result (RadioSettingValueList TOT_LIST timeout) ;;
  let basic := basic ++ [mk_setting "timeout" "Time Out Timer (seconds)"
                                    (ListValue TOT_LIST i) None] in

  voice <- u8_get _settings.voice ;;
  i <- of_result (RadioSettingValueList LANGUAGE_LIST voice) ;;
  let basic := basic ++ [mk_setting "voice" "Voice Prompt"
                                    (ListValue LANGUAGE_LIST i) None] in

  alarm <- u8_get _settings.alarm ;;
  i <- of_result (RadioSettingValueList TIMER_LIST alarm) ;;
  let basic := basic ++ [mk_setting "alarm" "Alarm Time"
                                    (ListValue TIMER_LIST i) None] in

  backlight <- bits_get _settings.flags _settings.backlight 2 ;;
  i <- of_result (RadioSettingValueList BACKLIGHT_LIST backlight) ;;
  let basic := basic ++ [mk_setting "backlight" "Backlight"
                                    (ListValue BACKLIGHT_LIST i) None] in

  blo <- bits_get _settings.flags _settings.blo 1 ;;
  let basic := basic ++ [mk_setting "blo" "Busy Lockout"
                           (BooleanValue (RadioSettingValueBoolean blo)) None] in

  ste <- bits_get _settings.flags _settings.ste 1 ;;
  let basic := basic ++ [mk_setting "ste" "Squelch Tail Eliminate"
                           (BooleanValue (RadioSettingValueBoolean ste)) None] in

  batsave <- bits_get _settings.flags _settings.batsave 1 ;;
  let basic := basic ++ [mk_setting "batsave" "Battery Save"
                           (BooleanValue (RadioSettingValueBoolean batsave)) None] in

  lock <- bits_get _settings.flags _settings.lock 1 ;;
  let basic := basic ++ [mk_setting "lock" "Key Lock"
                           (BooleanValue (RadioSettingValueBoolean lock)) None] in

  beep <- bits_get _settings.flags _settings.beep 1 ;;
  let basic := basic ++ [mk_setting "beep" "Key Beep"
                           (BooleanValue (RadioSettingValueBoolean beep)) None] in

  (* ## FM Settings *)
  fm_funct <- bits_get _settings.flags _settings.fm_funct 1 ;;
  let fm := fm ++ [mk_setting "fm_funct" "FM Function"
                     (BooleanValue (RadioSettingValueBoolean fm_funct)) None] in

  fmrange <- u8_get _settings.fmrange ;;
  i <- of_result (RadioSettingValueList FM_RANGE_LIST fmrange) ;;
  let fm := fm ++ [mk_setting "fmrange" "FM Range"
                              (ListValue FM_RANGE_LIST i) None] in

  (* broadcast FM setting *)
  station <- get_settings_fm_vfo _bw_shift ;;
  let '(_bw_shift, _fm_vfo) := station in
  let fm := match _fm_vfo with
            | Some f => fm ++ [mk_setting "fm_vfo" "FM Station"
                                 (FloatValue 65 108 f) (Some cb_apply_fm_freq)]
            | None => fm
            end in

  (* ## Advanced *)
  vhfl <- lbcd_get _settings.vhfl 2 ;;
  v <- of_result (RadioSettingValueInteger 130 174 (vhfl / 10)) ;;
  let adv := adv ++ [mk_setting "vhfl" "VHF Low Limit"
                                (IntegerValue 130 174 v) (Some cb_apply_limit)] in

  vhfh <- lbcd_get _settings.vhfh 2 ;;
  v <- of_result (RadioSettingValueInteger 130 174 (vhfh / 10)) ;;
  let adv := adv ++ [mk_setting "vhfh" "VHF High Limit"
                                (IntegerValue 130 174 v) (Some cb_apply_limit)] in

  uhfl <- lbcd_get _settings.uhfl 2 ;;
  v <- of_result (RadioSettingValueInteger 400 520 (uhfl / 10)) ;;
  let adv := adv ++ [mk_setting "uhfl" "UHF Low Limit"
                                (IntegerValue 400 520 v) (Some cb_apply_limit)] in

  uhfh <- lbcd_get _settings.uhfh 2 ;;
  v <- of_result (RadioSettingValueInteger 400 520 (uhfh / 10)) ;;
  let adv := adv ++ [mk_setting "uhfh" "UHF High Limit"
                                (IntegerValue 400 520 v) (Some cb_apply_limit)] in

  relaym <- u8_get _settings.relaym ;;
  i <- of_result (RadioSettingValueList RELAY_MODE_LIST relaym) ;;
  let adv := adv ++ [mk_setting "relaym" "Relay Mode"
                                (ListValue RELAY_MODE_LIST i) None] in

  ret (_bw_shift,
       [ mk_settings_group "basic" "Basic Settings" basic;
         mk_settings_group "fm" "FM Radio" fm;
         mk_settings_group "adv" "Advanced Settings" adv ]).

(** Modelled from the spec: the elements of the settings tree of the
    toolkit, as [set_settings] receives them: a
    [RadioSetting] with its name, the integer its value converts to,
    whether the user changed it and its apply callback if it has one, or
    a group of elements. *)
#[warnings="-register-all"]
Inductive element : Type :=
| RadioSetting (name : string) (value : Z) (changed : bool)
               (apply_callback : option (M (list Z) unit))
| RadioSettingGroup (elements : list element).

Definition u16_set (off : nat) (v : Z) : M (list Z) unit :=
  let v := Z.land v 65535 in
  set_byte off (Z.shiftr v 8) ;;;
  set_byte (off + 1) (Z.land v 255).

(** [setattr(_settings, name, value)] on the settings struct of
    MEM_FORMAT (at 0x0150); a name that is not a field raises. *)
Definition settings_setattr (name : string) (value : Z) : M (list Z) unit :=
  let s := memobj.settings in
  let u8 (k : nat) := u8_set (s + k) value in
  let bit (shift nbits : Z) := bits_set (s + 21) shift nbits value in
  if decide (name = "vhfl") then lbcd_set (s + 0) 2 value
  else if decide (name = "vhfh") then lbcd_set (s + 2) 2 value
  else if decide (name = "uhfl") then lbcd_set (s + 4) 2 value
  else if decide (name = "uhfh") then lbcd_set (s + 6) 2 value
  else if decide (name = "squelch") then u8 18%nat
  else if decide (name = "vox") then u8 19%nat
  else if decide (name = "timeout") then u8 20%nat
  else if decide (name = "batsave") then bit 7 1
  else if decide (name = "fm_funct") then bit 6 1
  else if decide (name = "ste") then bit 5 1
  else if decide (name = "blo") then bit 4 1
  else if decide (name = "beep") then bit 3 1
  else if decide (name = "lock") then bit 2 1
  else if decide (name = "backlight") then bit 0 2
  else if decide (name = "scantype") then u8 22%nat
  else if decide (name = "channel") then u8 23%nat
  else if decide (name = "fmrange") then u8 24%nat
  else if decide (name = "alarm") then u8 25%nat
  else if decide (name = "voice") then u8 26%nat
  else if decide (name = "volume") then u8 27%nat
  else if decide (name = "fm_vfo") then u16_set (s + 28) value
  else if decide (name = "relaym") then u8 30%nat
  else if decide (name = "tx_pwr") then u8 31%nat
  else raise (PyError "AttributeError").

Fixpoint set_settings_element (e : element) : M (list Z) unit :=
  match e with
  | RadioSettingGroup elements =>
      (fix each (l : list element) : M (list Z) unit :=
         match l with
         | [] => ret tt
         | e' :: r => set_settings_element e' ;;; each r
         end) elements
  | RadioSetting name value changed apply_callback =>
      if negb changed then ret tt
      else match apply_callback with
           | Some run_apply_callback => run_apply_callback
           | None => settings_setattr name value
           end
  end.

Definition set_settings (uisettings : list element) : M (list Z) unit :=
  set_settings_element (RadioSettingGroup uisettings).

(** ** The clone protocol *)

(** Modelled from the spec: the serial port (the spec's ByteChannel, a
    blocking duplex byte stream with a timeout) is outside the driver.
    The radio object, as the protocol functions see it, is the serial
    pipe and the memory map.  [rx] scripts the device: its n-th element is
    what arrives before the timeout of the n-th read (an empty element,
    or the end of the script, is a read that times out with nothing);
    what a read does not take stays buffered for the next one.  [tx] is
    the log of what was written, oldest first.  The progress object
    ([status], [radio.status_fn]) only feeds the user interface and the
    serial settings do not change what is exchanged; neither is part of
    the state. *)
Record radio : Type := mk_radio {
  rx : list (list Z);
  tx : list (list Z);
  _mmap : list Z
}.

(** [radio.pipe.read(n)] *)
Definition pipe_read (n : nat) : M radio (list Z) :=
  fun r => match rx r with
           | [] => (Ok [], r)
           | chunk :: rest =>
               (Ok (take n chunk),
                mk_radio (match drop n chunk with
                          | [] => rest
                          | more => more :: rest
                          end) (tx r) (_mmap r))
           end.

(** [radio.pipe.write(data)] *)
Definition pipe_write (data : list Z) : M radio unit :=
  fun r => (Ok tt, mk_radio (rx r) (tx r ++ [data]) (_mmap r)).

Definition get_mmap : M radio (list Z) := fun r => (Ok (_mmap r), r).

(** The loop of [_clean_buffer].  Each turn that does not stop the loop
    adds at least one byte to [datacount] and the loop stops above 101,
    so 103 turns are never used up; [fuel] only makes the recursion
    structural. *)
Definition out_of_fuel : error := PyError "out of fuel".

Fixpoint _clean_buffer_loop (fuel : nat) (datacount : nat) : M radio unit :=
  match fuel with
  | O => raise out_of_fuel
  | S fuel' =>
      dump <- pipe_read 100 ;;
      let datacount := (datacount + length dump)%nat in
      if (101 <? datacount)%nat then
        raise (RadioError "Please check your serial port selection.")
      else if (0 <? length dump)%nat then _clean_buffer_loop fuel' datacount
      else ret tt
  end.

Definition _clean_buffer : M radio unit :=
  try_except (_clean_buffer_loop 103 0)
    (fun _ => raise (RadioError "Unknown error cleaning the serial buffer")).

Definition _rawrecv (amount : nat) : M radio (list Z) :=
  try_except
    (data <- (if (amount =? 0)%nat then pipe_read 1 else pipe_read amount) ;;
     if (length data =? 0)%nat
     then raise (RadioError "No data received from radio")
     else ret data)
    (fun _ => raise (RadioError "Error reading data from radio")).

Definition _send (data : list Z) : M radio unit :=
  try_except (pipe_write data)
    (fun _ => raise (RadioError "Error sending data to radio")).

(** [struct.pack(">BHB", ord(cmd), addr, BLOCK_SIZE)] and the data if
    set; packing raises when the address does not fit 16 bits. *)
Definition _make_frame (cmd : Z) (addr : Z) (data : list Z) : result (list Z) :=
  if (0 <=? addr) && (addr <=? 65535) then
    let frame := [cmd; addr / 256; addr mod 256; Z.of_nat BLOCK_SIZE] in
    Ok (if negb (length data =? 0)%nat then frame ++ data else frame)
  else Err (PyError "struct.error").

Definition cmd_R : Z := 82.
Definition cmd_W : Z := 87.

(** [_recv] after the read (lines 171-187): the checks on the block
    that came in and the payload handed back. *)
Definition _recv_block (block : list Z) (addr : Z) : result (list Z) :=
  if (length block <? BLOCK_SIZE + 4)%nat then
    Err (RadioError ("Wrong block length (short) at 0x" ++ fmt_04x addr)%string)
  else if (BLOCK_SIZE + 4 <? length block)%nat then
    Err (RadioError ("Wrong block length (long) at 0x" ++ fmt_04x addr)%string)
  else
    match take 4 block with
    | [c; a1; a0; l] =>
        let a := a1 * 256 + a0 in
        if negb (c =? cmd_W) || negb (a =? addr) || negb (l =? Z.of_nat BLOCK_SIZE)
        then Err (RadioError ("Invalid header for block 0x" ++ fmt_04x addr ++ ":")%string)
        else Ok (drop 4 block)
    | _ => Err (PyError "struct.error")
    end.

Definition _recv (addr : Z) : M radio (list Z) :=
  block <- _rawrecv (BLOCK_SIZE + 4) ;;
  of_result (_recv_block block addr).

Fixpoint _start_clone_attempts (attempts : list nat) : M radio bool :=
  match attempts with
  | [] => ret false
  | _ :: r =>
      _send BFT1_magic ;;;
      ack <- _rawrecv 1 ;;
      if decide (ack = ACK_CMD) then ret true
      else _start_clone_attempts r
  end.

Definition _start_clone_mode : M radio bool :=
  _clean_buffer ;;;
  try_except (_start_clone_attempts (seq 0 3))
    (fun e => match e with
              | RadioError _ => raise e
              | InvalidDataError msg | PyError msg =>
                  raise (RadioError ("Error sending Magic to radio:" ++ nl ++ msg)%string)
              end).

Definition _do_ident : M radio bool :=
  ok <- _start_clone_mode ;;
  if negb ok then raise (RadioError "Radio did not enter clone mode, wrong model?")
  else
    _send [2] ;;;
    ident <- _rawrecv (length BFT1_ident) ;;
    if negb (length ident =? length BFT1_ident)%nat then
      raise (RadioError "Radio send a odd identification block.")
    else if negb (bool_decide (ident = BFT1_ident)) then
      raise (RadioError "Radio identification failed.")
    else
      _send ACK_CMD ;;;
      ack <- _rawrecv 1 ;;
      if (length ack =? 1)%nat && bool_decide (ack = ACK_CMD) then ret true
      else raise (RadioError "Radio handshake failed.").

(** [range(0, stop, BLOCK_SIZE)] *)
Definition block_addrs (stop : nat) : list Z :=
  map (fun k => Z.of_nat (k * BLOCK_SIZE)) (seq 0 (stop / BLOCK_SIZE)).

Fixpoint _upload_blocks (data : list Z) (addrs : list Z) : M radio unit :=
  match addrs with
  | [] => ret tt
  | addr :: r =>
      let d := take BLOCK_SIZE (drop (Z.to_nat addr) data) in
      frame <- of_result (_make_frame cmd_W addr d) ;;
      _send frame ;;;
      ack <- _rawrecv 1 ;;
      if negb (length ack =? 1)%nat then
        raise (RadioError ("No ACK when writing block 0x" ++ fmt_04x addr)%string)
      else if negb (bool_decide (ack = ACK_CMD)) then
        raise (RadioError ("Bad ACK writing block 0x" ++ fmt_04x addr ++ ":")%string)
      else _upload_blocks data r
  end.

Definition _upload : M radio unit :=
  _do_ident ;;;
  data <- get_mmap ;;
  _clean_buffer ;;;
  _upload_blocks data (block_addrs WRITE_SIZE) ;;;
  _send [98].

Fixpoint _download_blocks (addrs : list Z) (data : list Z) : M radio (list Z) :=
  match addrs with
  | [] => ret data
  | addr :: r =>
      frame <- of_result (_make_frame cmd_R addr []) ;;
      _send frame ;;;
      d <- _recv addr ;;
      _download_blocks r (data ++ d)
  end.

Definition _download : M radio (list Z) :=
  _do_ident ;;;
  _clean_buffer ;;;
  data <- _download_blocks (block_addrs MEM_SIZE) [] ;;
  _send [98] ;;;
  ret data.

(** ** Vocabulary of the properties *)

(** A computation that leaves the state as it found it, whatever it
    returns or raises. *)
Definition read_only {S A : Type} (c : M S A) : Prop :=
  forall s, snd (c s) = s.

(** A computation on the image that, whatever it returns or raises,
    keeps the length of the image and every byte whose offset is not in
    [P]. *)
Definition touches_only {A : Type} (P : nat -> Prop) (c : M (list Z) A) : Prop :=
  forall img,
    length (snd (c img)) = length img /\
    forall i, ~ P i -> snd (c img) !! i = img !! i.

(** The 16-byte region of the channel record at offset [c]. *)
Definition in_region (c : nat) (i : nat) : Prop := (c <= i < c + channel.size)%nat.

(** The record of a channel number of the user interface: 1..20 are the
    normal channels, -2 and -1 the numbers SPECIALS gives to the
    emergency and relay channels. *)
Definition valid_number (n : Z) : bool :=
  ((1 <=? n) && (n <=? 20)) || (n =? -2) || (n =? -1).

Definition channel_base (n : Z) : nat :=
  if n =? -2 then memobj.emg
  else if n =? -1 then memobj.rly
  else (memobj.channels + channel.size * Z.to_nat (n - 1))%nat.

(** A selector and the channel value it reads back: a number with no
    extended number, or a name of SPECIALS with the number SPECIALS
    gives it. *)
Definition selects (sel : selector) (m : Memory) : bool :=
  match sel with
  | Num n => bool_decide (n = number m) && bool_decide (extd_number m = "")
             && valid_number n
  | Name s => bool_decide (dict_get SPECIALS s = Some (number m))
              && bool_decide (extd_number m = s)
  end.

Section Validity.

Variable TONES : list Z.
Variable DTCS_CODES : list Z.

(** A tone specification drawn from the fixed tables. *)
Definition valid_tone (t : tonespec) : bool :=
  match t_mode t with
  | Some m =>
      if decide (m = "") then bool_decide (t_value t = None /\ t_pol t = None)
      else if decide (m = "Tone") then
        match t_value t with
        | Some v => bool_decide (v ∈ TONES) && bool_decide (t_pol t = None)
        | None => false
        end
      else if decide (m = "DTCS") then
        match t_value t, t_pol t with
        | Some v, Some p =>
            bool_decide (v ∈ DTCS DTCS_CODES)
            && (bool_decide (p = "N") || bool_decide (p = "R"))
        | _, _ => false
        end
      else false
  | None => false
  end.

(** Frequencies the record can hold: non-negative multiples of 10 Hz
    of at most eight BCD digits once divided by 10. *)
Definition storable (f : Z) : bool :=
  (0 <=? f) && (f <? 1000000000) && (f mod 10 =? 0).

(** The channel values the codec is asked to keep: the duplex is one
    of the four, the frequencies are storable, bandwidth and skip are
    of the fixed lists and the tones are drawn from the tables. *)
Definition valid_channel (m : Memory) : bool :=
  negb (empty m)
  && storable (freq m) && storable (offset m)
  && bool_decide (duplex m ∈ [""; "+"; "-"; "split"])
  && bool_decide (mode m ∈ MODES) && bool_decide (skip m ∈ SKIP_VALUES)
  && valid_tone (tx_tone m) && valid_tone (rx_tone m).

(** The channel values whose duplex the record can tell apart: a
    relative offset is at most 71 MHz and, with "+" or "-", not zero;
    the two frequencies of a split are more than 71 MHz apart. *)
Definition distinguishable (m : Memory) : bool :=
  if decide (duplex m = "") then offset m <=? 71000000
  else if decide (duplex m = "split") then 71000000 <? Z.abs (freq m - offset m)
  else (0 <? offset m) && (offset m <=? 71000000).

End Validity.

(** The value of four little-endian BCD bytes, as [lbcd_get] folds
    them. *)
Definition lbcd4 (b0 b1 b2 b3 : Z) : Z :=
  let v (b : Z) := fst (bcd_digits b) * 10 + snd (bcd_digits b) in
  ((v b3 * 100 + v b2) * 100 + v b1) * 100 + v b0.

(** The write frame of the block at [addr] of the image [data]. *)
Definition write_frame (data : list Z) (addr : Z) : list Z :=
  [cmd_W; addr / 256; addr mod 256; Z.of_nat BLOCK_SIZE]
    ++ take BLOCK_SIZE (drop (Z.to_nat addr) data).

(** An address the frame header can carry and the image has a block
    for. *)
Definition block_ok (data : list Z) (addr : Z) : Prop :=
  0 <= addr <= 65535 /\ (Z.to_nat addr < length data)%nat.

(** What is written before the first block of an upload to a device
    that answers the handshake and the identification. *)
Definition ident_sent : list (list Z) := [BFT1_magic; [2]; ACK_CMD].

(** What such a device sends up to the first block. *)
Definition ident_script : list (list Z) := [ []; ACK_CMD; BFT1_ident; ACK_CMD; [] ].

(** ** Inputs the properties are exercised on *)

Definition image_zero : list Z := repeat 0 MEM_SIZE.

Definition channel_simplex : Memory :=
  mk_Memory 1 "" false 146520000 0 "" "FM" ""
            (mk_tonespec (Some "Tone") (Some 885) None)
            (mk_tonespec (Some "DTCS") (Some 23) (Some "R")).

Definition channel_bad_tone : Memory :=
  mk_Memory 1 "" false 146520000 0 "" "FM" ""
            (mk_tonespec (Some "Tone") (Some 1001) None) no_tone.

Definition channel_odd_split : Memory :=
  mk_Memory 1 "" false 146520000 147120000 "split" "FM" "" no_tone no_tone.

Definition channel_cross_band : Memory :=
  mk_Memory (-2) "EMG" false 146520000 446000000 "split" "NFM" "S"
            (mk_tonespec (Some "DTCS") (Some 645) (Some "R"))
            (mk_tonespec (Some "Tone") (Some 885) None).

(** Channel 1 holding 146.52 MHz and a stored offset of 600 kHz with
    both direction flags clear. *)
Definition image_simplex_offset : list Z :=
  repeat 0 16 ++ [0; 32; 101; 20; 0; 0; 0; 6; 0; 0; 192; 0; 0; 0; 0; 0]
    ++ repeat 0 (MEM_SIZE - 32).

Definition channel_simplex_offset : Memory :=
  mk_Memory 1 "" false 146520000 600000 "" "FM" "" no_tone no_tone.

(** The same channel 1 with the receive tone byte 200, an index past
    the end of both tone tables. *)
Definition image_unknown_tone : list Z :=
  repeat 0 16 ++ [0; 32; 101; 20; 200; 0; 0; 6; 0; 0; 192; 0; 0; 0; 0; 0]
    ++ repeat 0 (MEM_SIZE - 32).

(** An image whose settings struct holds the band limits 136-174 MHz
    and 400-520 MHz (BCD, in tenths of MHz), squelch 3, the flag byte
    0x49 (FM function and key beep on, backlight "Key"), the active
    channel 1, the given volume byte and FM station bytes, and 0 in
    every other field. *)
Definition image_settings (volume fm_hi fm_lo : Z) : list Z :=
  repeat 0 memobj.settings
    ++ [96; 19; 64; 23; 0; 64; 0; 82; 0; 0; 0; 0; 0; 0; 0; 0;
        0; 0; 3; 0; 0; 73; 0; 1; 0; 0; 0; volume; fm_hi; fm_lo; 0; 0]
    ++ repeat 0 (MEM_SIZE - memobj.rly).

(** An image as the original software leaves it: volume byte 0xFF. *)
Definition image_factory_volume : list Z := image_settings 255 0 0.


(** Images whose FM station field holds the bytes 0x01 0x45 (the 16-bit
    value 0x0145), the bytes 0x45 0x01 (0x4501) and 0xFF 0xFF. *)
Definition image_fm (hi lo : Z) : list Z := image_settings 3 hi lo.

Definition image_fm_ffff : list Z := image_fm 255 255.


(** A device that never sends anything. *)
Definition radio_silent : radio := mk_radio [] [] image_zero.

(** A device that answers the handshake and the identification, then
    stops answering: nothing pending, ACK to the magic, the
    identification, ACK, nothing pending, and silence after that. *)
Definition radio_silent_after_ident : radio :=
  mk_radio [ []; ACK_CMD; BFT1_ident; ACK_CMD; [] ] [] image_zero.

(** ** Vocabulary of the protocol properties *)

(** The bytes pending on the line: what arrives before the first read
    that times out with nothing, and the script after that read. *)
Fixpoint pending (script : list (list Z)) : nat :=
  match script with
  | [] => 0
  | [] :: _ => 0
  | chunk :: rest => length chunk + pending rest
  end.

Fixpoint after_quiet (script : list (list Z)) : list (list Z) :=
  match script with
  | [] => []
  | [] :: rest => rest
  | _ :: rest => after_quiet rest
  end.

(** The read request for the block at [addr] and the answer of a device
    that returns [payload] for it. *)
Definition read_frame (addr : Z) : list Z :=
  [cmd_R; addr / 256; addr mod 256; Z.of_nat BLOCK_SIZE].

Definition device_block (addr : Z) (payload : list Z) : list Z :=
  [cmd_W; addr / 256; addr mod 256; Z.of_nat BLOCK_SIZE] ++ payload.
(** ** class BFT1: what the driver advertises, the fingerprint and the
    band limits *)

(** Modelled from the spec: [chirp_common.RadioFeatures], the
    description of a radio that a driver fills in, is declared outside
    the driver.  The record keeps the fields that [get_features]
    assigns. *)
Record RadioFeatures : Type := mk_RadioFeatures {
  valid_special_chans : list string;
  has_settings : bool;
  has_bank : bool;
  has_tuning_step : bool;
  can_odd_split : bool;
  has_name : bool;
  has_offset : bool;
  has_mode : bool;
  valid_modes : list string;
  has_dtcs : bool;
  has_rx_dtcs : bool;
  has_dtcs_polarity : bool;
  has_ctone : bool;
  has_cross : bool;
  valid_duplexes : list string;
  valid_tmodes : list string;
  valid_cross_modes : list string;
  valid_skips : list string;
  valid_dtcs_codes : list Z;
  memory_bounds : Z * Z;
  valid_tuning_steps : list Q;
  valid_bands : list (Z * Z)
}.

Definition _upper : Z := 20.

(** [get_features]; the arguments are [chirp_common.DTCS_CODES] and the
    two band attributes of the object, [self._vhf_range] and
    [self._uhf_range]. *)
Definition get_features (DTCS_CODES : list Z) (_vhf_range _uhf_range : Z * Z)
  : RadioFeatures :=
  {| valid_special_chans := map fst SPECIALS;
     has_settings := true;
     has_bank := false;
     has_tuning_step := false;
     can_odd_split := true;
     has_name := false;
     has_offset := true;
     has_mode := true;
     valid_modes := MODES;
     has_dtcs := true;
     has_rx_dtcs := true;
     has_dtcs_polarity := true;
     has_ctone := true;
     has_cross := true;
     valid_duplexes := [""; "-"; "+"; "split"];
     valid_tmodes := [""; "Tone"; "TSQL"; "DTCS"; "Cross"];
     valid_cross_modes :=
       ["Tone->Tone"; "DTCS->"; "->DTCS"; "Tone->DTCS"; "DTCS->Tone"; "->Tone";
        "DTCS->DTCS"];
     valid_skips := SKIP_VALUES;
     valid_dtcs_codes := DTCS DTCS_CODES;
     memory_bounds := (1, _upper);
     valid_tuning_steps := [2.5; 5; 6.25; 10; 12.5; 25]%Q;
     valid_bands := [_vhf_range; _uhf_range] |}.

(** [data[0x06f8:0x0700]] is cut to what the data holds. *)
Definition _model_match (data : list Z) : bool :=
  let rid := take (1792 - 1784) (drop 1784 data) in
  bool_decide (rid = BFT1_ident).

(** [match_model]; its second argument, the file name, is not used. *)
Definition match_model (filedata : list Z) : bool :=
  let match_size := bool_decide (length filedata = MEM_SIZE) in
  let match_model := _model_match filedata in
  match_size && match_model.

Definition _decode_ranges (low high : Z) : Z * Z :=
  (low * 100000, high * 100000).

(** [process_mmap]: the result is the pair of values assigned to
    [self._vhf_range] and [self._uhf_range]. *)
Definition process_mmap : M (list Z) ((Z * Z) * (Z * Z)) :=
  let s := memobj.settings in
  vhfl <- lbcd_get (s + 0) 2 ;;
  vhfh <- lbcd_get (s + 2) 2 ;;
  uhfl <- lbcd_get (s + 4) 2 ;;
  uhfh <- lbcd_get (s + 6) 2 ;;
  ret (_decode_ranges vhfl vhfh, _decode_ranges uhfl uhfh).

(** [get_settings], [apply_limit] (lines 849-850): the callback of the
    four band limit entries, on the name of the entry and the integer
    its value converts to. *)
Definition apply_limit (name : string) (value : Z) : M (list Z) unit :=
  settings_setattr name (value * 10).

(** ** Vocabulary of the properties on the whole image *)

(** Two images that hold the same bytes at the offsets in [P]. *)
Definition agree (P : nat -> Prop) (img img' : list Z) : Prop :=
  forall i, P i -> img !! i = img' !! i.

(** A computation whose result, returned or raised, is decided by the
    bytes at the offsets in [P]. *)
Definition reads_within {A : Type} (P : nat -> Prop) (c : M (list Z) A) : Prop :=
  forall img img', agree P img img' -> fst (c img) = fst (c img').

(** A computation that, whatever it returns or raises, leaves an
    observation of the image as it was. *)
Definition keeps {A B : Type} (f : list Z -> B) (c : M (list Z) A) : Prop :=
  forall img, f (snd (c img)) = f img.

(** Bit [k] of the byte at [off]. *)
Definition stored_bit (off : nat) (k : Z) (img : list Z) : option bool :=
  (fun b => Z.testbit b k) <$> img !! off.

(** The settings struct of MEM_FORMAT: 0x0150 up to the relay channel
    at 0x0170. *)
Definition in_settings (i : nat) : Prop := (memobj.settings <= i < memobj.rly)%nat.

(** The entries of a settings tree as [get_settings] builds them: an
    entry has no callback, or its callback assigns an integer to the
    field of the settings struct that has the name of the entry (both
    [apply_limit] and [apply_fm_freq] end in
    [setattr(obj, setting.get_name(), value)]). *)
Fixpoint settings_element (e : element) : Prop :=
  match e with
  | RadioSetting name _ _ None => True
  | RadioSetting name _ _ (Some callback) =>
      exists v : Z, callback = settings_setattr name v
  | RadioSettingGroup elements =>
      (fix all (l : list element) : Prop :=
         match l with
         | [] => True
         | e' :: r => settings_element e' /\ all r
         end) elements
  end.

(** The value of two little-endian BCD bytes, as [lbcd_get] folds
    them. *)
Definition lbcd2 (b0 b1 : Z) : Z :=
  let v (b : Z) := fst (bcd_digits b) * 10 + snd (bcd_digits b) in
  v b1 * 100 + v b0.

(** A computation that, on every image of at least [L] bytes, returns a
    value in [Q] and keeps the length of the image. *)
Definition returns_on {A : Type} (L : nat) (Q : A -> Prop) (c : M (list Z) A) : Prop :=
  forall img, (L <= length img)%nat ->
              exists a img', c img = (Ok a, img') /\ length img' = length img /\ Q a.

(** A byte that holds two decimal digits. *)
Definition valid_bcd (b : Z) : bool :=
  (0 <=? b) && (b <? 256)
  && (fst (bcd_digits b) <=? 9) && (snd (bcd_digits b) <=? 9).

(** The 16 bytes of a record in normal form: the two frequency fields
    hold decimal digits, the tone bytes and the flag byte are bytes, an
    inversion flag is set only next to a digital tone, and the two
    direction flags fit the offset: both clear with no offset, not both
    set with an offset of at most 71 MHz, exactly one set above. *)
Definition normal_record (r : list Z) : bool :=
  match r with
  | [b0; b1; b2; b3; b4; b5; b6; b7; b8; b9; b10; _; _; _; _; _] =>
      let offset := lbcd4 b5 b6 b7 b8 * 10 in
      let bit (s : Z) := bits_extract b10 s 1 in
      forallb valid_bcd [b0; b1; b2; b3; b5; b6; b7; b8]
      && forallb (fun b => (0 <=? b) && (b <? 256)) [b4; b9; b10]
      && ((bit channel.ttondinv =? 0) || (50 <? b9))
      && ((bit channel.rtondinv =? 0) || (50 <? b4))
      && (if offset =? 0
          then (bit channel.offminus =? 0) && (bit channel.offplus =? 0)
          else if offset <=? 71000000
          then negb ((bit channel.offminus =? 1) && (bit channel.offplus =? 1))
          else negb (bit channel.offminus =? bit channel.offplus))
  | _ => false
  end.

(** ** Vocabulary of the properties on the settings tree *)

(** The value object of the entry called [name] in a settings tree, if
    the tree has such an entry. *)
Definition shown (name : string) (tree : list settings_group)
  : option RadioSettingValue :=
  s_value <$> find (fun s => bool_decide (s_name s = name))
                   (concat (map g_entries tree)).







(** * Properties *)

(** ** Computations that only read *)

Lemma read_only_ret {S A : Type} (a : A) : read_only (ret (S := S) a).
Proof. intros s. reflexivity. Qed.

Lemma read_only_raise {S A : Type} (e : error) : read_only (raise (S := S) (A := A) e).
Proof. intros s. reflexivity. Qed.

Lemma read_only_bind {S A B : Type} (c : M S A) (k : A -> M S B) :
  read_only c -> (forall a, read_only (k a)) -> read_only (bind c k).
Proof.
  intros Hc Hk s. unfold bind. specialize (Hc s).
  destruct (c s) as [[a|e] s']; simpl in *; subst s'.
  - apply Hk.
  - reflexivity.
Qed.

Lemma read_only_of_option {S A : Type} (o : option A) (e : error) :
  read_only (of_option (S := S) o e).
Proof. destruct o; [apply read_only_ret | apply read_only_raise]. Qed.

Lemma read_only_of_result {S A : Type} (r : result A) :
  read_only (of_result (S := S) r).
Proof. destruct r; [apply read_only_ret | apply read_only_raise]. Qed.

Lemma read_only_get_byte (off : nat) : read_only (get_byte off).
Proof. intros img. unfold get_byte. destruct (img !! off); reflexivity. Qed.

Create HintDb read_only.

#[local] Hint Resolve read_only_ret read_only_raise read_only_of_option
  read_only_of_result read_only_get_byte : read_only.

Ltac read_only_step :=
  match goal with
  | |- read_only (bind _ _) => apply read_only_bind; [ | intros ? ]
  | |- read_only (if ?b then _ else _) => destruct b
  | |- read_only (match ?x with _ => _ end) => destruct x
  | |- read_only _ => solve [ auto with read_only ]
  end.

Lemma read_only_bcd_get (off : nat) : read_only (bcd_get off).
Proof. unfold bcd_get. repeat read_only_step. Qed.

Lemma read_only_lbcd_get_items (offs : list nat) (val : Z) :
  read_only (lbcd_get_items offs val).
Proof.
  revert val. induction offs as [|o r IH]; intros val; simpl.
  - apply read_only_ret.
  - apply read_only_bind; [apply read_only_bcd_get | intros d; apply IH].
Qed.

Lemma read_only_lbcd_get (base n : nat) : read_only (lbcd_get base n).
Proof. apply read_only_lbcd_get_items. Qed.

Lemma read_only_bits_get (off : nat) (shift nbits : Z) :
  read_only (bits_get off shift nbits).
Proof. unfold bits_get, u8_get. repeat read_only_step. Qed.

Lemma read_only_u8_get (off : nat) : read_only (u8_get off).
Proof. apply read_only_get_byte. Qed.

Lemma read_only_u16_get (off : nat) : read_only (u16_get off).
Proof. unfold u16_get. repeat read_only_step. Qed.

#[local] Hint Resolve read_only_bcd_get read_only_lbcd_get read_only_bits_get
  read_only_u8_get read_only_u16_get : read_only.

Lemma read_only_get_memory (TONES DTCS_CODES : list Z) (number : selector) :
  read_only (get_memory TONES DTCS_CODES number).
Proof. unfold get_memory, deref. repeat read_only_step. Qed.

(** C10. [get_memory] is read-only: for every selector, whether the
    call returns a channel value or raises, the bytes of the image after
    the call are the bytes before the call. *)
Theorem get_memory_leaves_image_unchanged :
  forall (TONES DTCS_CODES : list Z) (number : selector) (img : list Z),
    snd (get_memory TONES DTCS_CODES number img) = img.
Proof. intros. apply read_only_get_memory. Qed.

(** ** Computations that write inside a region *)

Lemma touches_only_ret {A : Type} (P : nat -> Prop) (a : A) :
  touches_only P (ret a).
Proof. intros img. split; reflexivity. Qed.

Lemma touches_only_raise {A : Type} (P : nat -> Prop) (e : error) :
  touches_only (A := A) P (raise e).
Proof. intros img. split; reflexivity. Qed.

Lemma touches_only_bind {A B : Type} (P : nat -> Prop)
      (c : M (list Z) A) (k : A -> M (list Z) B) :
  touches_only P c -> (forall a, touches_only P (k a)) -> touches_only P (bind c k).
Proof.
  intros Hc Hk img. unfold bind. destruct (Hc img) as [Hl Hi].
  destruct (c img) as [[a|e] img1]; simpl in *.
  - destruct (Hk a img1) as [Hl' Hi']. split.
    + congruence.
    + intros i Hn. rewrite Hi' by assumption. apply Hi; assumption.
  - split; assumption.
Qed.

Lemma touches_only_try_except {A : Type} (P : nat -> Prop)
      (c : M (list Z) A) (h : error -> M (list Z) A) :
  touches_only P c -> (forall e, touches_only P (h e)) ->
  touches_only P (try_except c h).
Proof.
  intros Hc Hh img. unfold try_except. destruct (Hc img) as [Hl Hi].
  destruct (c img) as [[a|e] img1]; simpl in *.
  - split; assumption.
  - destruct (Hh e img1) as [Hl' Hi']. split.
    + congruence.
    + intros i Hn. rewrite Hi' by assumption. apply Hi; assumption.
Qed.

Lemma touches_only_read {A : Type} (P : nat -> Prop) (c : M (list Z) A) :
  read_only c -> touches_only P c.
Proof.
  intros Hc img. pose proof (Hc img) as E.
  split; [ | intros i _ ]; rewrite E; reflexivity.
Qed.

Lemma touches_only_set_byte (P : nat -> Prop) (off : nat) (v : Z) :
  P off -> touches_only P (set_byte off v).
Proof.
  intros HP img. unfold set_byte. destruct (decide _); simpl.
  - split.
    + apply length_insert.
    + intros i Hn. apply list_lookup_insert_ne. intros ->. contradiction.
  - split; reflexivity.
Qed.

Lemma touches_only_u8_set (P : nat -> Prop) (off : nat) (v : Z) :
  P off -> touches_only P (u8_set off v).
Proof. apply touches_only_set_byte. Qed.

Lemma touches_only_bits_set (P : nat -> Prop) (off : nat) (shift nbits v : Z) :
  P off -> touches_only P (bits_set off shift nbits v).
Proof.
  intros HP. unfold bits_set. apply touches_only_bind.
  - apply touches_only_read, read_only_u8_get.
  - intros data. apply touches_only_u8_set, HP.
Qed.

Lemma touches_only_lbcd_set_items (P : nat -> Prop) (offs : list nat) (value : Z) :
  Forall P offs -> touches_only P (lbcd_set_items offs value).
Proof.
  intros HP. revert value. induction HP as [|o r Ho Hr IH]; intros value; simpl.
  - apply touches_only_ret.
  - apply touches_only_bind.
    + apply touches_only_set_byte, Ho.
    + intros _. apply IH.
Qed.

Lemma touches_only_lbcd_set (P : nat -> Prop) (base n : nat) (value : Z) :
  (forall k, (k < n)%nat -> P (base + k)%nat) ->
  touches_only P (lbcd_set base n value).
Proof.
  intros HP. apply touches_only_lbcd_set_items. unfold items.
  apply Forall_forall. intros o Ho.
  apply list_elem_of_In, in_map_iff in Ho. destruct Ho as (k & <- & Hk).
  apply in_seq in Hk. apply HP. lia.
Qed.

Lemma touches_only_set_raw (P : nat -> Prop) (data : list Z) (c : nat) :
  (forall k, (k < length data)%nat -> P (c + k)%nat) ->
  touches_only P (set_raw c data).
Proof.
  revert c. induction data as [|b r IH]; intros c HP; simpl.
  - apply touches_only_ret.
  - apply touches_only_bind.
    + apply touches_only_set_byte. replace c with (c + 0)%nat by lia.
      apply HP. simpl. lia.
    + intros _. apply IH. intros k Hk.
      replace (S c + k)%nat with (c + S k)%nat by lia. apply HP. simpl. lia.
Qed.

Lemma touches_only_encode_tone (TONES DTCS_CODES : list Z) (P : nat -> Prop)
      (memtone flags : nat) (meminv : Z) (t : tonespec) :
  P memtone -> P flags ->
  touches_only P (_encode_tone TONES DTCS_CODES memtone flags meminv t).
Proof.
  intros Hm Hf. unfold _encode_tone.
  repeat first
    [ apply touches_only_u8_set; assumption
    | apply touches_only_bits_set; assumption
    | apply touches_only_bind; [ | intros ? ]
    | apply touches_only_try_except; [ | intros ? ]
    | apply touches_only_raise
    | apply touches_only_read, read_only_of_option
    | match goal with
      | |- touches_only _ (if ?b then _ else _) => destruct b
      end ].
Qed.

Lemma touches_only_bind_ret {A B : Type} (P : nat -> Prop)
      (a : A) (k : A -> M (list Z) B) :
  touches_only P (k a) -> touches_only P (bind (ret a) k).
Proof. intros H img. exact (H img). Qed.

(** Whatever [set_memory] returns or raises, it keeps the length of the
    image and every byte outside the record its number stands for. *)
Lemma set_memory_frame (TONES DTCS_CODES : list Z) (mem : Memory) (c : nat) :
  _get_special (Num (number mem)) = Ok (Some c) ->
  touches_only (in_region c) (set_memory TONES DTCS_CODES mem).
Proof.
  intros Hc. unfold set_memory. rewrite Hc. simpl of_result.
  assert (Hin : forall k, (k < 16)%nat -> in_region c (c + k)).
  { intros k Hk. unfold in_region, channel.size. lia. }
  assert (H0 : in_region c c).
  { unfold in_region, channel.size. lia. }
  apply touches_only_bind_ret. unfold deref, of_option.
  apply touches_only_bind_ret.
  unfold channel.rxfreq, channel.txoffset, channel.flags, channel.txtone,
    channel.rxtone.
  repeat first
    [ apply touches_only_bits_set; apply Hin; lia
    | apply touches_only_encode_tone; apply Hin; lia
    | apply touches_only_set_raw; intros k Hk; apply Hin; simpl in Hk; lia
    | apply touches_only_lbcd_set; intros k Hk;
      first [ apply Hin; lia
            | rewrite <- Nat.add_assoc; apply Hin; lia ]
    | apply touches_only_ret
    | apply touches_only_read, read_only_of_option
    | apply touches_only_bind; [ | intros ? ]
    | match goal with
      | |- touches_only _ (if ?b then _ else _) => destruct b
      end ].
Qed.

Lemma get_special_valid_number (n : Z) :
  valid_number n = true ->
  _get_special (Num n) = Ok (Some (channel_base n)).
Proof.
  unfold valid_number. intros H.
  assert (Hn : (1 <= n <= 20) \/ n = -2 \/ n = -1) by lia.
  destruct Hn as [Hn | [-> | ->]]; [ | reflexivity | reflexivity ].
  assert (Hk : exists k : nat, (k < 20)%nat /\ n = Z.of_nat k + 1).
  { exists (Z.to_nat (n - 1)). lia. }
  destruct Hk as (k & Hk & ->).
  do 20 (destruct k as [|k]; [ reflexivity | ]). lia.
Qed.

(** C8. For every channel number of the user interface (1..20, or the
    number of a special name) and every channel value that [set_memory]
    accepts without error, the image keeps its length and every byte
    outside the 16-byte region of the selected record is unchanged. *)
Theorem set_memory_changes_only_selected_record :
  forall (TONES DTCS_CODES : list Z) (mem mem' : Memory) (img img' : list Z),
    valid_number (number mem) = true ->
    set_memory TONES DTCS_CODES mem img = (Ok mem', img') ->
    length img' = length img /\
    forall i, ~ in_region (channel_base (number mem)) i -> img' !! i = img !! i.
Proof.
  intros TONES DTCS_CODES mem mem' img img' Hn Hrun.
  pose proof (set_memory_frame TONES DTCS_CODES mem _
                (get_special_valid_number _ Hn) img) as H.
  rewrite Hrun in H. exact H.
Qed.

Lemma set_memory_changes_only_selected_record_witness :
  let img' := snd (set_memory chirp_TONES chirp_DTCS_CODES channel_simplex image_zero) in
  length img' = length image_zero /\
  forall i, ~ in_region 16 i -> img' !! i = image_zero !! i.
Proof.
  intros img'.
  apply (set_memory_changes_only_selected_record
           chirp_TONES chirp_DTCS_CODES channel_simplex channel_simplex
           image_zero img').
  - reflexivity.
  - vm_compute. reflexivity.
Defined.

(** C3, as stated, fails: on an image of zeros, setting channel 1 to
    146.52 MHz with a 100.1 Hz tone, which is not in the table, raises,
    and the frequency bytes of the record have been rewritten by then. *)
Lemma set_memory_failure_leaves_writes :
  fst (set_memory chirp_TONES chirp_DTCS_CODES channel_bad_tone image_zero)
  = Err (RadioError "TCSS Tone '100' is not supported") /\
  image_zero !! 17%nat = Some 0 /\
  snd (set_memory chirp_TONES chirp_DTCS_CODES channel_bad_tone image_zero) !! 17%nat
  = Some 32.
Proof. vm_compute. repeat split. Qed.

(** C3, amended.  When [set_memory] raises, the image keeps its length
    and every byte outside the 16-byte region of the selected record is
    unchanged; when it raises because its number stands for no record,
    no byte at all is changed.  (Bytes of the record itself may have
    been rewritten before the raise.) *)
Theorem set_memory_failure_confined_to_record :
  forall (TONES DTCS_CODES : list Z) (mem : Memory) (img img' : list Z) (e : error),
    set_memory TONES DTCS_CODES mem img = (Err e, img') ->
    length img' = length img /\
    match _get_special (Num (number mem)) with
    | Ok (Some c) => forall i, ~ in_region c i -> img' !! i = img !! i
    | _ => img' = img
    end.
Proof.
  intros TONES DTCS_CODES mem img img' e Hrun.
  destruct (_get_special (Num (number mem))) as [[c|]|e'] eqn:Hc.
  - pose proof (set_memory_frame TONES DTCS_CODES mem c Hc img) as H.
    rewrite Hrun in H. exact H.
  - unfold set_memory in Hrun. rewrite Hc in Hrun.
    inversion Hrun. split; reflexivity.
  - unfold set_memory in Hrun. rewrite Hc in Hrun.
    inversion Hrun. split; reflexivity.
Qed.

Lemma set_memory_failure_confined_to_record_witness :
  let img' := snd (set_memory chirp_TONES chirp_DTCS_CODES channel_bad_tone image_zero) in
  length img' = length image_zero /\
  forall i, ~ in_region 16 i -> img' !! i = image_zero !! i.
Proof.
  intros img'.
  apply (set_memory_failure_confined_to_record
           chirp_TONES chirp_DTCS_CODES channel_bad_tone image_zero img'
           (RadioError "TCSS Tone '100' is not supported")).
  vm_compute. reflexivity.
Defined.

(** ** Arithmetic of the bit fields and of the BCD bytes *)

Lemma testbit_bits_mask_1 (s i : Z) :
  0 <= s -> 0 <= i -> Z.testbit (bits_mask s 1) i = (i =? s).
Proof.
  intros Hs Hi. unfold bits_mask. rewrite Z.shiftl_spec by assumption.
  change (Z.ones 1) with 1.
  destruct (Z.eqb_spec i s) as [->|Hne].
  - rewrite Z.sub_diag. reflexivity.
  - destruct (Z.lt_ge_cases i s) as [Hlt|Hge].
    + apply Z.testbit_neg_r. lia.
    + apply (Z.bits_above_log2 1 (i - s)); simpl; lia.
Qed.

Lemma bits_extract_1 (b s : Z) :
  0 <= s -> bits_extract b s 1 = Z.b2z (Z.testbit b s).
Proof.
  intros Hs. unfold bits_extract. apply Z.bits_inj'. intros i Hi.
  rewrite Z.shiftr_spec, Z.land_spec, testbit_bits_mask_1 by lia.
  destruct (Z.eqb_spec (i + s) s) as [E|E].
  - assert (i = 0) by lia. subst i. rewrite Z.add_0_l, andb_true_r. destruct (Z.testbit b s); reflexivity.
  - rewrite andb_false_r. symmetry.
    destruct (Z.testbit b s); simpl.
    + apply (Z.bits_above_log2 1 i); simpl; lia.
    + apply Z.bits_0.
Qed.

Lemma testbit_stored_bit (b s v i : Z) :
  0 <= s < 8 -> 0 <= i ->
  Z.testbit (Z.land (bits_insert b s 1 v) 255) i =
  (i <? 8) && (if i =? s then Z.testbit v 0 else Z.testbit b i).
Proof.
  intros Hs Hi. unfold bits_insert.
  rewrite Z.land_spec, Z.lor_spec, !Z.land_spec, Z.lnot_spec,
    testbit_bits_mask_1, Z.shiftl_spec by lia.
  change 255 with (Z.ones 8). rewrite Z.testbit_ones_nonneg by lia.
  destruct (Z.eqb_spec i s) as [->|Hne].
  - rewrite Z.sub_diag. simpl negb.
    rewrite andb_false_r, andb_true_r. simpl orb. apply andb_comm.
  - simpl negb. rewrite andb_true_r, andb_false_r, orb_false_r. apply andb_comm.
Qed.

(** Reading a one-bit field back from the byte an assignment stored. *)
Lemma bits_extract_stored_same (b s v : Z) :
  0 <= s < 8 -> v = 0 \/ v = 1 ->
  bits_extract (Z.land (bits_insert b s 1 v) 255) s 1 = v.
Proof.
  intros Hs Hv. rewrite bits_extract_1, testbit_stored_bit by lia.
  rewrite Z.eqb_refl. replace (s <? 8) with true by lia.
  destruct Hv as [-> | ->]; reflexivity.
Qed.

Lemma bits_extract_stored_other (b s s' v : Z) :
  0 <= s < 8 -> 0 <= s' < 8 -> s <> s' ->
  bits_extract (Z.land (bits_insert b s' 1 v) 255) s 1 = bits_extract b s 1.
Proof.
  intros Hs Hs' Hne. rewrite !bits_extract_1, testbit_stored_bit by lia.
  replace (s <? 8) with true by lia. replace (s =? s') with false by lia.
  reflexivity.
Qed.

Lemma bcd_digits_pack (d : Z) :
  0 <= d < 100 ->
  fst (bcd_digits (bcd_pack d)) * 10 + snd (bcd_digits (bcd_pack d)) = d.
Proof.
  intros Hd.
  assert (H : forallb (fun k => let d := Z.of_nat k in
              fst (bcd_digits (bcd_pack d)) * 10 + snd (bcd_digits (bcd_pack d)) =? d)
            (seq 0 100) = true) by (vm_compute; reflexivity).
  rewrite forallb_forall in H. specialize (H (Z.to_nat d)).
  rewrite Z2Nat.id in H by lia. apply Z.eqb_eq, H, in_seq. lia.
Qed.

Lemma bcd_pack_not_255 (d : Z) : 0 <= d < 100 -> (bcd_pack d =? 255) = false.
Proof.
  intros Hd. unfold bcd_pack.
  assert (0 <= d / 10 < 10) by (split; [apply Z.div_pos | apply Z.div_lt_upper_bound]; lia).
  assert (0 <= d mod 10 < 10) by (apply Z.mod_pos_bound; lia).
  lia.
Qed.

Lemma lbcd4_pack (q : Z) :
  0 <= q < 100000000 ->
  lbcd4 (bcd_pack (q mod 100)) (bcd_pack ((q / 100) mod 100))
        (bcd_pack (((q / 100) / 100) mod 100))
        (bcd_pack ((((q / 100) / 100) / 100) mod 100)) = q.
Proof.
  intros Hq. unfold lbcd4.
  rewrite !bcd_digits_pack by (apply Z.mod_pos_bound; lia).
  pose proof (Z.div_mod q 100 ltac:(lia)) as E0.
  pose proof (Z.div_mod (q / 100) 100 ltac:(lia)) as E1.
  pose proof (Z.div_mod (q / 100 / 100) 100 ltac:(lia)) as E2.
  assert (H3 : 0 <= q / 100 / 100 / 100 < 100).
  { split.
    - repeat apply Z.div_pos; lia.
    - repeat apply Z.div_lt_upper_bound; lia. }
  rewrite (Z.mod_small (q / 100 / 100 / 100)) by assumption.
  lia.
Qed.

(** ** Running the accessors on a record laid out in the image

    The image is written [pre ++ l]: [pre] is what lies before the
    record, [l] starts with the bytes of the record. *)

Lemma get_byte_app (pre l : list Z) (k : nat) (b : Z) :
  l !! k = Some b ->
  get_byte (length pre + k) (pre ++ l) = (Ok b, pre ++ l).
Proof.
  intros Hk. unfold get_byte. rewrite lookup_app_r by lia.
  replace (length pre + k - length pre)%nat with k by lia.
  rewrite Hk. reflexivity.
Qed.

Lemma get_byte_app0 (pre l : list Z) (b : Z) :
  l !! 0%nat = Some b ->
  get_byte (length pre) (pre ++ l) = (Ok b, pre ++ l).
Proof.
  intros Hk. rewrite <- (Nat.add_0_r (length pre)) at 1.
  apply get_byte_app, Hk.
Qed.

Lemma set_byte_app (pre l : list Z) (k : nat) (v : Z) :
  (k < length l)%nat ->
  set_byte (length pre + k) v (pre ++ l) = (Ok tt, pre ++ <[k := v]> l).
Proof.
  intros Hk. unfold set_byte. rewrite length_app.
  destruct (decide _) as [_|H]; [|lia].
  rewrite insert_app_r_alt by lia.
  replace (length pre + k - length pre)%nat with k by lia. reflexivity.
Qed.

Lemma u8_get_app (pre l : list Z) (k : nat) (b : Z) :
  l !! k = Some b ->
  u8_get (length pre + k) (pre ++ l) = (Ok b, pre ++ l).
Proof. apply get_byte_app. Qed.

Lemma u8_set_app (pre l : list Z) (k : nat) (v : Z) :
  (k < length l)%nat ->
  u8_set (length pre + k) v (pre ++ l) = (Ok tt, pre ++ <[k := Z.land v 255]> l).
Proof. apply set_byte_app. Qed.

Lemma bits_get_app (pre l : list Z) (k : nat) (b shift nbits : Z) :
  l !! k = Some b ->
  bits_get (length pre + k) shift nbits (pre ++ l)
  = (Ok (bits_extract b shift nbits), pre ++ l).
Proof.
  intros Hk. unfold bits_get, bind. rewrite (u8_get_app _ _ _ _ Hk). reflexivity.
Qed.

Lemma bits_set_app (pre l : list Z) (k : nat) (b shift nbits v : Z) :
  l !! k = Some b ->
  bits_set (length pre + k) shift nbits v (pre ++ l)
  = (Ok tt, pre ++ <[k := Z.land (bits_insert b shift nbits v) 255]> l).
Proof.
  intros Hk. unfold bits_set, bind. rewrite (u8_get_app _ _ _ _ Hk).
  apply u8_set_app. apply lookup_lt_Some in Hk. exact Hk.
Qed.

Lemma lbcd_get_app (pre l : list Z) (k : nat) (b0 b1 b2 b3 : Z) :
  l !! k = Some b0 -> l !! (k + 1)%nat = Some b1 ->
  l !! (k + 2)%nat = Some b2 -> l !! (k + 3)%nat = Some b3 ->
  lbcd_get (length pre + k) 4 (pre ++ l) = (Ok (lbcd4 b0 b1 b2 b3), pre ++ l).
Proof.
  intros H0 H1 H2 H3. unfold lbcd_get, items. cbn [seq map rev app lbcd_get_items].
  rewrite <- !Nat.add_assoc, Nat.add_0_r.
  unfold bcd_get, bind.
  rewrite (get_byte_app _ _ _ _ H3). cbn [ret].
  rewrite (get_byte_app _ _ _ _ H2). cbn [ret].
  rewrite (get_byte_app _ _ _ _ H1). cbn [ret].
  rewrite (get_byte_app _ _ _ _ H0). cbn [ret].
  unfold ret, lbcd4. do 2 f_equal. lia.
Qed.

Lemma lbcd_set_app (pre l : list Z) (k : nat) (q : Z) :
  (k + 4 <= length l)%nat ->
  lbcd_set (length pre + k) 4 q (pre ++ l)
  = (Ok tt,
     pre ++ <[(k + 3)%nat := bcd_pack ((((q / 100) / 100) / 100) mod 100)]>
              (<[(k + 2)%nat := bcd_pack (((q / 100) / 100) mod 100)]>
                 (<[(k + 1)%nat := bcd_pack ((q / 100) mod 100)]>
                    (<[k := bcd_pack (q mod 100)]> l)))).
Proof.
  intros Hk. unfold lbcd_set, items. cbn [seq map lbcd_set_items].
  rewrite <- !Nat.add_assoc, Nat.add_0_r.
  unfold bcd_set, bind.
  rewrite set_byte_app by lia.
  rewrite set_byte_app by (rewrite ?length_insert; lia).
  rewrite set_byte_app by (rewrite ?length_insert; lia).
  rewrite set_byte_app by (rewrite ?length_insert; lia).
  reflexivity.
Qed.

(** ** Python list lookups *)

Lemma index_Some {A : Type} `{EqDecision A} (x : A) (l : list A) :
  x ∈ l -> exists i, index x l = Some i /\ l !! i = Some x.
Proof.
  induction l as [|y r IH]; intros Hin.
  - inversion Hin.
  - simpl. destruct (decide (x = y)) as [->|Hne].
    + exists 0%nat. split; reflexivity.
    + apply elem_of_cons in Hin. destruct Hin as [->|Hin]; [contradiction|].
      destruct (IH Hin) as (i & Hi & Hl). rewrite Hi.
      exists (S i). split; [reflexivity | exact Hl].
Qed.

Lemma py_getitem_nat {A : Type} (l : list A) (i : nat) (x : A) :
  l !! i = Some x -> py_getitem l (Z.of_nat i) = Some x.
Proof.
  intros Hl. pose proof (lookup_lt_Some _ _ _ Hl) as Hlt.
  unfold py_getitem.
  replace ((0 <=? Z.of_nat i) && (Z.of_nat i <? Z.of_nat (length l))) with true by lia.
  rewrite Nat2Z.id. exact Hl.
Qed.

Lemma length_sorted_insert (x : Z) (l : list Z) :
  length (sorted_insert x l) = S (length l).
Proof.
  induction l as [|y r IH]; simpl; [reflexivity|].
  destruct (x <=? y); simpl; [reflexivity | rewrite IH; reflexivity].
Qed.

Lemma length_sorted (l : list Z) : length (sorted l) = length l.
Proof.
  induction l as [|y r IH]; simpl; [reflexivity|].
  rewrite length_sorted_insert, IH. reflexivity.
Qed.

(** ** Tones *)

Lemma land_255_small (x : Z) : 0 <= x < 256 -> Z.land x 255 = x.
Proof.
  intros Hx. change 255 with (Z.ones 8).
  rewrite Z.land_ones by lia. apply Z.mod_small. simpl. lia.
Qed.

Section Tones.

Variable TONES : list Z.
Variable DTCS_CODES : list Z.
Hypothesis TONES_fit : (length TONES <= 50)%nat.
Hypothesis DTCS_fit : (length DTCS_CODES <= 204)%nat.

(** A tone drawn from the tables is stored as a code and an
    inversion bit that decode to the same tone. *)
Lemma encode_tone_app (t : tonespec) :
  valid_tone TONES DTCS_CODES t = true ->
  exists code inv,
    (inv = 0 \/ inv = 1)
    /\ _decode_tone TONES DTCS_CODES code inv = Ok t
    /\ forall (pre l : list Z) (kt kf : nat) (bf s : Z),
        (kt < length l)%nat -> l !! kf = Some bf -> kt <> kf ->
        _encode_tone TONES DTCS_CODES (length pre + kt) (length pre + kf) s t (pre ++ l)
        = (Ok tt, pre ++ <[kf := Z.land (bits_insert bf s 1 inv) 255]> (<[kt := code]> l)).
Proof.
  intros Hv.
  assert (Hrun : forall (pre l : list Z) (kt kf : nat) (bf s : Z) v inv,
    (kt < length l)%nat -> l !! kf = Some bf -> kt <> kf ->
    (u8_set (length pre + kt) v ;;; bits_set (length pre + kf) s 1 inv) (pre ++ l)
    = (Ok tt, pre ++ <[kf := Z.land (bits_insert bf s 1 inv) 255]>
                       (<[kt := Z.land v 255]> l))).
  { intros pre l kt kf bf s v inv Hkt Hkf Hne.
    unfold bind at 1. rewrite u8_set_app by assumption.
    apply bits_set_app. rewrite list_lookup_insert_ne by assumption. exact Hkf. }
  destruct t as [m v p]. unfold valid_tone in Hv. cbn [t_mode t_value t_pol] in Hv.
  destruct m as [m|]; [|discriminate].
  unfold _encode_tone. cbn [t_mode t_value t_pol].
  destruct (decide (m = "")) as [->|Hm1].
  - apply bool_decide_eq_true in Hv. destruct Hv as [-> ->].
    exists 0, 0.
    destruct (decide (Some "" = Some "" \/ Some "" = None)) as [_|Hn];
      [|exfalso; apply Hn; left; reflexivity].
    split; [left; reflexivity|]. split; [reflexivity|].
    intros pre l kt kf bf s Hkt Hkf Hne. apply Hrun; assumption.
  - destruct (decide (Some m = Some "" \/ Some m = None)) as [[H|H]|_];
      [congruence | discriminate | ].
    destruct (decide (m = "Tone")) as [->|Hm2].
    + destruct v as [v|]; [|discriminate].
      apply andb_true_iff in Hv. destruct Hv as [Hin Hp].
      apply bool_decide_eq_true in Hin, Hp. subst p.
      destruct (index_Some v TONES Hin) as (i & Hi & Hl).
      pose proof (lookup_lt_Some _ _ _ Hl) as Hlt.
      exists (Z.of_nat i + 1), 0.
      destruct (decide (Some "Tone" = Some "Tone")) as [_|Hn]; [|congruence].
      split; [left; reflexivity|]. split.
      { unfold _decode_tone.
        replace (Z.of_nat i + 1 =? 0) with false by lia.
        replace (Z.of_nat i + 1 <? 51) with true by lia.
        replace (Z.of_nat i + 1 - 1) with (Z.of_nat i) by lia.
        rewrite (py_getitem_nat _ _ _ Hl). reflexivity. }
      intros pre l kt kf bf s Hkt Hkf Hne.
      unfold try_except. rewrite Hi. unfold of_option.
      change ((a <- ret i;; u8_set (length pre + kt) (Z.of_nat a + 1);;;
               bits_set (length pre + kf) s 1 0) (pre ++ l))
        with ((u8_set (length pre + kt) (Z.of_nat i + 1);;;
               bits_set (length pre + kf) s 1 0) (pre ++ l)).
      rewrite (Hrun _ _ _ _ _ _ _ _ Hkt Hkf Hne),
        (land_255_small (Z.of_nat i + 1)) by lia.
      reflexivity.
    + destruct (decide (Some m = Some "Tone")) as [H|_]; [congruence|].
      destruct (decide (m = "DTCS")) as [->|Hm3]; [|discriminate].
      destruct v as [v|]; [|discriminate].
      destruct p as [p|]; [|discriminate].
      apply andb_true_iff in Hv. destruct Hv as [Hin Hp].
      apply bool_decide_eq_true in Hin.
      destruct (index_Some v (DTCS DTCS_CODES) Hin) as (i & Hi & Hl).
      pose proof (lookup_lt_Some _ _ _ Hl) as Hlt.
      unfold DTCS in Hlt. rewrite length_sorted, length_app in Hlt. simpl in Hlt.
      exists (Z.of_nat i + 51), (if decide (Some p = Some "R") then 1 else 0).
      destruct (decide (Some "DTCS" = Some "DTCS")) as [_|Hn]; [|congruence].
      assert (Hdec : _decode_tone TONES DTCS_CODES (Z.of_nat i + 51)
                       (if decide (Some p = Some "R") then 1 else 0)
                     = Ok (mk_tonespec (Some "DTCS") (Some v) (Some p))).
      { unfold _decode_tone.
        replace (Z.of_nat i + 51 =? 0) with false by lia.
        replace (Z.of_nat i + 51 <? 51) with false by lia.
        replace (Z.of_nat i + 51 >? 50) with true by lia.
        replace (Z.of_nat i + 51 - 51) with (Z.of_nat i) by lia.
        rewrite (py_getitem_nat _ _ _ Hl).
        apply orb_true_iff in Hp.
        destruct Hp as [Hp|Hp]; apply bool_decide_eq_true in Hp; subst p;
          reflexivity. }
      split; [destruct (decide (Some p = Some "R")); [right|left]; reflexivity|].
      split; [exact Hdec|].
      intros pre l kt kf bf s Hkt Hkf Hne.
      unfold try_except. rewrite Hi. unfold of_option.
      change ((a <- ret i;; u8_set (length pre + kt) (Z.of_nat a + 51);;;
               (if decide (Some p = Some "R")
                then bits_set (length pre + kf) s 1 1
                else bits_set (length pre + kf) s 1 0)) (pre ++ l))
        with ((u8_set (length pre + kt) (Z.of_nat i + 51);;;
               (if decide (Some p = Some "R")
                then bits_set (length pre + kf) s 1 1
                else bits_set (length pre + kf) s 1 0)) (pre ++ l)).
      destruct (decide (Some p = Some "R")) as [HR|HR];
        rewrite (Hrun _ _ _ _ _ _ _ _ Hkt Hkf Hne),
          (land_255_small (Z.of_nat i + 51)) by lia;
        reflexivity.
Qed.

End Tones.

(** ** Stepping through a computation *)

Lemma bind_ok {S A B : Type} (c : M S A) (k : A -> M S B) (s s' : S) (a : A) :
  c s = (Ok a, s') -> bind c k s = k a s'.
Proof. intros H. unfold bind. rewrite H. reflexivity. Qed.

Lemma bind_assoc {S A B C : Type} (c : M S A) (k1 : A -> M S B) (k2 : B -> M S C) (s : S) :
  bind (bind c k1) k2 s = bind c (fun a => bind (k1 a) k2) s.
Proof. unfold bind. destruct (c s) as [[a|e] s']; reflexivity. Qed.

Ltac record_step :=
  first
    [ apply lbcd_set_app; cbn [length]; lia
    | apply lbcd_get_app; reflexivity
    | apply bits_set_app; reflexivity
    | apply bits_get_app; reflexivity
    | apply u8_get_app; reflexivity
    | apply get_byte_app; reflexivity
    | apply get_byte_app0; reflexivity
    | reflexivity ].

Ltac run_record :=
  repeat (rewrite ?bind_assoc;
          erewrite bind_ok by record_step;
          cbv beta; cbn [insert list_insert Nat.add]).

Ltac simpl_bits :=
  unfold channel.offplus, channel.offminus, channel.wide, channel.noskip,
    channel.ttondinv, channel.rtondinv;
  repeat first
    [ rewrite bits_extract_stored_same by (first [assumption | lia])
    | rewrite bits_extract_stored_other by lia ].

Ltac decide_strings :=
  repeat match goal with
         | |- context [decide (?a = ?b)] =>
             destruct (decide (a = b)) as [?|?]; [ try discriminate | try congruence ]
         end.

Section RoundTrip.

Variable TONES : list Z.
Variable DTCS_CODES : list Z.
Hypothesis TONES_fit : (length TONES <= 50)%nat.
Hypothesis DTCS_fit : (length DTCS_CODES <= 204)%nat.

Lemma storable_quot (f : Z) :
  storable f = true -> 0 <= Z.quot f 10 < 100000000 /\ Z.quot f 10 * 10 = f.
Proof.
  unfold storable. intros H.
  assert (Hf : 0 <= f < 1000000000 /\ f mod 10 = 0) by lia.
  destruct Hf as [Hf Hm]. rewrite Z.quot_div_nonneg by lia.
  pose proof (Z.div_mod f 10 ltac:(lia)). lia.
Qed.

Ltac set_side :=
  decide_strings; run_record;
  match goal with H : index _ MODES = Some _ |- _ => rewrite H end;
  run_record;
  match goal with H : index _ SKIP_VALUES = Some _ |- _ => rewrite H end;
  run_record;
  match goal with
  | Htx : forall pre l kt kf bf s, _ -> _ -> _ -> _encode_tone _ _ _ _ _ ?tx _ = _
    |- bind (_encode_tone _ _ _ _ _ ?tx) _ _ = _ =>
      erewrite bind_ok by (apply Htx; [cbn [length]; lia | reflexivity | lia])
  end;
  cbn [insert list_insert Nat.add];
  match goal with
  | Hrx : forall pre l kt kf bf s, _ -> _ -> _ -> _encode_tone _ _ _ _ _ ?rx _ = _
    |- bind (_encode_tone _ _ _ _ _ ?rx) _ _ = _ =>
      erewrite bind_ok by (apply Hrx; [cbn [length]; lia | reflexivity | lia])
  end;
  cbn [insert list_insert Nat.add];
  reflexivity.

Ltac get_side :=
  unfold get_memory;
  match goal with H : _get_special _ = Ok (Some _) |- _ => rewrite H end;
  cbn [of_result];
  erewrite bind_ok by reflexivity; cbv beta;
  match goal with
  | Hbranch : forall img : list Z, _ = (Ok _, img) |- _ =>
      rewrite (bind_ok _ _ _ _ _ (Hbranch _))
  end;
  unfold deref, of_option;
  unfold channel.rxfreq, channel.txoffset, channel.flags, channel.txtone,
    channel.rxtone;
  erewrite bind_ok by reflexivity; cbv beta;
  erewrite bind_ok by record_step; cbv beta;
  rewrite bcd_pack_not_255 by (apply Z.mod_pos_bound; lia);
  run_record; simpl_bits;
  match goal with
  | H : MODES !! _ = Some _ |- _ => rewrite (py_getitem_nat _ _ _ H)
  end;
  cbn [of_option]; run_record; simpl_bits;
  match goal with
  | H : SKIP_VALUES !! _ = Some _ |- _ => rewrite (py_getitem_nat _ _ _ H)
  end;
  cbn [of_option]; run_record; simpl_bits;
  match goal with
  | H : _decode_tone _ _ _ _ = Ok _ |- context [_decode_tone _ _ ?c ?i] =>
      match type of H with _decode_tone _ _ c i = _ => rewrite H end
  end;
  cbn [of_result]; run_record; simpl_bits;
  match goal with
  | H : _decode_tone _ _ _ _ = Ok _ |- context [_decode_tone _ _ ?c ?i] =>
      match type of H with _decode_tone _ _ c i = _ => rewrite H end
  end;
  cbn [of_result]; run_record;
  rewrite !lbcd4_pack by (first [assumption | lia]).

Ltac polarity :=
  unfold work_out_polarity;
  change (0 =? 1) with false; change (1 =? 1) with true; cbv iota;
  cbn [offset freq with_duplex with_offset with_freq with_extd_number
       with_number with_mode with_skip with_tones Memory_new
       number extd_number empty duplex mode skip tx_tone rx_tone].

Lemma roundtrip_core (pre post : list Z)
      (c0 c1 c2 c3 c4 c5 c6 c7 c8 c9 c10 c11 c12 c13 c14 c15 : Z)
      (mem : Memory) (sel : selector) :
  _get_special (Num (number mem)) = Ok (Some (length pre)) ->
  _get_special sel = Ok (Some (length pre)) ->
  match sel with
  | Num n => n = number mem /\ extd_number mem = ""
  | Name s => dict_get SPECIALS s = Some (number mem) /\ extd_number mem = s
  end ->
  valid_channel TONES DTCS_CODES mem = true ->
  distinguishable mem = true ->
  exists img',
    set_memory TONES DTCS_CODES mem
      (pre ++ [c0; c1; c2; c3; c4; c5; c6; c7; c8; c9; c10; c11; c12; c13; c14; c15] ++ post)
    = (Ok mem, img') /\
    get_memory TONES DTCS_CODES sel img' = (Ok mem, img').
Proof.
  intros Hnum Hsel Hid Hvalid Hdist.
  unfold valid_channel in Hvalid.
  repeat (apply andb_true_iff in Hvalid; destruct Hvalid as [Hvalid ?]).
  repeat match goal with
         | H : bool_decide _ = true |- _ => apply bool_decide_eq_true in H
         end.
  destruct mem as [num ext emp f o d md sk tx rx]. cbn [number extd_number empty freq offset duplex mode skip tx_tone rx_tone] in *.
  destruct emp; [discriminate|]. clear Hvalid.
  match goal with H : md ∈ MODES |- _ => destruct (index_Some _ _ H) as (w & Hw & Hwl) end.
  match goal with H : sk ∈ SKIP_VALUES |- _ => destruct (index_Some _ _ H) as (ns & Hns & Hnsl) end.
  pose proof (lookup_lt_Some _ _ _ Hwl) as Hwlt. pose proof (lookup_lt_Some _ _ _ Hnsl) as Hnslt.
  simpl in Hwlt, Hnslt.
  match goal with H : storable f = true |- _ => destruct (storable_quot _ H) as [Hfq Hfe] end.
  match goal with H : storable o = true |- _ => destruct (storable_quot _ H) as [Hoq Hoe] end.
  match goal with
  | H : valid_tone _ _ tx = true |- _ =>
      destruct (encode_tone_app _ _ TONES_fit DTCS_fit tx H)
        as (txc & txi & Htxi & Htxd & Htx)
  end.
  match goal with
  | H : valid_tone _ _ rx = true |- _ =>
      destruct (encode_tone_app _ _ TONES_fit DTCS_fit rx H)
        as (rxc & rxi & Hrxi & Hrxd & Hrx)
  end.
  assert (Hbranch : forall img : list Z,
    match sel with
    | Num n => ret (with_number n Memory_new)
    | Name s =>
        n <- of_option (dict_get SPECIALS s) (PyError "KeyError") ;;
        ret (with_extd_number s (with_number n Memory_new))
    end img = (Ok (with_extd_number ext (with_number num Memory_new)), img)).
  { intros img. destruct sel as [n|s]; destruct Hid as [Hid1 Hid2]; subst.
    - reflexivity.
    - rewrite Hid1. reflexivity. }
  unfold set_memory. cbn [number extd_number empty freq offset duplex mode skip tx_tone rx_tone].
  rewrite Hnum. cbn [of_result]. unfold deref, of_option.
  unfold channel.rxfreq, channel.txoffset, channel.flags, channel.txtone, channel.rxtone.
  cbn [app].
  assert (Hd : d = "" \/ d = "+" \/ d = "-" \/ d = "split").
  { repeat match goal with
           | H : _ ∈ _ :: _ |- _ => apply elem_of_cons in H; destruct H as [H|H]
           | H : _ ∈ [] |- _ => inversion H
           end; auto. }
  unfold distinguishable in Hdist. cbn [duplex offset freq] in Hdist.
  destruct Hd as [-> | [-> | [-> | ->]]].
  - eexists. split; [ set_side | get_side ].
    rewrite Hfe, Hoe. polarity.
    destruct (decide ("" = "")) as [_|?]; [|congruence].
    destruct (Z.eqb_spec o 0); cbn [negb];
      [ | replace (o >? 71000000) with false by lia ]; reflexivity.
  - eexists. split; [ set_side | get_side ].
    rewrite Hfe, Hoe. polarity.
    destruct (decide ("+" = "")) as [?|_]; [discriminate|].
    destruct (decide ("+" = "split")) as [?|_]; [discriminate|].
    replace (o =? 0) with false by lia.
    replace (o >? 71000000) with false by lia. reflexivity.
  - eexists. split; [ set_side | get_side ].
    rewrite Hfe, Hoe. polarity.
    destruct (decide ("-" = "")) as [?|_]; [discriminate|].
    destruct (decide ("-" = "split")) as [?|_]; [discriminate|].
    replace (o =? 0) with false by lia.
    replace (o >? 71000000) with false by lia. reflexivity.
  - destruct (decide ("split" = "")) as [?|_]; [discriminate|].
    destruct (decide ("split" = "split")) as [_|?]; [|congruence].
    assert (Hf : 0 <= f < 1000000000 /\ f mod 10 = 0)
      by (match goal with H : storable f = true |- _ => unfold storable in H; lia end).
    assert (Ho : 0 <= o < 1000000000 /\ o mod 10 = 0)
      by (match goal with H : storable o = true |- _ => unfold storable in H; lia end).
    destruct (Z.gtb_spec f o) as [Hgt|Hle].
    + assert (Hq : 0 <= Z.quot (f - o) 10 < 100000000 /\ Z.quot (f - o) 10 * 10 = f - o).
      { rewrite Z.quot_div_nonneg by lia.
        pose proof (Z.div_mod (f - o) 10 ltac:(lia)) as E.
        assert ((f - o) mod 10 = 0).
        { rewrite Zminus_mod. destruct Hf as [_ ->]. destruct Ho as [_ ->]. reflexivity. }
        lia. }
      destruct Hq as [Hq Hqe].
      eexists. split; [ set_side | get_side ].
      rewrite Hfe, Hqe. polarity.
      replace (f - o =? 0) with false by lia.
      replace (f - o >? 71000000) with true by lia.
      cbv iota. replace (f - (f - o)) with o by lia. reflexivity.
    + assert (Hq : 0 <= Z.quot (o - f) 10 < 100000000 /\ Z.quot (o - f) 10 * 10 = o - f).
      { rewrite Z.quot_div_nonneg by lia.
        pose proof (Z.div_mod (o - f) 10 ltac:(lia)) as E.
        assert ((o - f) mod 10 = 0).
        { rewrite Zminus_mod. destruct Hf as [_ ->]. destruct Ho as [_ ->]. reflexivity. }
        lia. }
      destruct Hq as [Hq Hqe].
      eexists. split; [ set_side | get_side ].
      rewrite Hfe, Hqe. polarity.
      replace (o - f =? 0) with false by lia.
      replace (o - f >? 71000000) with true by lia.
      cbv iota. replace (f + (o - f)) with o by lia. reflexivity.
Qed.

End RoundTrip.

(** ** The record a selector stands for *)

Lemma split_record (img : list Z) (c : nat) :
  (c + 16 <= length img)%nat ->
  exists pre post c0 c1 c2 c3 c4 c5 c6 c7 c8 c9 c10 c11 c12 c13 c14 c15,
    img = pre ++ [c0; c1; c2; c3; c4; c5; c6; c7; c8; c9; c10; c11; c12; c13; c14; c15]
              ++ post
    /\ length pre = c.
Proof.
  intros Hlen.
  assert (Hd : (16 <= length (drop c img))%nat) by (rewrite length_drop; lia).
  assert (Ht : length (take c img) = c) by (rewrite length_take; lia).
  pose proof (take_drop c img) as E.
  destruct (drop c img) as [|c0 [|c1 [|c2 [|c3 [|c4 [|c5 [|c6 [|c7 [|c8 [|c9
    [|c10 [|c11 [|c12 [|c13 [|c14 [|c15 post]]]]]]]]]]]]]]]];
    simpl in Hd; try lia.
  exists (take c img), post,
    c0, c1, c2, c3, c4, c5, c6, c7, c8, c9, c10, c11, c12, c13, c14, c15.
  split; [symmetry; exact E | exact Ht].
Qed.

Lemma channel_base_fits (n : Z) :
  valid_number n = true -> (channel_base n + 16 <= WRITE_SIZE)%nat.
Proof.
  unfold valid_number, channel_base, WRITE_SIZE, memobj.emg, memobj.rly,
    memobj.channels, channel.size.
  intros H.
  destruct (Z.eqb_spec n (-2)); [lia|]. destruct (Z.eqb_spec n (-1)); lia.
Qed.

Lemma selects_record (sel : selector) (mem : Memory) :
  selects sel mem = true ->
  exists c,
    _get_special (Num (number mem)) = Ok (Some c)
    /\ _get_special sel = Ok (Some c)
    /\ (c + 16 <= WRITE_SIZE)%nat
    /\ match sel with
       | Num n => n = number mem /\ extd_number mem = ""
       | Name s => dict_get SPECIALS s = Some (number mem) /\ extd_number mem = s
       end.
Proof.
  destruct sel as [n|s]; cbn [selects]; intros H.
  - apply andb_true_iff in H. destruct H as [H Hv].
    apply andb_true_iff in H. destruct H as [Hn He].
    apply bool_decide_eq_true in Hn, He. subst n.
    exists (channel_base (number mem)).
    rewrite (get_special_valid_number _ Hv).
    split; [reflexivity|]. split; [reflexivity|].
    split; [apply channel_base_fits, Hv | auto].
  - apply andb_true_iff in H. destruct H as [Hd He].
    apply bool_decide_eq_true in Hd, He.
    assert (Hs : (s = "EMG" /\ number mem = -2) \/ (s = "RLY" /\ number mem = -1)).
    { unfold dict_get, SPECIALS in Hd.
      destruct (decide (s = "EMG")); [left; split; congruence|].
      destruct (decide (s = "RLY")); [right; split; congruence|].
      discriminate. }
    destruct Hs as [[-> Hn] | [-> Hn]]; rewrite Hn in *.
    + exists memobj.emg.
      split; [reflexivity|]. split; [reflexivity|]. split; [cbv; lia | auto].
    + exists memobj.rly.
      split; [reflexivity|]. split; [reflexivity|]. split; [cbv; lia | auto].
Qed.

(** C1, as stated, fails: 146.52 MHz with a split transmit frequency of
    147.12 MHz is a valid channel value; [set_memory] accepts it and
    [get_memory] then returns duplex "+" with an offset of 600 kHz. *)
Lemma odd_split_not_restored :
  valid_channel chirp_TONES chirp_DTCS_CODES channel_odd_split = true /\
  fst (set_memory chirp_TONES chirp_DTCS_CODES channel_odd_split image_zero)
  = Ok channel_odd_split /\
  fst (get_memory chirp_TONES chirp_DTCS_CODES (Num 1)
         (snd (set_memory chirp_TONES chirp_DTCS_CODES channel_odd_split image_zero)))
  = Ok (with_offset 600000 (with_duplex "+" channel_odd_split)) /\
  with_offset 600000 (with_duplex "+" channel_odd_split) <> channel_odd_split.
Proof. vm_compute. repeat split. discriminate. Qed.

(** C1, amended.  For every valid channel value whose duplex the
    record can tell apart (a relative offset of at most 71 MHz, not zero
    with "+" or "-"; the two frequencies of a split more than 71 MHz
    apart), on every image of 2048 bytes and with tables that fit the
    tone byte, [set_memory] succeeds and [get_memory] on the resulting
    image returns the original value. *)
Theorem set_then_get_memory :
  forall (TONES DTCS_CODES : list Z) (mem : Memory) (sel : selector) (img : list Z),
    (length TONES <= 50)%nat ->
    (length DTCS_CODES <= 204)%nat ->
    length img = MEM_SIZE ->
    valid_channel TONES DTCS_CODES mem = true ->
    distinguishable mem = true ->
    selects sel mem = true ->
    exists img',
      set_memory TONES DTCS_CODES mem img = (Ok mem, img') /\
      get_memory TONES DTCS_CODES sel img' = (Ok mem, img').
Proof.
  intros TONES DTCS_CODES mem sel img HT HD Hlen Hvalid Hdist Hsel.
  destruct (selects_record _ _ Hsel) as (c & Hnum & Hs & Hfit & Hid).
  destruct (split_record img c) as
    (pre & post & c0 & c1 & c2 & c3 & c4 & c5 & c6 & c7 & c8 & c9 & c10 & c11
     & c12 & c13 & c14 & c15 & -> & <-).
  { rewrite Hlen. unfold WRITE_SIZE, MEM_SIZE in *. lia. }
  apply roundtrip_core; assumption.
Qed.

Lemma set_then_get_memory_witness :
  exists img',
    set_memory chirp_TONES chirp_DTCS_CODES channel_cross_band image_zero
    = (Ok channel_cross_band, img') /\
    get_memory chirp_TONES chirp_DTCS_CODES (Name "EMG") img'
    = (Ok channel_cross_band, img').
Proof.
  apply (set_then_get_memory chirp_TONES chirp_DTCS_CODES channel_cross_band
           (Name "EMG") image_zero).
  - vm_compute. lia.
  - vm_compute. lia.
  - reflexivity.
  - reflexivity.
  - reflexivity.
  - reflexivity.
Defined.

(** ** What a successful [get_memory] went through *)

Lemma bind_inv {S A B : Type} (c : M S A) (k : A -> M S B) (s s' : S) (b : B) :
  bind c k s = (Ok b, s') ->
  exists a s1, c s = (Ok a, s1) /\ k a s1 = (Ok b, s').
Proof.
  unfold bind. destruct (c s) as [[a|e] s1]; intros H.
  - exists a, s1. split; [reflexivity | exact H].
  - discriminate.
Qed.

Lemma bind_read_inv {S A B : Type} (c : M S A) (k : A -> M S B) (s s' : S) (b : B) :
  read_only c ->
  bind c k s = (Ok b, s') ->
  exists a, c s = (Ok a, s) /\ k a s = (Ok b, s').
Proof.
  intros Hc H. apply bind_inv in H. destruct H as (a & s1 & H1 & H2).
  pose proof (Hc s) as E. rewrite H1 in E. simpl in E. subst s1.
  exists a. split; assumption.
Qed.

Ltac read_inv H a Ha :=
  apply bind_read_inv in H;
  [ destruct H as (a & Ha & H)
  | auto with read_only ].

(** ** The FM station *)





(** ** Frames *)

(** C5. The block check of [_recv] accepts a block exactly when it is
    20 bytes long, starts with 'W', carries the requested address and
    the length byte 16, and then returns its 16 bytes of payload; every
    other block is rejected with a RadioError, whichever of the four
    checks fails. *)
Theorem recv_block_validation :
  forall (block : list Z) (addr : Z),
    (forall payload,
        _recv_block block addr = Ok payload <->
        exists a1 a0,
          block = cmd_W :: a1 :: a0 :: 16 :: payload /\
          length payload = 16%nat /\ a1 * 256 + a0 = addr)
    /\ (length block <> 20%nat \/
        nth 0 block 0 <> cmd_W \/
        nth 1 block 0 * 256 + nth 2 block 0 <> addr \/
        nth 3 block 0 <> 16 ->
        exists msg, _recv_block block addr = Err (RadioError msg)).
Proof.
  intros block addr. unfold _recv_block, BLOCK_SIZE.
  change (16 + 4)%nat with 20%nat. change (Z.of_nat 16) with 16.
  destruct (Nat.ltb_spec (length block) 20) as [Hs|Hs].
  { split.
    - intros payload. split; [discriminate|].
      intros (a1 & a0 & -> & Hl & _). simpl in Hs. lia.
    - intros _. eexists. reflexivity. }
  destruct (Nat.ltb_spec 20 (length block)) as [Hl|Hl].
  { split.
    - intros payload. split; [discriminate|].
      intros (a1 & a0 & -> & Hp & _). simpl in Hl. lia.
    - intros _. eexists. reflexivity. }
  destruct block as [|c [|a1 [|a0 [|l payload]]]]; simpl in Hs, Hl; try lia.
  cbn [firstn skipn nth].
  change (take 0 payload) with (@nil Z). change (drop 0 payload) with payload.
  destruct (Z.eqb_spec c cmd_W) as [Hc|Hc];
    destruct (Z.eqb_spec (a1 * 256 + a0) addr) as [Ha|Ha];
    destruct (Z.eqb_spec l 16) as [Hb|Hb]; cbn [negb orb].
  1:{ subst c l. split.
      - intros p. split.
        + intros E. inversion E. subst p. exists a1, a0.
          split; [reflexivity|]. split; [lia | exact Ha].
        + intros (x1 & x0 & E & _ & _). inversion E. reflexivity.
      - intros [H|[H|[H|H]]];
          [cbn [length] in H; lia | contradiction | contradiction | contradiction]. }
  all: split;
    [ intros p; split; [discriminate|];
      intros (x1 & x0 & E & _ & Hx); inversion E; subst; contradiction
    | intros _; eexists; reflexivity ].
Qed.

Lemma recv_block_validation_witness :
  exists msg,
    _recv_block (cmd_W :: 0 :: 32 :: 16 :: repeat 9 16) 16 = Err (RadioError msg).
Proof.
  apply (proj2 (recv_block_validation (cmd_W :: 0 :: 32 :: 16 :: repeat 9 16) 16)).
  right. right. left. vm_compute. discriminate.
Defined.

(** [_recv] hands to the block check what its one read of 20 bytes
    returned; a read that returns nothing raises before the check. *)
Lemma recv_checks_the_block_read (addr : Z) (r : radio) :
  _recv addr r =
  match pipe_read 20 r with
  | (Ok [], r') => (Err (RadioError "Error reading data from radio"), r')
  | (Ok block, r') => of_result (_recv_block block addr) r'
  | (Err e, r') => (Err (RadioError "Error reading data from radio"), r')
  end.
Proof.
  unfold _recv, _rawrecv, bind, try_except, BLOCK_SIZE.
  change (16 + 4 =? 0)%nat with false. cbv iota. change (16 + 4)%nat with 20%nat.
  destruct (pipe_read 20 r) as [[block|e] r']; [|reflexivity].
  destruct block; reflexivity.
Qed.

(** ** The clone protocol *)

Lemma rawrecv_one (b : Z) (rest : list (list Z)) (t : list (list Z)) (m : list Z) :
  _rawrecv 1 (mk_radio ([b] :: rest) t m) = (Ok [b], mk_radio rest t m).
Proof. reflexivity. Qed.

Lemma rawrecv_nothing (n : nat) (rest : list (list Z)) (t : list (list Z)) (m : list Z) :
  _rawrecv n (mk_radio ([] :: rest) t m)
  = (Err (RadioError "Error reading data from radio"), mk_radio rest t m).
Proof. unfold _rawrecv, try_except, bind. destruct n; reflexivity. Qed.

Lemma send_logs (data : list Z) (r : radio) :
  _send data r = (Ok tt, mk_radio (rx r) (tx r ++ [data]) (_mmap r)).
Proof. reflexivity. Qed.

(** The loop of [_clean_buffer] never uses up its fuel. *)
Lemma clean_buffer_loop_fuel (fuel datacount : nat) (r : radio) :
  (datacount <= 101)%nat -> (103 <= fuel + datacount)%nat ->
  fst (_clean_buffer_loop fuel datacount r) <> Err out_of_fuel.
Proof.
  revert datacount r. induction fuel as [|fuel IH]; intros datacount r Hd Hf.
  - lia.
  - cbn [_clean_buffer_loop]. unfold bind.
    destruct (pipe_read 100 r) as [[dump|e] r1] eqn:E.
    + destruct (Nat.ltb_spec 101 (datacount + length dump)) as [H|H].
      * cbn. discriminate.
      * destruct (Nat.ltb_spec 0 (length dump)) as [H0|H0].
        -- apply IH; lia.
        -- cbn. discriminate.
    + unfold pipe_read in E. destruct (rx r); discriminate.
Qed.

Lemma clean_buffer_total (r : radio) :
  fst (_clean_buffer_loop 103 0 r) <> Err out_of_fuel.
Proof. apply clean_buffer_loop_fuel; lia. Qed.

(** Nothing pending: [_clean_buffer] reads once and returns. *)
Lemma clean_buffer_nothing (rest : list (list Z)) (t : list (list Z)) (m : list Z) :
  _clean_buffer (mk_radio ([] :: rest) t m) = (Ok tt, mk_radio rest t m).
Proof. reflexivity. Qed.

(** More than 101 bytes pending in one burst: [_clean_buffer] raises
    on its second read. *)
Lemma clean_buffer_runaway (chunk : list Z) (rest : list (list Z))
      (t : list (list Z)) (m : list Z) :
  (101 < length chunk)%nat ->
  exists msg r', _clean_buffer (mk_radio (chunk :: rest) t m) = (Err (RadioError msg), r').
Proof.
  intros H. unfold _clean_buffer, try_except.
  destruct (_clean_buffer_loop 103 0 (mk_radio (chunk :: rest) t m))
    as [[[]|e] r'] eqn:E.
  - exfalso. cbn [_clean_buffer_loop] in E. unfold bind, pipe_read in E.
    cbn [rx tx _mmap] in E.
    assert (H1 : length (take 100 chunk) = 100%nat) by (rewrite length_take; lia).
    rewrite H1 in E. cbn [Nat.add Nat.ltb Nat.leb] in E.
    assert (H2 : (1 < length (drop 100 chunk))%nat) by (rewrite length_drop; lia).
    destruct (drop 100 chunk) as [|d0 [|d1 more]] eqn:Ed; cbn [length] in H2; try lia.
    unfold pipe_read in E. cbn [rx tx _mmap] in E.
    assert (H3 : (2 <= length (take 100 (d0 :: d1 :: more)))%nat)
      by (rewrite length_take; cbn [length]; lia).
    destruct (Nat.ltb_spec 101 (100 + length (take 100 (d0 :: d1 :: more)))) as [H4|H4];
      [discriminate E | lia].
  - eexists _, _. reflexivity.
Qed.

(** *** Entering clone mode *)

(** On ACK at the first, second or third attempt [_start_clone_mode]
    returns true at once, having sent the magic that many times. *)
Lemma start_clone_mode_ack_first (rest t : list (list Z)) (m : list Z) :
  _start_clone_mode (mk_radio ([] :: ACK_CMD :: rest) t m)
  = (Ok true, mk_radio rest (t ++ [BFT1_magic]) m).
Proof. reflexivity. Qed.

Lemma start_clone_mode_ack_second (b1 : Z) (rest t : list (list Z)) (m : list Z) :
  b1 <> 6 ->
  _start_clone_mode (mk_radio ([] :: [b1] :: ACK_CMD :: rest) t m)
  = (Ok true, mk_radio rest ((t ++ [BFT1_magic]) ++ [BFT1_magic]) m).
Proof.
  intros H1. unfold _start_clone_mode, bind.
  rewrite clean_buffer_nothing. unfold try_except.
  cbn [seq _start_clone_attempts]. unfold bind.
  rewrite send_logs. cbn [rx tx _mmap]. rewrite rawrecv_one.
  destruct (decide ([b1] = ACK_CMD)) as [E|_]; [inversion E; contradiction|].
  reflexivity.
Qed.

(** Three answers that are one byte other than ACK: three attempts,
    and the result is false. *)
Lemma start_clone_mode_three_refusals (b1 b2 b3 : Z) (rest t : list (list Z))
      (m : list Z) :
  b1 <> 6 -> b2 <> 6 -> b3 <> 6 ->
  _start_clone_mode (mk_radio ([] :: [b1] :: [b2] :: [b3] :: rest) t m)
  = (Ok false,
     mk_radio rest (((t ++ [BFT1_magic]) ++ [BFT1_magic]) ++ [BFT1_magic]) m).
Proof.
  intros H1 H2 H3. unfold _start_clone_mode, bind.
  rewrite clean_buffer_nothing. unfold try_except.
  cbn [seq _start_clone_attempts]. unfold bind.
  rewrite send_logs. cbn [rx tx _mmap]. rewrite rawrecv_one.
  destruct (decide ([b1] = ACK_CMD)) as [E|_]; [inversion E; contradiction|].
  rewrite send_logs. cbn [rx tx _mmap]. rewrite rawrecv_one.
  destruct (decide ([b2] = ACK_CMD)) as [E|_]; [inversion E; contradiction|].
  rewrite send_logs. cbn [rx tx _mmap]. rewrite rawrecv_one.
  destruct (decide ([b3] = ACK_CMD)) as [E|_]; [inversion E; contradiction|].
  reflexivity.
Qed.

(** C6, at the failing input.  A device that has nothing pending and
    does not answer the first magic: [_start_clone_mode] raises after
    that one attempt; it neither tries again nor returns false.  In
    particular so on a device that never sends anything. *)
Theorem start_clone_mode_gives_up_on_silence :
  (forall (rest t : list (list Z)) (m : list Z),
      _start_clone_mode (mk_radio ([] :: [] :: rest) t m)
      = (Err (RadioError "Error reading data from radio"),
         mk_radio rest (t ++ [BFT1_magic]) m))
  /\ _start_clone_mode radio_silent
     = (Err (RadioError "Error reading data from radio"),
        mk_radio [] [BFT1_magic] image_zero).
Proof. split; reflexivity. Qed.

(** *** Uploading *)

Lemma do_ident_ok (rest t : list (list Z)) (m : list Z) :
  _do_ident (mk_radio ([] :: ACK_CMD :: BFT1_ident :: ACK_CMD :: rest) t m)
  = (Ok true, mk_radio rest (t ++ ident_sent) m).
Proof.
  unfold ident_sent.
  change (t ++ [BFT1_magic; [2]; ACK_CMD])
    with (t ++ [BFT1_magic] ++ [[2]] ++ [ACK_CMD]).
  rewrite !app_assoc. reflexivity.
Qed.

Lemma make_write_frame (data : list Z) (addr : Z) :
  0 <= addr <= 65535 -> (Z.to_nat addr < length data)%nat ->
  _make_frame cmd_W addr (take BLOCK_SIZE (drop (Z.to_nat addr) data))
  = Ok (write_frame data addr).
Proof.
  intros Ha Hl. unfold _make_frame, write_frame.
  replace ((0 <=? addr) && (addr <=? 65535)) with true by lia.
  assert (H : (0 < length (take BLOCK_SIZE (drop (Z.to_nat addr) data)))%nat).
  { rewrite length_take, length_drop. unfold BLOCK_SIZE. lia. }
  destruct (Nat.eqb_spec (length (take BLOCK_SIZE (drop (Z.to_nat addr) data))) 0);
    [lia | reflexivity].
Qed.

Lemma upload_blocks_acked (data : list Z) (addrs : list Z) :
  Forall (block_ok data) addrs ->
  forall (rest t : list (list Z)) (m : list Z),
    _upload_blocks data addrs (mk_radio (repeat ACK_CMD (length addrs) ++ rest) t m)
    = (Ok tt, mk_radio rest (t ++ map (write_frame data) addrs) m).
Proof.
  induction 1 as [|addr addrs [Ha Hl] _ IH]; intros rest t m.
  - cbn [_upload_blocks length repeat map app]. rewrite app_nil_r. reflexivity.
  - cbn [_upload_blocks length repeat map app].
    rewrite (make_write_frame _ _ Ha Hl). unfold bind at 1. cbn [of_result ret].
    unfold bind at 1. rewrite send_logs. cbn [rx tx _mmap].
    unfold bind at 1. unfold ACK_CMD at 1. rewrite rawrecv_one.
    cbn [length Nat.eqb negb]. fold ACK_CMD.
    rewrite bool_decide_eq_true_2 by reflexivity. cbn [negb].
    rewrite IH. rewrite <- app_assoc. reflexivity.
Qed.

(** The answer to the block at [addr] is one byte other than ACK: the
    error names the address and nothing is written after the frame of
    that block. *)
Lemma upload_blocks_bad_ack (data : list Z) (done : list Z) (addr b : Z)
      (todo : list Z) :
  Forall (block_ok data) done -> block_ok data addr -> b <> 6 ->
  forall (rest t : list (list Z)) (m : list Z),
    _upload_blocks data (done ++ addr :: todo)
      (mk_radio (repeat ACK_CMD (length done) ++ [b] :: rest) t m)
    = (Err (RadioError ("Bad ACK writing block 0x" ++ fmt_04x addr ++ ":")%string),
       mk_radio rest (t ++ map (write_frame data) done ++ [write_frame data addr]) m).
Proof.
  intros Hdone [Ha Hl] Hb.
  induction Hdone as [|a0 done [Ha0 Hl0] _ IH]; intros rest t m.
  - cbn [_upload_blocks length repeat map app].
    rewrite (make_write_frame _ _ Ha Hl). unfold bind at 1. cbn [of_result ret].
    unfold bind at 1. rewrite send_logs. cbn [rx tx _mmap].
    unfold bind at 1. rewrite rawrecv_one.
    cbn [length Nat.eqb negb].
    rewrite bool_decide_eq_false_2 by (intros E; inversion E; contradiction).
    reflexivity.
  - cbn [_upload_blocks length repeat map app].
    rewrite (make_write_frame _ _ Ha0 Hl0). unfold bind at 1. cbn [of_result ret].
    unfold bind at 1. rewrite send_logs. cbn [rx tx _mmap].
    unfold bind at 1. unfold ACK_CMD at 1. rewrite rawrecv_one.
    cbn [length Nat.eqb negb]. fold ACK_CMD.
    rewrite bool_decide_eq_true_2 by reflexivity. cbn [negb].
    rewrite IH. rewrite <- app_assoc. reflexivity.
Qed.

(** No answer to the block at [addr]: the error is the one of
    [_rawrecv], which names no address. *)
Lemma upload_blocks_no_answer (data : list Z) (done : list Z) (addr : Z)
      (todo : list Z) :
  Forall (block_ok data) done -> block_ok data addr ->
  forall (rest t : list (list Z)) (m : list Z),
    _upload_blocks data (done ++ addr :: todo)
      (mk_radio (repeat ACK_CMD (length done) ++ [] :: rest) t m)
    = (Err (RadioError "Error reading data from radio"),
       mk_radio rest (t ++ map (write_frame data) done ++ [write_frame data addr]) m).
Proof.
  intros Hdone [Ha Hl].
  induction Hdone as [|a0 done [Ha0 Hl0] _ IH]; intros rest t m.
  - cbn [_upload_blocks length repeat map app].
    rewrite (make_write_frame _ _ Ha Hl). unfold bind at 1. cbn [of_result ret].
    unfold bind at 1. rewrite send_logs. cbn [rx tx _mmap].
    unfold bind at 1. rewrite rawrecv_nothing. reflexivity.
  - cbn [_upload_blocks length repeat map app].
    rewrite (make_write_frame _ _ Ha0 Hl0). unfold bind at 1. cbn [of_result ret].
    unfold bind at 1. rewrite send_logs. cbn [rx tx _mmap].
    unfold bind at 1. unfold ACK_CMD at 1. rewrite rawrecv_one.
    cbn [length Nat.eqb negb]. fold ACK_CMD.
    rewrite bool_decide_eq_true_2 by reflexivity. cbn [negb].
    rewrite IH. rewrite <- app_assoc. reflexivity.
Qed.

Lemma block_addrs_write_size :
  block_addrs WRITE_SIZE = map (fun k => 16 * Z.of_nat k) (seq 0 24).
Proof. reflexivity. Qed.

Lemma block_addrs_ok (data : list Z) :
  (WRITE_SIZE <= length data)%nat ->
  Forall (block_ok data) (block_addrs WRITE_SIZE).
Proof.
  intros Hl. rewrite block_addrs_write_size. apply Forall_forall.
  intros a Ha. apply list_elem_of_In, in_map_iff in Ha.
  destruct Ha as (k & <- & Hk). apply in_seq in Hk.
  unfold block_ok, WRITE_SIZE in *. lia.
Qed.

(** Every answer an ACK: the upload writes, after the identification,
    the 24 write frames of the first 384 bytes of the image, in address
    order, then the close byte; what lies beyond 384 bytes in the image
    is not sent. *)
Lemma upload_all_acked (data : list Z) (rest t : list (list Z)) :
  (WRITE_SIZE <= length data)%nat ->
  _upload (mk_radio (ident_script ++ repeat ACK_CMD 24 ++ rest) t data)
  = (Ok tt,
     mk_radio rest
       (t ++ ident_sent ++ map (write_frame data) (block_addrs WRITE_SIZE) ++ [[98]])
       data)
  /\ length (map (write_frame data) (block_addrs WRITE_SIZE)) = 24%nat.
Proof.
  intros Hl. split; [|reflexivity].
  unfold _upload, ident_script.
  cbn [app].
  unfold bind at 1. rewrite do_ident_ok.
  unfold bind at 1. unfold get_mmap at 1. cbn [_mmap].
  unfold bind at 1. rewrite clean_buffer_nothing.
  unfold bind at 1.
  change 24%nat with (length (block_addrs WRITE_SIZE)).
  rewrite (upload_blocks_acked _ _ (block_addrs_ok data Hl)).
  rewrite send_logs. cbn [rx tx _mmap].
  rewrite <- !app_assoc. reflexivity.
Qed.

(** C2, at the failing input.  A device that answers the handshake and
    the identification and then does not answer the first write frame:
    [_upload] raises the error of [_rawrecv], whose message names no
    address; the frame of block 0 is the last thing written. *)
Theorem upload_silence_error_names_no_address :
  _upload radio_silent_after_ident
  = (Err (RadioError "Error reading data from radio"),
     mk_radio [] (ident_sent ++ [write_frame image_zero 0]) image_zero).
Proof. vm_compute. reflexivity. Qed.

(** ** Further evaluations *)

(** Setting an empty channel writes sixteen 0xFF bytes, and reading it
    back gives an empty channel. *)
Example empty_channel_roundtrip :
  let m := with_empty true (with_number 3 Memory_new) in
  let img := snd (set_memory chirp_TONES chirp_DTCS_CODES m image_zero) in
  take 16 (drop 48 img) = repeat 255 16 /\
  fst (get_memory chirp_TONES chirp_DTCS_CODES (Num 3) img) = Ok m.
Proof. vm_compute. split; reflexivity. Qed.

(** ** More on the clone protocol *)

(** *** Frames *)

Lemma addr_bytes (addr : Z) : addr / 256 * 256 + addr mod 256 = addr.
Proof. pose proof (Z.div_mod addr 256 ltac:(lia)). lia. Qed.

(** X1. A write frame built by [_make_frame] for a 16-bit address and
    16 bytes of data is 20 bytes long; the block check of [_recv]
    accepts it at that address and gives back the data, and rejects it
    at every other address. *)
Theorem make_frame_recv_block_roundtrip :
  forall (addr : Z) (data : list Z),
    0 <= addr <= 65535 ->
    length data = BLOCK_SIZE ->
    exists frame,
      _make_frame cmd_W addr data = Ok frame /\
      length frame = 20%nat /\
      _recv_block frame addr = Ok data /\
      forall addr', addr' <> addr ->
        exists msg, _recv_block frame addr' = Err (RadioError msg).
Proof.
  intros addr data Ha Hl. unfold BLOCK_SIZE in Hl.
  exists ([cmd_W; addr / 256; addr mod 256; 16] ++ data).
  assert (Hlen : length ([cmd_W; addr / 256; addr mod 256; 16] ++ data) = 20%nat)
    by (rewrite length_app, Hl; reflexivity).
  split.
  { unfold _make_frame. replace ((0 <=? addr) && (addr <=? 65535)) with true by lia.
    rewrite Hl. reflexivity. }
  split; [exact Hlen|].
  assert (Hcheck : forall a,
    _recv_block ([cmd_W; addr / 256; addr mod 256; 16] ++ data) a
    = if addr =? a then Ok data
      else Err (RadioError ("Invalid header for block 0x" ++ fmt_04x a ++ ":")%string)).
  { intros a. unfold _recv_block. rewrite Hlen. unfold BLOCK_SIZE.
    cbn [Nat.add Nat.ltb Nat.leb app firstn skipn].
    change (take 0 data) with (@nil Z). change (drop 0 data) with data.
    rewrite addr_bytes. change (Z.of_nat 16) with 16.
    rewrite !Z.eqb_refl. cbn [negb orb].
    destruct (addr =? a); reflexivity. }
  split.
  - rewrite Hcheck, Z.eqb_refl. reflexivity.
  - intros addr' Hne. rewrite Hcheck.
    replace (addr =? addr') with false by lia. eexists. reflexivity.
Qed.

Lemma make_frame_recv_block_roundtrip_witness :
  exists frame,
    _make_frame cmd_W 368 (repeat 9 16) = Ok frame /\
    length frame = 20%nat /\
    _recv_block frame 368 = Ok (repeat 9 16) /\
    forall addr', addr' <> 368 ->
      exists msg, _recv_block frame addr' = Err (RadioError msg).
Proof.
  apply (make_frame_recv_block_roundtrip 368 (repeat 9 16)).
  - lia.
  - reflexivity.
Defined.

(** *** Draining the line *)

Lemma clean_buffer_loop_outcome (fuel : nat) :
  forall (datacount : nat) (script t : list (list Z)) (m : list Z),
    (datacount <= 101)%nat -> (103 <= fuel + datacount)%nat ->
    ((datacount + pending script <= 101)%nat ->
     _clean_buffer_loop fuel datacount (mk_radio script t m)
     = (Ok tt, mk_radio (after_quiet script) t m))
    /\ ((101 < datacount + pending script)%nat ->
        exists r',
          _clean_buffer_loop fuel datacount (mk_radio script t m)
          = (Err (RadioError "Please check your serial port selection."), r')
          /\ tx r' = t /\ _mmap r' = m).
Proof.
  induction fuel as [|fuel IH]; intros dc script t m Hd Hf; [lia|].
  cbn [_clean_buffer_loop]. unfold bind, pipe_read. cbn [rx tx _mmap].
  destruct script as [|chunk rest].
  - cbn [length pending after_quiet]. rewrite Nat.add_0_r.
    replace (101 <? dc)%nat with false by (symmetry; apply Nat.ltb_ge; lia).
    cbn [Nat.ltb Nat.leb]. split; [reflexivity | lia].
  - destruct chunk as [|z zs].
    + cbn [firstn skipn length pending after_quiet]. rewrite Nat.add_0_r.
      replace (101 <? dc)%nat with false by (symmetry; apply Nat.ltb_ge; lia).
      cbn [Nat.ltb Nat.leb]. split; [reflexivity | lia].
    + set (chunk := z :: zs).
      assert (Htake : (1 <= length (take 100 chunk))%nat)
        by (rewrite length_take; cbn [length chunk]; lia).
      assert (Hsum : (length (take 100 chunk) + length (drop 100 chunk)
                      = length chunk)%nat)
        by (rewrite length_take, length_drop; lia).
      set (script' := match drop 100 chunk with
                      | [] => rest
                      | more => more :: rest
                      end).
      assert (Hp : (length (take 100 chunk) + pending script'
                    = pending (chunk :: rest))%nat).
      { unfold script'. cbn [pending chunk]. fold chunk.
        destruct (drop 100 chunk) as [|d ds] eqn:E.
        - cbn [length] in Hsum. lia.
        - cbn [pending]. lia. }
      assert (Ha : after_quiet script' = after_quiet (chunk :: rest)).
      { unfold script'. cbn [after_quiet chunk].
        destruct (drop 100 chunk); reflexivity. }
      fold script'.
      destruct (Nat.ltb_spec 101 (dc + length (take 100 chunk))) as [Hgt|Hle].
      * split; [lia|]. intros _. eexists. cbn [raise].
        split; [reflexivity|]. split; reflexivity.
      * replace (0 <? length (take 100 chunk))%nat with true
          by (symmetry; apply Nat.ltb_lt; lia).
        destruct (IH (dc + length (take 100 chunk))%nat script' t m) as [IH1 IH2];
          [lia | lia | ].
        rewrite <- Ha. split.
        -- intros H. apply IH1. lia.
        -- intros H. apply IH2. lia.
Qed.

(** X2. [_clean_buffer] succeeds exactly when at most 101 bytes are
    pending before the line goes quiet; it has then consumed those bytes
    and the read that timed out, and written nothing.  With more bytes
    pending it raises the RadioError of its handler, having written
    nothing either. *)
Theorem clean_buffer_outcome :
  forall (r : radio),
    ((pending (rx r) <= 101)%nat ->
     _clean_buffer r = (Ok tt, mk_radio (after_quiet (rx r)) (tx r) (_mmap r)))
    /\ ((101 < pending (rx r))%nat ->
        exists r',
          _clean_buffer r
          = (Err (RadioError "Unknown error cleaning the serial buffer"), r')
          /\ tx r' = tx r /\ _mmap r' = _mmap r).
Proof.
  intros [script t m]. cbn [rx tx _mmap].
  destruct (clean_buffer_loop_outcome 103 0 script t m) as [H1 H2]; [lia | lia |].
  unfold _clean_buffer, try_except. split.
  - intros H. rewrite H1 by exact H. reflexivity.
  - intros H. destruct (H2 H) as (r' & E & Ht & Hm). rewrite E.
    exists r'. split; [reflexivity|]. split; assumption.
Qed.

Lemma clean_buffer_outcome_witness :
  _clean_buffer (mk_radio [[1; 2; 3]; [4]; []; [5]] [] image_zero)
  = (Ok tt, mk_radio [[5]] [] image_zero).
Proof.
  apply (proj1 (clean_buffer_outcome (mk_radio [[1; 2; 3]; [4]; []; [5]] [] image_zero))).
  cbn. lia.
Defined.

(** *** What the handshake writes *)

Lemma rawrecv_cases (n : nat) (r : radio) :
  exists r',
    tx r' = tx r /\ _mmap r' = _mmap r /\
    ((exists data, data <> [] /\ _rawrecv n r = (Ok data, r'))
     \/ _rawrecv n r = (Err (RadioError "Error reading data from radio"), r')).
Proof.
  destruct r as [script t m].
  assert (H : forall k, exists r',
    tx r' = t /\ _mmap r' = m /\
    ((exists data, data <> [] /\
        try_except
          (data <- pipe_read k ;;
           if (length data =? 0)%nat
           then raise (RadioError "No data received from radio")
           else ret data)
          (fun _ => raise (RadioError "Error reading data from radio"))
          (mk_radio script t m) = (Ok data, r'))
     \/ try_except
          (data <- pipe_read k ;;
           if (length data =? 0)%nat
           then raise (RadioError "No data received from radio")
           else ret data)
          (fun _ => raise (RadioError "Error reading data from radio"))
          (mk_radio script t m)
        = (Err (RadioError "Error reading data from radio"), r'))).
  { intros k. unfold try_except, bind, pipe_read. cbn [rx tx _mmap].
    destruct script as [|chunk rest].
    - eexists. split; [|split]; [| |right; reflexivity]; reflexivity.
    - destruct (take k chunk) as [|d ds] eqn:E.
      + eexists. split; [|split]; [| |right; reflexivity]; reflexivity.
      + eexists. split; [|split]; [| |left; exists (d :: ds); split;
          [discriminate | reflexivity]]; reflexivity. }
  unfold _rawrecv. destruct (n =? 0)%nat; apply H.
Qed.

Lemma start_clone_attempts_sends (attempts : list nat) :
  forall (r r' : radio) (res : result bool),
    _start_clone_attempts attempts r = (res, r') ->
    exists k : nat,
      (k <= length attempts)%nat
      /\ tx r' = tx r ++ repeat BFT1_magic k
      /\ _mmap r' = _mmap r
      /\ (res = Ok true -> (1 <= k)%nat)
      /\ (res = Ok false -> k = length attempts)
      /\ (forall e, res = Err e -> e = RadioError "Error reading data from radio").
Proof.
  induction attempts as [|a attempts IH]; intros r r' res Hrun.
  - inversion Hrun; subst. exists 0%nat. cbn. rewrite app_nil_r.
    repeat split; try reflexivity; try discriminate; try lia.
  - cbn [_start_clone_attempts] in Hrun. unfold bind at 1 in Hrun.
    rewrite send_logs in Hrun.
    set (r1 := mk_radio (rx r) (tx r ++ [BFT1_magic]) (_mmap r)) in Hrun.
    destruct (rawrecv_cases 1 r1) as (r2 & Ht & Hm & [(data & Hd & E) | E]);
      unfold bind in Hrun; rewrite E in Hrun.
    + destruct (decide (data = ACK_CMD)) as [->|Hne].
      * inversion Hrun; subst. exists 1%nat. cbn [length repeat]. rewrite Ht, Hm.
        repeat split; try reflexivity; try discriminate; lia.
      * destruct (IH _ _ _ Hrun) as (k & Hk & Htx & Hmm & Ht1 & Hf1 & He1).
        exists (S k). rewrite Htx, Hmm, Ht, Hm. cbn [tx _mmap r1 length repeat].
        rewrite <- app_assoc. cbn [app].
        repeat split; try reflexivity; try lia.
        -- intros H. rewrite (Hf1 H). reflexivity.
        -- exact He1.
    + inversion Hrun; subst. exists 1%nat. cbn [length repeat]. rewrite Ht, Hm.
      repeat split; try reflexivity; try discriminate; try lia.
      intros e H. inversion H. reflexivity.
Qed.

Lemma clean_buffer_cases (r : radio) :
  _clean_buffer r = (Ok tt, mk_radio (after_quiet (rx r)) (tx r) (_mmap r))
  \/ exists r',
       _clean_buffer r
       = (Err (RadioError "Unknown error cleaning the serial buffer"), r')
       /\ tx r' = tx r /\ _mmap r' = _mmap r.
Proof.
  destruct r as [script t m]. cbn [rx tx _mmap].
  destruct (clean_buffer_loop_outcome 103 0 script t m) as [H1 H2]; [lia | lia |].
  unfold _clean_buffer, try_except.
  destruct (Nat.le_gt_cases (pending script) 101) as [H|H]; [left | right].
  - rewrite H1 by exact H. reflexivity.
  - destruct (H2 H) as (r' & E & Ht & Hm). rewrite E.
    exists r'. split; [reflexivity|]. split; assumption.
Qed.

Lemma start_clone_mode_sends (r r' : radio) (res : result bool) :
  _start_clone_mode r = (res, r') ->
  exists k : nat,
    (k <= 3)%nat
    /\ tx r' = tx r ++ repeat BFT1_magic k
    /\ _mmap r' = _mmap r
    /\ (res = Ok true -> (1 <= k)%nat)
    /\ (res = Ok false -> k = 3%nat)
    /\ (forall e, res = Err e -> exists msg, e = RadioError msg).
Proof.
  intros Hrun. unfold _start_clone_mode, bind in Hrun.
  destruct (clean_buffer_cases r) as [E | (r1 & E & Ht & Hm)]; rewrite E in Hrun.
  - set (r1 := mk_radio (after_quiet (rx r)) (tx r) (_mmap r)) in Hrun.
    unfold try_except in Hrun.
    destruct (_start_clone_attempts (seq 0 3) r1) as [[b|e] r2] eqn:Er.
    + inversion Hrun; subst.
      destruct (start_clone_attempts_sends _ _ _ _ Er)
        as (k & Hk & Htx & Hmm & Ht1 & Hf1 & He1).
      exists k. repeat split; auto. discriminate.
    + destruct (start_clone_attempts_sends _ _ _ _ Er)
        as (k & Hk & Htx & Hmm & Ht1 & Hf1 & He1).
      rewrite (He1 e eq_refl) in Hrun. inversion Hrun; subst.
      exists k. repeat split; auto; try discriminate.
      intros e' H. inversion H. eexists. reflexivity.
  - inversion Hrun; subst. exists 0%nat. cbn [repeat]. rewrite app_nil_r.
    repeat split; auto; try discriminate; try lia.
    intros e H. inversion H. eexists. reflexivity.
Qed.

(** X3. Whatever the device does, [_start_clone_mode] writes nothing but
    the magic, at most three times, and leaves the memory map alone; it
    returns true only after at least one magic, false only after three,
    and every exception it raises is a RadioError. *)
Theorem start_clone_mode_writes_only_magic :
  forall (r r' : radio) (res : result bool),
    _start_clone_mode r = (res, r') ->
    exists k : nat,
      (k <= 3)%nat
      /\ tx r' = tx r ++ repeat BFT1_magic k
      /\ _mmap r' = _mmap r
      /\ (res = Ok true -> (1 <= k)%nat)
      /\ (res = Ok false -> k = 3%nat)
      /\ (forall e, res = Err e -> exists msg, e = RadioError msg).
Proof. intros r r' res. apply start_clone_mode_sends. Qed.

Lemma start_clone_mode_writes_only_magic_witness :
  exists k : nat,
    (k <= 3)%nat
    /\ tx (mk_radio [[9]] [BFT1_magic; BFT1_magic] image_zero)
       = tx (mk_radio [[]; [1]; ACK_CMD; [9]] [] image_zero) ++ repeat BFT1_magic k
    /\ _mmap (mk_radio [[9]] [BFT1_magic; BFT1_magic] image_zero) = image_zero
    /\ (Ok true = Ok true -> (1 <= k)%nat)
    /\ (Ok true = Ok false -> k = 3%nat)
    /\ (forall e, Ok true = Err e -> exists msg, e = RadioError msg).
Proof.
  apply (start_clone_mode_writes_only_magic
           (mk_radio [[]; [1]; ACK_CMD; [9]] [] image_zero)
           (mk_radio [[9]] [BFT1_magic; BFT1_magic] image_zero) (Ok true)).
  reflexivity.
Defined.

(** *** Identification *)

Lemma rawrecv_preserves (n : nat) (r r' : radio) (res : result (list Z)) :
  _rawrecv n r = (res, r') -> tx r' = tx r /\ _mmap r' = _mmap r.
Proof.
  intros H. destruct (rawrecv_cases n r) as (r2 & Ht & Hm & [(d & _ & E) | E]);
    rewrite E in H; inversion H; subst; split; assumption.
Qed.

(** X4. When [_do_ident] returns, it returns true, and what it wrote is
    the magic one to three times, then the request byte 0x02, then ACK,
    in this order and nothing else; the memory map is as it was. *)
Theorem do_ident_success_writes :
  forall (r r' : radio) (b : bool),
    _do_ident r = (Ok b, r') ->
    b = true /\
    exists k : nat,
      (1 <= k <= 3)%nat
      /\ tx r' = tx r ++ repeat BFT1_magic k ++ [[2]; ACK_CMD]
      /\ _mmap r' = _mmap r.
Proof.
  intros r r' b Hrun. unfold _do_ident in Hrun.
  apply bind_inv in Hrun. destruct Hrun as (ok & r1 & H1 & Hrun).
  destruct (start_clone_mode_sends _ _ _ H1)
    as (k & Hk & Htx & Hmm & Ht1 & _ & _).
  destruct ok; cbn [negb] in Hrun; [|discriminate].
  specialize (Ht1 eq_refl).
  apply bind_inv in Hrun. destruct Hrun as ([] & r2 & H2 & Hrun).
  rewrite send_logs in H2. inversion H2; subst r2; clear H2.
  apply bind_inv in Hrun. destruct Hrun as (ident & r3 & H3 & Hrun).
  destruct (rawrecv_preserves _ _ _ _ H3) as [Ht3 Hm3]. cbn [tx _mmap] in Ht3, Hm3.
  destruct (negb (length ident =? length BFT1_ident)%nat); [discriminate|].
  destruct (negb (bool_decide (ident = BFT1_ident))); [discriminate|].
  apply bind_inv in Hrun. destruct Hrun as ([] & r4 & H4 & Hrun).
  rewrite send_logs in H4. inversion H4; subst r4; clear H4.
  apply bind_inv in Hrun. destruct Hrun as (ack & r5 & H5 & Hrun).
  destruct (rawrecv_preserves _ _ _ _ H5) as [Ht5 Hm5]. cbn [tx _mmap] in Ht5, Hm5.
  destruct ((length ack =? 1)%nat && bool_decide (ack = ACK_CMD)); [|discriminate].
  inversion Hrun; subst. split; [reflexivity|].
  exists k. split; [lia|]. split.
  - rewrite Ht5, Ht3, Htx. rewrite <- !app_assoc. reflexivity.
  - rewrite Hm5, Hm3, Hmm. reflexivity.
Qed.

Lemma do_ident_success_writes_witness :
  true = true /\
  exists k : nat,
    (1 <= k <= 3)%nat
    /\ tx (mk_radio [] ident_sent image_zero)
       = tx (mk_radio [[]; ACK_CMD; BFT1_ident; ACK_CMD] [] image_zero)
         ++ repeat BFT1_magic k ++ [[2]; ACK_CMD]
    /\ _mmap (mk_radio [] ident_sent image_zero) = image_zero.
Proof.
  apply (do_ident_success_writes
           (mk_radio [[]; ACK_CMD; BFT1_ident; ACK_CMD] [] image_zero)
           (mk_radio [] ident_sent image_zero) true).
  reflexivity.
Defined.

Lemma rawrecv_chunk (n : nat) (chunk : list Z) (rest t : list (list Z)) (m : list Z) :
  chunk <> [] -> (length chunk <= n)%nat ->
  _rawrecv n (mk_radio (chunk :: rest) t m) = (Ok chunk, mk_radio rest t m).
Proof.
  intros Hne Hl. unfold _rawrecv.
  assert (Hn : (n =? 0)%nat = false).
  { apply Nat.eqb_neq. destruct chunk; [contradiction | cbn [length] in Hl; lia]. }
  rewrite Hn. unfold try_except, bind, pipe_read. cbn [rx tx _mmap].
  rewrite take_ge by exact Hl. rewrite drop_ge by exact Hl.
  destruct chunk; [contradiction | reflexivity].
Qed.

(** X5. A device that acknowledges the magic and then identifies as
    anything but the expected model is refused with a RadioError, and
    after the request byte nothing more is written to it: no ACK is sent
    to a device that is not identified. *)
Theorem do_ident_refuses_other_model :
  forall (ident : list Z) (rest t : list (list Z)) (m : list Z),
    ident <> [] ->
    (length ident <= length BFT1_ident)%nat ->
    ident <> BFT1_ident ->
    _do_ident (mk_radio ([] :: ACK_CMD :: ident :: rest) t m)
    = (Err (RadioError (if (length ident =? length BFT1_ident)%nat
                        then "Radio identification failed."
                        else "Radio send a odd identification block.")),
       mk_radio rest (t ++ [BFT1_magic; [2]]) m).
Proof.
  intros ident rest t m Hne Hl Hd. unfold _do_ident.
  unfold bind at 1. rewrite start_clone_mode_ack_first. cbn [negb].
  unfold bind at 1. rewrite send_logs. cbn [rx tx _mmap].
  unfold bind at 1. rewrite (rawrecv_chunk _ _ _ _ _ Hne Hl).
  rewrite <- app_assoc. cbn [app].
  destruct (length ident =? length BFT1_ident)%nat; cbn [negb]; [|reflexivity].
  rewrite bool_decide_eq_false_2 by exact Hd. reflexivity.
Qed.

Lemma do_ident_refuses_other_model_witness :
  _do_ident (mk_radio [[]; ACK_CMD; [32; 66; 70; 56; 56; 56; 83; 32]; [7]] [] image_zero)
  = (Err (RadioError "Radio identification failed."),
     mk_radio [[7]] [BFT1_magic; [2]] image_zero).
Proof.
  apply (do_ident_refuses_other_model [32; 66; 70; 56; 56; 56; 83; 32] [[7]] [] image_zero).
  - discriminate.
  - cbn. lia.
  - discriminate.
Defined.

(** *** Downloading *)

Lemma recv_block_device_block (addr : Z) (payload : list Z) :
  length payload = BLOCK_SIZE ->
  _recv_block (device_block addr payload) addr = Ok payload.
Proof.
  intros Hl. unfold BLOCK_SIZE in Hl. unfold _recv_block, device_block.
  rewrite length_app, Hl. unfold BLOCK_SIZE.
  cbn [length Nat.add Nat.ltb Nat.leb app firstn skipn].
  change (take 0 payload) with (@nil Z). change (drop 0 payload) with payload.
  rewrite addr_bytes. change (Z.of_nat 16) with 16.
  rewrite !Z.eqb_refl. reflexivity.
Qed.

Lemma make_read_frame (addr : Z) :
  0 <= addr <= 65535 -> _make_frame cmd_R addr [] = Ok (read_frame addr).
Proof.
  intros Ha. unfold _make_frame.
  replace ((0 <=? addr) && (addr <=? 65535)) with true by lia. reflexivity.
Qed.

Lemma recv_chunk (addr : Z) (chunk : list Z) (rest t : list (list Z)) (m : list Z) :
  chunk <> [] -> (length chunk <= 20)%nat ->
  _recv addr (mk_radio (chunk :: rest) t m)
  = of_result (_recv_block chunk addr) (mk_radio rest t m).
Proof.
  intros Hne Hl. unfold _recv, bind.
  rewrite (rawrecv_chunk _ _ _ _ _ Hne) by exact Hl. reflexivity.
Qed.

Lemma download_blocks_ok (addrs : list Z) (payloads : list (list Z)) :
  Forall2 (fun a p => 0 <= a <= 65535 /\ length p = BLOCK_SIZE) addrs payloads ->
  forall (data : list Z) (rest t : list (list Z)) (m : list Z),
    _download_blocks addrs data
      (mk_radio (zip_with device_block addrs payloads ++ rest) t m)
    = (Ok (data ++ concat payloads), mk_radio rest (t ++ map read_frame addrs) m).
Proof.
  induction 1 as [|a p addrs payloads [Ha Hp] _ IH]; intros data rest t m.
  - cbn. rewrite !app_nil_r. reflexivity.
  - cbn [_download_blocks zip_with app map concat].
    rewrite (make_read_frame _ Ha). unfold bind at 1. cbn [of_result ret].
    unfold bind at 1. rewrite send_logs. cbn [rx tx _mmap].
    unfold bind at 1. rewrite recv_chunk.
    + rewrite (recv_block_device_block _ _ Hp). cbn [of_result ret].
      rewrite IH. rewrite <- !app_assoc. reflexivity.
    + discriminate.
    + unfold device_block. rewrite length_app, Hp. unfold BLOCK_SIZE. cbn [length]. lia.
Qed.

Lemma block_addrs_mem_size :
  block_addrs MEM_SIZE = map (fun k => 16 * Z.of_nat k) (seq 0 128).
Proof. reflexivity. Qed.

Lemma block_addrs_payloads (n : nat) (addrs : list Z) (payloads : list (list Z)) :
  addrs = map (fun k => 16 * Z.of_nat k) (seq 0 n) ->
  (n <= 4096)%nat ->
  length payloads = n ->
  Forall (fun p => length p = BLOCK_SIZE) payloads ->
  Forall2 (fun a p => 0 <= a <= 65535 /\ length p = BLOCK_SIZE) addrs payloads.
Proof.
  intros -> Hn Hl Hp. apply Forall2_same_length_lookup. split.
  - rewrite length_map, length_seq. symmetry. exact Hl.
  - intros i a p Ha Hpi. rewrite list_lookup_fmap in Ha.
    destruct (seq 0 n !! i) as [k|] eqn:E; [|discriminate].
    apply lookup_seq in E. destruct E as [-> Hi]. inversion Ha; subst a.
    split; [lia|]. rewrite Forall_forall in Hp. apply Hp.
    apply list_elem_of_lookup. exists i. exact Hpi.
Qed.

Lemma length_concat_blocks (payloads : list (list Z)) :
  Forall (fun p => length p = BLOCK_SIZE) payloads ->
  length (concat payloads) = (BLOCK_SIZE * length payloads)%nat.
Proof.
  induction 1 as [|p ps Hp _ IH]; [reflexivity|].
  cbn [concat length]. rewrite length_app, Hp, IH. lia.
Qed.

(** X6. End-to-end download.  From a device that answers the handshake
    and the identification and then each of the 128 read requests with
    a well-formed block for the requested address, [_download] returns
    the 128 payloads concatenated in address order, 2048 bytes; it has
    written the identification bytes, the 128 read requests in address
    order and the close byte, and nothing else. *)
Theorem download_assembles_image :
  forall (payloads : list (list Z)) (rest t : list (list Z)) (m : list Z),
    length payloads = 128%nat ->
    Forall (fun p => length p = BLOCK_SIZE) payloads ->
    _download
      (mk_radio (ident_script
                   ++ zip_with device_block (block_addrs MEM_SIZE) payloads ++ rest)
                t m)
    = (Ok (concat payloads),
       mk_radio rest
         (t ++ ident_sent ++ map read_frame (block_addrs MEM_SIZE) ++ [[98]]) m)
    /\ length (concat payloads) = MEM_SIZE.
Proof.
  intros payloads rest t m Hl Hp. split.
  - unfold _download, ident_script. cbn [app].
    unfold bind at 1. rewrite do_ident_ok.
    unfold bind at 1. rewrite clean_buffer_nothing.
    unfold bind at 1.
    rewrite (download_blocks_ok _ _
               (block_addrs_payloads 128 _ _ block_addrs_mem_size ltac:(lia) Hl Hp)).
    cbn [app]. unfold bind at 1. rewrite send_logs. cbn [rx tx _mmap ret].
    rewrite <- !app_assoc. reflexivity.
  - rewrite (length_concat_blocks _ Hp), Hl. reflexivity.
Qed.

Lemma download_assembles_image_witness :
  _download
    (mk_radio (ident_script
                 ++ zip_with device_block (block_addrs MEM_SIZE) (repeat (repeat 7 16) 128)
                 ++ [])
              [] image_zero)
  = (Ok (concat (repeat (repeat 7 16) 128)),
     mk_radio []
       ([] ++ ident_sent ++ map read_frame (block_addrs MEM_SIZE) ++ [[98]]) image_zero)
  /\ length (concat (repeat (repeat 7 16) 128)) = MEM_SIZE.
Proof.
  apply (download_assembles_image (repeat (repeat 7 16) 128) [] [] image_zero).
  - reflexivity.
  - apply Forall_forall. intros p Hp. apply list_elem_of_In, repeat_spec in Hp.
    subst p. reflexivity.
Defined.

(** X7. A download stops at the first block that fails the check of
    [_recv]: with the blocks before [addr] well formed and the answer
    for [addr] rejected by the check, [_download]'s loop raises the
    error of the check (which names [addr]) and writes no read request
    after the one for [addr]. *)
Theorem download_stops_at_bad_block :
  forall (done : list Z) (payloads : list (list Z)) (addr : Z) (todo : list Z)
         (bad : list Z) (e : error) (data : list Z) (rest t : list (list Z))
         (m : list Z),
    Forall2 (fun a p => 0 <= a <= 65535 /\ length p = BLOCK_SIZE) done payloads ->
    0 <= addr <= 65535 ->
    bad <> [] -> (length bad <= 20)%nat ->
    _recv_block bad addr = Err e ->
    _download_blocks (done ++ addr :: todo) data
      (mk_radio (zip_with device_block done payloads ++ bad :: rest) t m)
    = (Err e, mk_radio rest (t ++ map read_frame done ++ [read_frame addr]) m).
Proof.
  intros done payloads addr todo bad e data rest t m Hdone Ha Hne Hl Hbad.
  revert data rest t m.
  induction Hdone as [|a p done payloads [Ha0 Hp] _ IH]; intros data rest t m.
  - cbn [_download_blocks zip_with app map].
    rewrite (make_read_frame _ Ha). unfold bind at 1. cbn [of_result ret].
    unfold bind at 1. rewrite send_logs. cbn [rx tx _mmap].
    unfold bind at 1. rewrite (recv_chunk _ _ _ _ _ Hne Hl), Hbad. reflexivity.
  - cbn [_download_blocks zip_with app map].
    rewrite (make_read_frame _ Ha0). unfold bind at 1. cbn [of_result ret].
    unfold bind at 1. rewrite send_logs. cbn [rx tx _mmap].
    unfold bind at 1. rewrite recv_chunk.
    + rewrite (recv_block_device_block _ _ Hp). cbn [of_result ret].
      rewrite IH. rewrite <- !app_assoc. reflexivity.
    + discriminate.
    + unfold device_block. rewrite length_app, Hp. unfold BLOCK_SIZE. cbn [length]. lia.
Qed.

Lemma download_stops_at_bad_block_witness :
  _download_blocks ([0] ++ 16 :: [32]) []
    (mk_radio (zip_with device_block [0] [repeat 7 16]
                 ++ device_block 32 (repeat 7 16) :: [[1]]) [] image_zero)
  = (Err (RadioError "Invalid header for block 0x0010:"),
     mk_radio [[1]] ([] ++ map read_frame [0] ++ [read_frame 16]) image_zero).
Proof.
  apply (download_stops_at_bad_block [0] [repeat 7 16] 16 [32]
           (device_block 32 (repeat 7 16))
           (RadioError "Invalid header for block 0x0010:") [] [[1]] [] image_zero).
  - repeat constructor; cbn; lia.
  - lia.
  - discriminate.
  - cbn. lia.
  - reflexivity.
Defined.

(** *** An upload after a download *)

Lemma concat_block (ps : list (list Z)) :
  Forall (fun p => length p = BLOCK_SIZE) ps ->
  forall (k : nat) (p : list Z),
    ps !! k = Some p ->
    take BLOCK_SIZE (drop (BLOCK_SIZE * k) (concat ps)) = p.
Proof.
  induction 1 as [|q ps Hq _ IH]; intros k p Hk; [discriminate|].
  destruct k as [|k]; cbn [concat].
  - inversion Hk; subst q. rewrite Nat.mul_0_r. cbn [drop].
    rewrite <- Hq. apply take_app_length.
  - cbn [lookup list_lookup] in Hk.
    rewrite drop_app_ge by (rewrite Hq; lia).
    replace (BLOCK_SIZE * S k - length q)%nat with (BLOCK_SIZE * k)%nat
      by (rewrite Hq; lia).
    apply IH, Hk.
Qed.

Lemma write_frames_are_device_blocks (payloads : list (list Z)) :
  length payloads = 128%nat ->
  Forall (fun p => length p = BLOCK_SIZE) payloads ->
  map (write_frame (concat payloads)) (block_addrs WRITE_SIZE)
  = take 24 (zip_with device_block (block_addrs MEM_SIZE) payloads).
Proof.
  intros Hl Hp. rewrite block_addrs_write_size, block_addrs_mem_size.
  apply list_eq. intros i. rewrite lookup_take.
  destruct (decide (i < 24)%nat) as [Hi|Hi].
  - rewrite lookup_zip_with, !list_lookup_fmap.
    rewrite !lookup_seq_lt by lia. cbn [fmap option_fmap option_map mbind option_bind Nat.add].
    destruct (payloads !! i) as [p|] eqn:E.
    + cbn [mbind option_bind]. f_equal. unfold write_frame, device_block. f_equal.
      replace (Z.to_nat (16 * Z.of_nat i)) with (BLOCK_SIZE * i)%nat
        by (unfold BLOCK_SIZE; lia).
      apply concat_block; assumption.
    + apply lookup_ge_None in E. lia.
  - apply lookup_ge_None. rewrite !length_map, length_seq. lia.
Qed.

(** X8. An image that was assembled from the 128 blocks of a download
    is uploaded as the first 24 of those blocks: to a device that
    acknowledges everything, [_upload] writes the identification bytes,
    then, byte for byte, the first 24 blocks as the device had sent
    them, then the close byte; the blocks from 0x0180 on are never sent
    back. *)
Theorem upload_resends_downloaded_blocks :
  forall (payloads : list (list Z)) (rest t : list (list Z)),
    length payloads = 128%nat ->
    Forall (fun p => length p = BLOCK_SIZE) payloads ->
    _upload (mk_radio (ident_script ++ repeat ACK_CMD 24 ++ rest) t (concat payloads))
    = (Ok tt,
       mk_radio rest
         (t ++ ident_sent
            ++ take 24 (zip_with device_block (block_addrs MEM_SIZE) payloads)
            ++ [[98]])
         (concat payloads)).
Proof.
  intros payloads rest t Hl Hp.
  rewrite <- (write_frames_are_device_blocks _ Hl Hp).
  apply upload_all_acked.
  rewrite (length_concat_blocks _ Hp), Hl. unfold WRITE_SIZE, BLOCK_SIZE. lia.
Qed.

Lemma upload_resends_downloaded_blocks_witness :
  _upload (mk_radio (ident_script ++ repeat ACK_CMD 24 ++ [])
                    [] (concat (repeat (repeat 7 16) 128)))
  = (Ok tt,
     mk_radio []
       ([] ++ ident_sent
           ++ take 24 (zip_with device_block (block_addrs MEM_SIZE)
                                (repeat (repeat 7 16) 128))
           ++ [[98]])
       (concat (repeat (repeat 7 16) 128))).
Proof.
  apply (upload_resends_downloaded_blocks (repeat (repeat 7 16) 128) [] []).
  - reflexivity.
  - apply Forall_forall. intros p Hp. apply list_elem_of_In, repeat_spec in Hp.
    subst p. reflexivity.
Defined.

(** ** More on the channel codec *)

(** *** The record a selector stands for *)

Lemma py_getitem_seq (n : nat) (i : Z) (k : nat) :
  py_getitem (seq 0 n) i = Some k -> (k < n)%nat.
Proof.
  unfold py_getitem. rewrite length_seq.
  destruct ((0 <=? i) && (i <? Z.of_nat n)); [|destruct ((- Z.of_nat n <=? i) && (i <? 0))];
    try discriminate; intros H; apply lookup_seq in H; lia.
Qed.

Lemma get_special_aligned (sel : selector) (c : nat) :
  _get_special sel = Ok (Some c) ->
  exists k : nat, c = (channel.size * k)%nat.
Proof.
  destruct sel as [n|s]; unfold _get_special.
  - destruct (n <? 0).
    + cbn [find SPECIALS snd fst].
      destruct (n =? -2); [|destruct (n =? -1)]; cbn; intros H; inversion H.
      * exists 0%nat. reflexivity.
      * exists 23%nat. reflexivity.
    + destruct (py_getitem (seq 0 memobj.nchannels) (n - 1)) as [i|] eqn:E; [|discriminate].
      intros H; inversion H. exists (S i). unfold memobj.channels, channel.size. lia.
  - unfold memobj_getattr.
    destruct (decide (lower s = "emg")); [|destruct (decide (lower s = "channels"));
      [|destruct (decide (lower s = "settings")); [|destruct (decide (lower s = "rly"))]]];
      intros H; inversion H.
    + exists 0%nat. reflexivity.
    + exists 1%nat. reflexivity.
    + exists 21%nat. reflexivity.
    + exists 23%nat. reflexivity.
Qed.

Lemma get_special_record (n : Z) (c : nat) :
  _get_special (Num n) = Ok (Some c) ->
  exists k : nat, c = (channel.size * k)%nat /\ ((k <= 20)%nat \/ k = 23%nat).
Proof.
  unfold _get_special.
  destruct (n <? 0).
  - cbn [find SPECIALS snd fst].
    destruct (n =? -2); [|destruct (n =? -1)]; cbn; intros H; inversion H.
    + exists 0%nat. split; [reflexivity | lia].
    + exists 23%nat. split; [reflexivity | lia].
  - destruct (py_getitem (seq 0 memobj.nchannels) (n - 1)) as [i|] eqn:E; [|discriminate].
    apply py_getitem_seq in E. unfold memobj.nchannels in E.
    intros H; inversion H. exists (S i). unfold memobj.channels, channel.size.
    split; lia.
Qed.

(** The names that stand for a channel record are those of SPECIALS. *)
Lemma get_special_name_record (s : string) (c : nat) :
  dict_get SPECIALS s <> None ->
  _get_special (Name s) = Ok (Some c) ->
  exists k : nat, c = (channel.size * k)%nat /\ ((k <= 20)%nat \/ k = 23%nat).
Proof.
  intros Hd. unfold SPECIALS in Hd. cbn [dict_get] in Hd.
  destruct (decide (s = "EMG")) as [->|]; [|destruct (decide (s = "RLY")) as [->|]];
    [| |contradiction]; intros H; inversion H.
  - exists 0%nat. split; [reflexivity | lia].
  - exists 23%nat. split; [reflexivity | lia].
Qed.

(** X9. What a channel number stands for.  1..20 are the records at
    16 * n; 0 reaches, through Python's negative index, the record of
    channel 20; -2 and -1 are the emergency and relay records; any other
    negative number gives None and a number above 20 raises
    IndexError. *)
Theorem get_special_resolution :
  forall n : Z,
    _get_special (Num n)
    = if (1 <=? n) && (n <=? 20) then Ok (Some (channel.size * Z.to_nat n)%nat)
      else if n =? 0 then Ok (Some (channel.size * 20)%nat)
      else if n =? -2 then Ok (Some memobj.emg)
      else if n =? -1 then Ok (Some memobj.rly)
      else if n <? 0 then Ok None
      else Err (PyError "IndexError").
Proof.
  intros n.
  destruct ((1 <=? n) && (n <=? 20)) eqn:E1.
  - assert (Hk : exists k : nat, (k < 20)%nat /\ n = Z.of_nat k + 1).
    { exists (Z.to_nat (n - 1)). lia. }
    destruct Hk as (k & Hk & ->).
    do 20 (destruct k as [|k]; [ reflexivity | ]). lia.
  - destruct (Z.eqb_spec n 0) as [->|H0]; [reflexivity|].
    destruct (Z.eqb_spec n (-2)) as [->|H2]; [reflexivity|].
    destruct (Z.eqb_spec n (-1)) as [->|H1]; [reflexivity|].
    unfold _get_special. destruct (Z.ltb_spec n 0) as [Hn|Hn].
    + cbn [find SPECIALS snd fst].
      replace (n =? -2) with false by lia. replace (n =? -1) with false by lia.
      reflexivity.
    + unfold py_getitem. rewrite length_seq. unfold memobj.nchannels.
      change (Z.of_nat 20) with 20.
      replace ((0 <=? n - 1) && (n - 1 <? 20)) with false by lia.
      replace ((Z.opp 20 <=? n - 1) && (n - 1 <? 0)) with false by lia.
      reflexivity.
Qed.

(** X10. Every channel the driver advertises is a record that an
    upload sends: a number within [memory_bounds] and a name of
    [valid_special_chans] stand for a 16-byte record that lies below
    WRITE_SIZE, and a special channel is the same record by its name and
    by the number SPECIALS gives it. *)
Theorem advertised_channels_are_uploaded_records :
  forall (DTCS_CODES : list Z) (vhf uhf : Z * Z),
    let rf := get_features DTCS_CODES vhf uhf in
    (forall n : Z,
        fst (memory_bounds rf) <= n <= snd (memory_bounds rf) ->
        exists c : nat,
          _get_special (Num n) = Ok (Some c) /\ (c + channel.size <= WRITE_SIZE)%nat)
    /\ (forall s : string,
           s ∈ valid_special_chans rf ->
           exists (c : nat) (n : Z),
             dict_get SPECIALS s = Some n /\
             _get_special (Name s) = Ok (Some c) /\
             _get_special (Num n) = Ok (Some c) /\
             (c + channel.size <= WRITE_SIZE)%nat).
Proof.
  intros DTCS_CODES vhf uhf rf. split.
  - cbn [rf get_features memory_bounds fst snd]. unfold _upper. intros n Hn.
    exists (channel_base n). split.
    + apply get_special_valid_number. unfold valid_number. lia.
    + unfold channel_base, memobj.channels, channel.size, WRITE_SIZE.
      replace (n =? -2) with false by lia. replace (n =? -1) with false by lia. lia.
  - cbn [rf get_features valid_special_chans SPECIALS map fst]. intros s Hs.
    apply elem_of_cons in Hs. destruct Hs as [->|Hs].
    + exists memobj.emg, (-2). repeat split. unfold memobj.emg, channel.size, WRITE_SIZE. lia.
    + apply elem_of_cons in Hs. destruct Hs as [->|Hs].
      * exists memobj.rly, (-1). repeat split.
        unfold memobj.rly, channel.size, WRITE_SIZE. lia.
      * apply elem_of_nil in Hs. contradiction.
Qed.

Lemma advertised_channels_are_uploaded_records_witness :
  exists c : nat,
    _get_special (Num 20) = Ok (Some c) /\ (c + channel.size <= WRITE_SIZE)%nat.
Proof.
  apply (proj1 (advertised_channels_are_uploaded_records
                  chirp_DTCS_CODES (130000000, 174000000) (400000000, 520000000)) 20).
  cbn. unfold _upper. lia.
Defined.

(** ** Computations that read inside a region *)

Lemma reads_within_ret {A : Type} (P : nat -> Prop) (a : A) :
  reads_within P (ret a).
Proof. intros img img' _. reflexivity. Qed.

Lemma reads_within_raise {A : Type} (P : nat -> Prop) (e : error) :
  reads_within (A := A) P (raise e).
Proof. intros img img' _. reflexivity. Qed.

Lemma reads_within_of_option {A : Type} (P : nat -> Prop) (o : option A) (e : error) :
  reads_within P (of_option o e).
Proof. destruct o; [apply reads_within_ret | apply reads_within_raise]. Qed.

Lemma reads_within_of_result {A : Type} (P : nat -> Prop) (r : result A) :
  reads_within P (of_result r).
Proof. destruct r; [apply reads_within_ret | apply reads_within_raise]. Qed.

Lemma reads_within_bind {A B : Type} (P : nat -> Prop)
      (c : M (list Z) A) (k : A -> M (list Z) B) :
  read_only c -> reads_within P c -> (forall a, reads_within P (k a)) ->
  reads_within P (bind c k).
Proof.
  intros Hro Hc Hk img img' Hag. unfold bind.
  pose proof (Hro img) as E. pose proof (Hro img') as E'.
  pose proof (Hc img img' Hag) as Er.
  destruct (c img) as [r s]. destruct (c img') as [r' s'].
  cbn [fst snd] in *. subst s s' r'.
  destruct r as [a|e]; [apply Hk, Hag | reflexivity].
Qed.

Lemma reads_within_get_byte (P : nat -> Prop) (off : nat) :
  P off -> reads_within P (get_byte off).
Proof.
  intros HP img img' Hag. unfold get_byte. rewrite (Hag off HP).
  destruct (img' !! off); reflexivity.
Qed.

Lemma reads_within_u8_get (P : nat -> Prop) (off : nat) :
  P off -> reads_within P (u8_get off).
Proof. apply reads_within_get_byte. Qed.

Lemma reads_within_bits_get (P : nat -> Prop) (off : nat) (shift nbits : Z) :
  P off -> reads_within P (bits_get off shift nbits).
Proof.
  intros HP. unfold bits_get. apply reads_within_bind.
  - apply read_only_u8_get.
  - apply reads_within_u8_get, HP.
  - intros data. apply reads_within_ret.
Qed.

Lemma reads_within_u16_get (P : nat -> Prop) (off : nat) :
  P off -> P (off + 1)%nat -> reads_within P (u16_get off).
Proof.
  intros H0 H1. unfold u16_get.
  apply reads_within_bind; [apply read_only_get_byte | apply reads_within_get_byte, H0 |].
  intros hi.
  apply reads_within_bind; [apply read_only_get_byte | apply reads_within_get_byte, H1 |].
  intros lo. apply reads_within_ret.
Qed.

Lemma reads_within_lbcd_get_items (P : nat -> Prop) (offs : list nat) (val : Z) :
  Forall P offs -> reads_within P (lbcd_get_items offs val).
Proof.
  intros HP. revert val. induction HP as [|o r Ho _ IH]; intros val; cbn [lbcd_get_items].
  - apply reads_within_ret.
  - apply reads_within_bind.
    + apply read_only_bcd_get.
    + unfold bcd_get. apply reads_within_bind.
      * apply read_only_get_byte.
      * apply reads_within_get_byte, Ho.
      * intros b. apply reads_within_ret.
    + intros d. apply IH.
Qed.

Lemma reads_within_lbcd_get (P : nat -> Prop) (base n : nat) :
  (forall k, (k < n)%nat -> P (base + k)%nat) ->
  reads_within P (lbcd_get base n).
Proof.
  intros HP. apply reads_within_lbcd_get_items. unfold items.
  apply Forall_forall. intros o Ho.
  apply list_elem_of_In, in_rev, in_map_iff in Ho. destruct Ho as (k & <- & Hk).
  apply in_seq in Hk. apply HP. lia.
Qed.

Lemma reads_within_bind_ret {A B : Type} (P : nat -> Prop)
      (a : A) (k : A -> M (list Z) B) :
  reads_within P (k a) -> reads_within P (bind (ret a) k).
Proof. intros H img img' Hag. exact (H img img' Hag). Qed.

Ltac reads_within_step Hin :=
  first
    [ match goal with
      | |- reads_within _ (bind (ret _) _) => apply reads_within_bind_ret
      end
    | apply reads_within_ret
    | apply reads_within_raise
    | apply reads_within_of_option
    | apply reads_within_of_result
    | apply reads_within_get_byte; Hin
    | apply reads_within_u8_get; Hin
    | apply reads_within_bits_get; Hin
    | apply reads_within_u16_get; Hin
    | apply reads_within_lbcd_get; intros ? ?; Hin
    | apply reads_within_bind; [ solve [repeat read_only_step] | | intros ? ]
    | match goal with
      | |- reads_within _ (if ?b then _ else _) => destruct b
      | |- reads_within _ (match ?x with _ => _ end) => destruct x
      end ].

Lemma reads_within_weaken {A : Type} (P Q : nat -> Prop) (c : M (list Z) A) :
  (forall i, P i -> Q i) -> reads_within P c -> reads_within Q c.
Proof. intros HPQ Hc img img' Hag. apply Hc. intros i Hi. apply Hag, HPQ, Hi. Qed.

(** The result of [get_memory] is decided by the 16 bytes of the record
    its selector stands for. *)
Lemma get_memory_reads_record (TONES DTCS_CODES : list Z) (sel : selector) (c : nat) :
  _get_special sel = Ok (Some c) ->
  reads_within (in_region c) (get_memory TONES DTCS_CODES sel).
Proof.
  intros Hc. unfold get_memory. rewrite Hc. unfold deref.
  cbn [of_result of_option]. apply reads_within_bind_ret.
  destruct sel as [n|s].
  2: apply reads_within_bind;
       [ solve [repeat read_only_step] | repeat reads_within_step idtac | intros ? ].
  all: cbn [of_option].
  all: unfold channel.rxfreq, channel.txoffset, channel.flags, channel.txtone,
    channel.rxtone.
  all: repeat reads_within_step
    ltac:(unfold in_region, channel.size; lia).
Qed.

(** Without a record, [get_memory] does not look at the image. *)
Lemma get_memory_reads_nothing (TONES DTCS_CODES : list Z) (sel : selector) :
  (forall c, _get_special sel <> Ok (Some c)) ->
  forall img img',
    fst (get_memory TONES DTCS_CODES sel img) = fst (get_memory TONES DTCS_CODES sel img').
Proof.
  intros Hc img img'. unfold get_memory.
  destruct (_get_special sel) as [[c|]|e] eqn:E.
  - exfalso. apply (Hc c). reflexivity.
  - cbn [of_result]. unfold bind at 1. unfold bind at 2. cbn [ret].
    destruct sel as [n|s].
    + reflexivity.
    + unfold bind. destruct (dict_get SPECIALS s); reflexivity.
  - reflexivity.
Qed.

Lemma touches_only_weaken {A : Type} (P Q : nat -> Prop) (c : M (list Z) A) :
  (forall i, P i -> Q i) -> touches_only P c -> touches_only Q c.
Proof.
  intros HPQ Hc img. destruct (Hc img) as [Hl Hi]. split; [exact Hl|].
  intros i Hn. apply Hi. intros HP. apply Hn, HPQ, HP.
Qed.

(** What [set_memory] writes, whatever its argument. *)
(** A name that SPECIALS does not have is refused before the image is
    read. *)
Lemma get_memory_unknown_name (TONES DTCS_CODES : list Z) (s : string) :
  dict_get SPECIALS s = None ->
  forall img img',
    fst (get_memory TONES DTCS_CODES (Name s) img)
    = fst (get_memory TONES DTCS_CODES (Name s) img').
Proof.
  intros Hd img img'. unfold get_memory.
  destruct (_get_special (Name s)) as [[c|]|e]; cbn [of_result];
    unfold bind; cbn [ret raise]; rewrite ?Hd; reflexivity.
Qed.

Lemma set_memory_touches (TONES DTCS_CODES : list Z) (mem : Memory) :
  touches_only
    (fun i => exists c, _get_special (Num (number mem)) = Ok (Some c) /\ in_region c i)
    (set_memory TONES DTCS_CODES mem).
Proof.
  destruct (_get_special (Num (number mem))) as [[c|]|e] eqn:Hc.
  - apply (touches_only_weaken (in_region c)).
    + intros i Hi. exists c. split; [reflexivity | exact Hi].
    + apply set_memory_frame, Hc.
  - intros img. unfold set_memory. rewrite Hc. split; reflexivity.
  - intros img. unfold set_memory. rewrite Hc. split; reflexivity.
Qed.

Lemma in_region_disjoint (c c' i : nat) :
  (exists k, c = (channel.size * k)%nat) ->
  (exists k, c' = (channel.size * k)%nat) ->
  c <> c' -> in_region c i -> in_region c' i -> False.
Proof.
  intros (k & ->) (k' & ->) Hne. unfold in_region, channel.size. intros H1 H2.
  apply Hne. f_equal. lia.
Qed.

(** ** Channels, settings and the fingerprint do not interfere *)

Lemma in_settings_not_in_record (c i : nat) :
  (exists k : nat, c = (channel.size * k)%nat /\ ((k <= 20)%nat \/ k = 23%nat)) ->
  in_region c i -> in_settings i -> False.
Proof.
  intros (k & -> & Hk). unfold in_region, in_settings, channel.size,
    memobj.settings, memobj.rly. lia.
Qed.

Lemma record_below_write_size (c i : nat) :
  (exists k : nat, c = (channel.size * k)%nat /\ ((k <= 20)%nat \/ k = 23%nat)) ->
  in_region c i -> (i < WRITE_SIZE)%nat.
Proof.
  intros (k & -> & Hk). unfold in_region, channel.size, WRITE_SIZE. lia.
Qed.

Lemma touches_only_u16_set (P : nat -> Prop) (off : nat) (v : Z) :
  P off -> P (off + 1)%nat -> touches_only P (u16_set off v).
Proof.
  intros H0 H1. unfold u16_set. apply touches_only_bind.
  - apply touches_only_set_byte, H0.
  - intros _. apply touches_only_set_byte, H1.
Qed.

Lemma settings_setattr_touches (name : string) (value : Z) :
  touches_only in_settings (settings_setattr name value).
Proof.
  unfold settings_setattr.
  repeat match goal with
         | |- touches_only _ (if ?b then _ else _) => destruct b
         end;
    first
      [ apply touches_only_raise
      | apply touches_only_u8_set
      | apply touches_only_bits_set
      | apply touches_only_u16_set
      | apply touches_only_lbcd_set; intros k Hk ];
    unfold in_settings, memobj.settings, memobj.rly; lia.
Qed.

Lemma set_settings_element_touches :
  forall e : element,
    settings_element e -> touches_only in_settings (set_settings_element e).
Proof.
  fix IH 1. intros [name value changed cb | els] He.
  - cbn [set_settings_element]. destruct (negb changed); [apply touches_only_ret|].
    destruct cb as [c|].
    + cbn [settings_element] in He. destruct He as (v & ->).
      apply settings_setattr_touches.
    + apply settings_setattr_touches.
  - cbn [set_settings_element]. cbn [settings_element] in He.
    induction els as [|e' r IHr].
    + apply touches_only_ret.
    + destruct He as [He' Hr]. apply touches_only_bind.
      * apply IH, He'.
      * intros _. apply IHr, Hr.
Qed.

Lemma settings_element_group (uisettings : list element) :
  Forall settings_element uisettings ->
  settings_element (RadioSettingGroup uisettings).
Proof.
  cbn [settings_element]. induction 1 as [|e r He _ IH]; [exact I | split; assumption].
Qed.

Lemma set_settings_touches (uisettings : list element) :
  Forall settings_element uisettings ->
  touches_only in_settings (set_settings uisettings).
Proof.
  intros H. apply set_settings_element_touches, settings_element_group, H.
Qed.

(** X11. Whatever channel value [set_memory] is given and whether it
    returns or raises, the image keeps its length and every byte from
    WRITE_SIZE on: a channel edit never reaches beyond what an upload
    sends. *)
Theorem set_memory_writes_below_write_size :
  forall (TONES DTCS_CODES : list Z) (mem : Memory) (img : list Z),
    length (snd (set_memory TONES DTCS_CODES mem img)) = length img /\
    forall i : nat,
      (WRITE_SIZE <= i)%nat ->
      snd (set_memory TONES DTCS_CODES mem img) !! i = img !! i.
Proof.
  intros TONES DTCS_CODES mem img.
  destruct (set_memory_touches TONES DTCS_CODES mem img) as [Hl Hi].
  split; [exact Hl|]. intros i Hge. apply Hi.
  intros (c & Hc & Hin).
  pose proof (record_below_write_size c i (get_special_record _ _ Hc) Hin). lia.
Qed.

Lemma set_memory_writes_below_write_size_witness :
  snd (set_memory chirp_TONES chirp_DTCS_CODES channel_simplex image_zero) !! 400%nat
  = image_zero !! 400%nat.
Proof.
  apply (proj2 (set_memory_writes_below_write_size
                  chirp_TONES chirp_DTCS_CODES channel_simplex image_zero) 400%nat).
  apply Nat.leb_le. vm_compute. reflexivity.
Defined.

(** X12. Applying a settings tree whose entries are those
    [get_settings] builds changes nothing outside the settings struct,
    0x0150 up to 0x0170, whether [set_settings] returns or raises. *)
Theorem set_settings_writes_only_settings :
  forall (uisettings : list element) (img : list Z),
    Forall settings_element uisettings ->
    length (snd (set_settings uisettings img)) = length img /\
    forall i : nat,
      ~ in_settings i -> snd (set_settings uisettings img) !! i = img !! i.
Proof.
  intros uisettings img H. exact (set_settings_touches uisettings H img).
Qed.

Lemma set_settings_writes_only_settings_witness :
  let uisettings :=
    [ RadioSetting "volume" 5 true None;
      RadioSettingGroup
        [ RadioSetting "vhfl" 136 true (Some (apply_limit "vhfl" 136)) ] ] in
  length (snd (set_settings uisettings image_zero)) = length image_zero /\
  forall i : nat,
    ~ in_settings i -> snd (set_settings uisettings image_zero) !! i = image_zero !! i.
Proof.
  intros uisettings.
  apply (set_settings_writes_only_settings uisettings image_zero).
  repeat constructor. exists 1360. reflexivity.
Defined.

Lemma match_model_agree (img img' : list Z) :
  length img' = length img ->
  (forall i : nat, (WRITE_SIZE <= i)%nat -> img' !! i = img !! i) ->
  match_model img' = match_model img.
Proof.
  intros Hl Hi. unfold match_model, _model_match. rewrite Hl.
  change (1792 - 1784)%nat with 8%nat.
  replace (take 8 (drop 1784 img')) with (take 8 (drop 1784 img)); [reflexivity|].
  apply list_eq. intros i. rewrite !lookup_take.
  destruct (decide (i < 8)%nat); [|reflexivity].
  rewrite !lookup_drop. symmetry. apply Hi. unfold WRITE_SIZE. lia.
Qed.

(** X13. Editing does not change what [match_model] answers for an
    image: neither [set_memory], whatever its argument and outcome, nor
    [set_settings] on a tree of settings entries touches the size or the
    fingerprint at 0x06F8. *)
Theorem edits_keep_match_model :
  forall (TONES DTCS_CODES : list Z) (img : list Z),
    (forall mem : Memory,
        match_model (snd (set_memory TONES DTCS_CODES mem img)) = match_model img)
    /\ (forall uisettings : list element,
           Forall settings_element uisettings ->
           match_model (snd (set_settings uisettings img)) = match_model img).
Proof.
  intros TONES DTCS_CODES img. split.
  - intros mem.
    destruct (set_memory_touches TONES DTCS_CODES mem img) as [Hl Hi].
    apply match_model_agree; [exact Hl|]. intros i Hge. apply Hi.
    intros (c & Hc & Hin).
    pose proof (record_below_write_size c i (get_special_record _ _ Hc) Hin). lia.
  - intros uisettings H.
    destruct (set_settings_touches uisettings H img) as [Hl Hi].
    apply match_model_agree; [exact Hl|]. intros i Hge. apply Hi.
    unfold in_settings, memobj.settings, memobj.rly. unfold WRITE_SIZE in Hge. lia.
Qed.

Lemma edits_keep_match_model_witness :
  match_model (snd (set_settings [RadioSetting "squelch" 3 true None] image_zero))
  = match_model image_zero.
Proof.
  apply (proj2 (edits_keep_match_model chirp_TONES chirp_DTCS_CODES image_zero)
           [RadioSetting "squelch" 3 true None]).
  repeat constructor.
Defined.

(** X14. Writing one channel does not change what any other channel
    reads as: for a selector that stands for a record other than the
    one [set_memory] writes, [get_memory] gives the same result, value
    or exception, before and after, whatever [set_memory] was given and
    whether it returned or raised. *)
Theorem set_memory_keeps_other_channels :
  forall (TONES DTCS_CODES : list Z) (mem : Memory) (sel : selector) (c : nat)
         (img : list Z),
    _get_special sel = Ok (Some c) ->
    _get_special (Num (number mem)) <> Ok (Some c) ->
    fst (get_memory TONES DTCS_CODES sel (snd (set_memory TONES DTCS_CODES mem img)))
    = fst (get_memory TONES DTCS_CODES sel img).
Proof.
  intros TONES DTCS_CODES mem sel c img Hc Hne.
  apply (get_memory_reads_record TONES DTCS_CODES sel c Hc).
  intros i Hin.
  destruct (set_memory_touches TONES DTCS_CODES mem img) as [_ Hi].
  apply Hi. intros (c' & Hc' & Hin').
  apply (in_region_disjoint c c' i);
    [exact (get_special_aligned _ _ Hc) | exact (get_special_aligned _ _ Hc') | ..];
    try assumption.
  intros ->. apply Hne, Hc'.
Qed.

Lemma set_memory_keeps_other_channels_witness :
  fst (get_memory chirp_TONES chirp_DTCS_CODES (Name "RLY")
         (snd (set_memory chirp_TONES chirp_DTCS_CODES channel_simplex image_zero)))
  = fst (get_memory chirp_TONES chirp_DTCS_CODES (Name "RLY") image_zero).
Proof.
  apply (set_memory_keeps_other_channels chirp_TONES chirp_DTCS_CODES
           channel_simplex (Name "RLY") 368%nat image_zero).
  - reflexivity.
  - discriminate.
Defined.

(** X15. Applying settings does not change what any channel reads as:
    for every selector, [get_memory] gives the same result before and
    after [set_settings] on a tree of settings entries. *)
Theorem set_settings_keeps_channels :
  forall (TONES DTCS_CODES : list Z) (uisettings : list element) (sel : selector)
         (img : list Z),
    Forall settings_element uisettings ->
    fst (get_memory TONES DTCS_CODES sel (snd (set_settings uisettings img)))
    = fst (get_memory TONES DTCS_CODES sel img).
Proof.
  intros TONES DTCS_CODES uisettings sel img H.
  destruct (_get_special sel) as [[c|]|e] eqn:Hc.
  - assert (Hrec : (exists k : nat,
                       c = (channel.size * k)%nat /\ ((k <= 20)%nat \/ k = 23%nat))
                   \/ exists s, sel = Name s /\ dict_get SPECIALS s = None).
    { destruct sel as [n|s].
      - left. exact (get_special_record _ _ Hc).
      - destruct (dict_get SPECIALS s) as [n|] eqn:Hd.
        + left. apply (get_special_name_record s); [rewrite Hd; discriminate | exact Hc].
        + right. exists s. split; [reflexivity | exact Hd]. }
    destruct Hrec as [Hrec | (s & -> & Hd)].
    + apply (get_memory_reads_record TONES DTCS_CODES sel c Hc).
      intros i Hin.
      destruct (set_settings_touches uisettings H img) as [_ Hi].
      apply Hi. intros Hs.
      exact (in_settings_not_in_record c i Hrec Hin Hs).
    + apply get_memory_unknown_name, Hd.
  - apply get_memory_reads_nothing. intros c. rewrite Hc. discriminate.
  - apply get_memory_reads_nothing. intros c. rewrite Hc. discriminate.
Qed.

Lemma set_settings_keeps_channels_witness :
  fst (get_memory chirp_TONES chirp_DTCS_CODES (Num 20)
         (snd (set_settings [RadioSetting "tx_pwr" 1 true None] image_zero)))
  = fst (get_memory chirp_TONES chirp_DTCS_CODES (Num 20) image_zero).
Proof.
  apply (set_settings_keeps_channels chirp_TONES chirp_DTCS_CODES
           [RadioSetting "tx_pwr" 1 true None] (Num 20) image_zero).
  repeat constructor.
Defined.

Lemma process_mmap_reads_settings : reads_within in_settings process_mmap.
Proof.
  unfold process_mmap.
  repeat reads_within_step
    ltac:(unfold in_settings, memobj.settings, memobj.rly; lia).
Qed.

Lemma get_settings_volume_reads_settings : reads_within in_settings get_settings_volume.
Proof.
  unfold get_settings_volume.
  repeat reads_within_step
    ltac:(unfold in_settings, memobj.volume, memobj.settings, memobj.rly; lia).
Qed.

Lemma get_settings_fm_vfo_reads_settings (_bw_shift : bool) :
  reads_within in_settings (get_settings_fm_vfo _bw_shift).
Proof.
  unfold get_settings_fm_vfo.
  apply reads_within_bind.
  - apply read_only_u16_get.
  - apply reads_within_u16_get;
      unfold in_settings, memobj.fm_vfo, memobj.settings, memobj.rly; lia.
  - intros value.
    destruct (Qle_bool (inject_Z (swap16 value)) fm_bound);
      [|destruct (Qle_bool (inject_Z value) fm_bound)];
      repeat reads_within_step idtac.
Qed.

(** X16. Writing a channel does not change what the settings read as:
    the band limits decoded by [process_mmap], the volume entry and the
    FM station entry of [get_settings] are the same before and after
    [set_memory], whatever it was given and whether it returned or
    raised. *)
Theorem set_memory_keeps_settings :
  forall (TONES DTCS_CODES : list Z) (mem : Memory) (img : list Z),
    let img' := snd (set_memory TONES DTCS_CODES mem img) in
    fst (process_mmap img') = fst (process_mmap img)
    /\ fst (get_settings_volume img') = fst (get_settings_volume img)
    /\ forall _bw_shift : bool,
         fst (get_settings_fm_vfo _bw_shift img')
         = fst (get_settings_fm_vfo _bw_shift img).
Proof.
  intros TONES DTCS_CODES mem img img'.
  assert (Hag : agree in_settings img' img).
  { intros i Hs.
    destruct (set_memory_touches TONES DTCS_CODES mem img) as [_ Hi].
    apply Hi. intros (c & Hc & Hin).
    exact (in_settings_not_in_record c i (get_special_record _ _ Hc) Hin Hs). }
  split; [|split].
  - apply process_mmap_reads_settings, Hag.
  - apply get_settings_volume_reads_settings, Hag.
  - intros bw. apply get_settings_fm_vfo_reads_settings, Hag.
Qed.

(** ** The band limits *)

Lemma lbcd_get2_app (pre l : list Z) (k : nat) (b0 b1 : Z) :
  l !! k = Some b0 -> l !! (k + 1)%nat = Some b1 ->
  lbcd_get (length pre + k) 2 (pre ++ l) = (Ok (lbcd2 b0 b1), pre ++ l).
Proof.
  intros H0 H1. unfold lbcd_get, items. cbn [seq map rev app lbcd_get_items].
  rewrite <- !Nat.add_assoc, Nat.add_0_r.
  unfold bcd_get, bind.
  rewrite (get_byte_app _ _ _ _ H1). cbn [ret].
  rewrite (get_byte_app _ _ _ _ H0). cbn [ret].
  unfold ret, lbcd2. do 2 f_equal. lia.
Qed.

Lemma lbcd_set2_app (pre l : list Z) (k : nat) (q : Z) :
  (k + 2 <= length l)%nat ->
  lbcd_set (length pre + k) 2 q (pre ++ l)
  = (Ok tt,
     pre ++ <[(k + 1)%nat := bcd_pack ((q / 100) mod 100)]>
              (<[k := bcd_pack (q mod 100)]> l)).
Proof.
  intros Hk. unfold lbcd_set, items. cbn [seq map lbcd_set_items].
  rewrite <- !Nat.add_assoc, Nat.add_0_r.
  unfold bcd_set, bind.
  rewrite set_byte_app by lia.
  rewrite set_byte_app by (rewrite ?length_insert; lia).
  reflexivity.
Qed.

Lemma lbcd2_pack (q : Z) :
  0 <= q < 10000 ->
  lbcd2 (bcd_pack (q mod 100)) (bcd_pack ((q / 100) mod 100)) = q.
Proof.
  intros Hq. unfold lbcd2.
  rewrite !bcd_digits_pack by (apply Z.mod_pos_bound; lia).
  pose proof (Z.div_mod q 100 ltac:(lia)) as E0.
  assert (H1 : 0 <= q / 100 < 100).
  { split; [apply Z.div_pos | apply Z.div_lt_upper_bound]; lia. }
  rewrite (Z.mod_small (q / 100)) by assumption. lia.
Qed.

Lemma process_mmap_app (pre : list Z) (b0 b1 b2 b3 b4 b5 b6 b7 : Z) (post : list Z) :
  length pre = memobj.settings ->
  process_mmap (pre ++ b0 :: b1 :: b2 :: b3 :: b4 :: b5 :: b6 :: b7 :: post)
  = (Ok (_decode_ranges (lbcd2 b0 b1) (lbcd2 b2 b3),
         _decode_ranges (lbcd2 b4 b5) (lbcd2 b6 b7)),
     pre ++ b0 :: b1 :: b2 :: b3 :: b4 :: b5 :: b6 :: b7 :: post).
Proof.
  intros Hpre. unfold process_mmap. rewrite <- Hpre.
  erewrite bind_ok by (apply lbcd_get2_app; reflexivity).
  erewrite bind_ok by (apply lbcd_get2_app; reflexivity).
  erewrite bind_ok by (apply lbcd_get2_app; reflexivity).
  erewrite bind_ok by (apply lbcd_get2_app; reflexivity).
  reflexivity.
Qed.

Lemma apply_limit_app (name : string) (k : nat) (v : Z) (pre l : list Z) :
  (name, k) ∈ [("vhfl", 0%nat); ("vhfh", 2%nat); ("uhfl", 4%nat); ("uhfh", 6%nat)] ->
  length pre = memobj.settings ->
  (k + 2 <= length l)%nat ->
  apply_limit name v (pre ++ l)
  = (Ok tt,
     pre ++ <[(k + 1)%nat := bcd_pack ((v * 10 / 100) mod 100)]>
              (<[k := bcd_pack ((v * 10) mod 100)]> l)).
Proof.
  intros Hin Hpre Hl. unfold apply_limit, settings_setattr. rewrite <- Hpre.
  repeat (apply elem_of_cons in Hin; destruct Hin as [Hin|Hin];
          [inversion Hin; subst name k; clear Hin;
           decide_strings; apply lbcd_set2_app; exact Hl|]).
  apply elem_of_nil in Hin. contradiction.
Qed.

(** X17. A band limit applied in MHz is the band edge in Hz that
    [process_mmap] decodes: on an image that holds the settings struct,
    [apply_limit] of [v] (0..999) for one of the four limits succeeds,
    and [process_mmap] on the result gives [v * 1000000] for that edge
    and, for the three other edges, what it gave before. *)
Theorem apply_limit_sets_band_edge :
  forall (v : Z) (img : list Z),
    0 <= v <= 999 ->
    (memobj.rly <= length img)%nat ->
    exists (vhf uhf : Z * Z),
      process_mmap img = (Ok (vhf, uhf), img)
      /\ (exists img', apply_limit "vhfl" v img = (Ok tt, img') /\
            process_mmap img' = (Ok ((v * 1000000, snd vhf), uhf), img'))
      /\ (exists img', apply_limit "vhfh" v img = (Ok tt, img') /\
            process_mmap img' = (Ok ((fst vhf, v * 1000000), uhf), img'))
      /\ (exists img', apply_limit "uhfl" v img = (Ok tt, img') /\
            process_mmap img' = (Ok (vhf, (v * 1000000, snd uhf)), img'))
      /\ (exists img', apply_limit "uhfh" v img = (Ok tt, img') /\
            process_mmap img' = (Ok (vhf, (fst uhf, v * 1000000)), img')).
Proof.
  intros v img Hv Hlen. unfold memobj.rly in Hlen.
  rewrite <- (take_drop memobj.settings img).
  assert (Hpre : length (take memobj.settings img) = memobj.settings)
    by (rewrite length_take; unfold memobj.settings; lia).
  assert (Hl : (32 <= length (drop memobj.settings img))%nat)
    by (rewrite length_drop; unfold memobj.settings; lia).
  set (pre := take memobj.settings img) in *.
  destruct (drop memobj.settings img)
    as [|b0 [|b1 [|b2 [|b3 [|b4 [|b5 [|b6 [|b7 post]]]]]]]];
    cbn [length] in Hl; try lia.
  assert (Hq : lbcd2 (bcd_pack ((v * 10) mod 100)) (bcd_pack ((v * 10 / 100) mod 100))
               * 100000 = v * 1000000)
    by (rewrite lbcd2_pack by lia; lia).
  exists (_decode_ranges (lbcd2 b0 b1) (lbcd2 b2 b3)),
         (_decode_ranges (lbcd2 b4 b5) (lbcd2 b6 b7)).
  split; [apply process_mmap_app, Hpre|].
  assert (Hrun : forall name k,
    (name, k) ∈ [("vhfl", 0%nat); ("vhfh", 2%nat); ("uhfl", 4%nat); ("uhfh", 6%nat)] ->
    apply_limit name v (pre ++ b0 :: b1 :: b2 :: b3 :: b4 :: b5 :: b6 :: b7 :: post)
    = (Ok tt,
       pre ++ <[(k + 1)%nat := bcd_pack ((v * 10 / 100) mod 100)]>
                (<[k := bcd_pack ((v * 10) mod 100)]>
                   (b0 :: b1 :: b2 :: b3 :: b4 :: b5 :: b6 :: b7 :: post)))).
  { intros name k Hin. apply apply_limit_app; [exact Hin | exact Hpre |].
    repeat (apply elem_of_cons in Hin; destruct Hin as [Hin|Hin];
            [inversion Hin; subst; cbn [length]; lia|]).
    apply elem_of_nil in Hin. contradiction. }
  split; [|split; [|split]]; eexists; (split;
    [ apply Hrun; repeat constructor
    | cbn [insert list_insert Nat.add]; rewrite process_mmap_app by exact Hpre;
      unfold _decode_ranges; cbn [fst snd]; rewrite Hq; reflexivity ]).
Qed.

Lemma apply_limit_sets_band_edge_witness :
  exists (vhf uhf : Z * Z),
    process_mmap image_zero = (Ok (vhf, uhf), image_zero)
    /\ (exists img', apply_limit "vhfl" 136 image_zero = (Ok tt, img') /\
          process_mmap img' = (Ok ((136 * 1000000, snd vhf), uhf), img'))
    /\ (exists img', apply_limit "vhfh" 136 image_zero = (Ok tt, img') /\
          process_mmap img' = (Ok ((fst vhf, 136 * 1000000), uhf), img'))
    /\ (exists img', apply_limit "uhfl" 136 image_zero = (Ok tt, img') /\
          process_mmap img' = (Ok (vhf, (136 * 1000000, snd uhf)), img'))
    /\ (exists img', apply_limit "uhfh" 136 image_zero = (Ok tt, img') /\
          process_mmap img' = (Ok (vhf, (fst uhf, 136 * 1000000)), img')).
Proof.
  apply (apply_limit_sets_band_edge 136 image_zero).
  - lia.
  - apply Nat.leb_le. vm_compute. reflexivity.
Defined.

(** ** Tones, from the byte and back *)

Lemma index_lookup {A : Type} `{EqDecision A} (l : list A) (i : nat) (x : A) :
  NoDup l -> l !! i = Some x -> index x l = Some i.
Proof.
  intros Hnd. revert i. induction Hnd as [|y r Hy _ IH]; intros i Hi; [discriminate|].
  cbn [index]. destruct i as [|i].
  - inversion Hi; subst y. destruct (decide (x = x)); [reflexivity | contradiction].
  - cbn [lookup list_lookup] in Hi.
    destruct (decide (x = y)) as [->|_].
    + exfalso. apply Hy. apply list_elem_of_lookup. exists i. exact Hi.
    + rewrite (IH i Hi). reflexivity.
Qed.

Lemma py_getitem_elem {A : Type} (l : list A) (i : Z) (x : A) :
  py_getitem l i = Some x -> x ∈ l.
Proof.
  unfold py_getitem.
  destruct ((0 <=? i) && (i <? Z.of_nat (length l)));
    [|destruct ((- Z.of_nat (length l) <=? i) && (i <? 0))];
    try discriminate; intros H; apply list_elem_of_lookup; eexists; exact H.
Qed.

Lemma py_getitem_nonneg {A : Type} (l : list A) (i : Z) (x : A) :
  0 <= i -> py_getitem l i = Some x -> l !! Z.to_nat i = Some x.
Proof.
  intros Hi. unfold py_getitem.
  destruct ((0 <=? i) && (i <? Z.of_nat (length l))); [intros H; exact H|].
  replace ((- Z.of_nat (length l) <=? i) && (i <? 0)) with false by lia.
  discriminate.
Qed.

(** Whatever [_decode_tone] returns is a tone of the tables. *)
Lemma decode_tone_valid (TONES DTCS_CODES : list Z) (val inv : Z) (t : tonespec) :
  _decode_tone TONES DTCS_CODES val inv = Ok t ->
  valid_tone TONES DTCS_CODES t = true.
Proof.
  unfold _decode_tone.
  destruct (val =? 0).
  { intros H; inversion H. reflexivity. }
  destruct (val <? 51).
  { destruct (py_getitem TONES (val - 1)) as [x|] eqn:E; [|discriminate].
    intros H; inversion H. unfold valid_tone. cbn [t_mode t_value t_pol].
    decide_strings. apply py_getitem_elem in E.
    rewrite bool_decide_eq_true_2 by exact E. reflexivity. }
  destruct (val >? 50); [|discriminate].
  destruct (py_getitem (DTCS DTCS_CODES) (val - 51)) as [x|] eqn:E; [|discriminate].
  intros H; inversion H. unfold valid_tone. cbn [t_mode t_value t_pol].
  decide_strings. apply py_getitem_elem in E.
  rewrite bool_decide_eq_true_2 by exact E.
  destruct (inv =? 1); reflexivity.
Qed.

Lemma store_tone_app (pre l : list Z) (kt kf : nat) (bf s v inv : Z) :
  (kt < length l)%nat -> l !! kf = Some bf -> kt <> kf ->
  (u8_set (length pre + kt) v ;;; bits_set (length pre + kf) s 1 inv) (pre ++ l)
  = (Ok tt, pre ++ <[kf := Z.land (bits_insert bf s 1 inv) 255]>
                     (<[kt := Z.land v 255]> l)).
Proof.
  intros Hkt Hkf Hne.
  unfold bind at 1. rewrite u8_set_app by assumption.
  apply bits_set_app. rewrite list_lookup_insert_ne by assumption. exact Hkf.
Qed.

(** Encoding a decoded tone stores the byte it was decoded from. *)
Lemma encode_decoded_tone :
  forall (TONES DTCS_CODES : list Z) (val inv : Z) (t : tonespec)
         (pre l : list Z) (kt kf : nat) (bf s : Z),
    NoDup TONES ->
    NoDup (DTCS DTCS_CODES) ->
    0 <= val <= 255 ->
    _decode_tone TONES DTCS_CODES val inv = Ok t ->
    (kt < length l)%nat -> l !! kf = Some bf -> kt <> kf ->
    _encode_tone TONES DTCS_CODES (length pre + kt) (length pre + kf) s t (pre ++ l)
    = (Ok tt,
       pre ++ <[kf := Z.land (bits_insert bf s 1
                                (if (val >? 50) && (inv =? 1) then 1 else 0)) 255]>
                (<[kt := val]> l)).
Proof.
  intros TONES DTCS_CODES val inv t pre l kt kf bf s HT HD Hval Hdec Hkt Hkf Hne.
  unfold _decode_tone in Hdec.
  destruct (Z.eqb_spec val 0) as [->|H0].
  { inversion Hdec; subst t. unfold _encode_tone. cbn [t_mode t_value t_pol].
    destruct (decide (Some "" = Some "" \/ Some "" = None)) as [_|Hn];
      [|exfalso; apply Hn; left; reflexivity].
    rewrite (store_tone_app _ _ _ _ bf) by assumption. reflexivity. }
  destruct (Z.ltb_spec val 51) as [Hlt|Hge].
  { destruct (py_getitem TONES (val - 1)) as [x|] eqn:E; [|discriminate].
    inversion Hdec; subst t.
    apply py_getitem_nonneg in E; [|lia].
    pose proof (index_lookup _ _ _ HT E) as Hi.
    unfold _encode_tone. cbn [t_mode t_value t_pol].
    destruct (decide (Some "Tone" = Some "" \/ Some "Tone" = None)) as [[H|H]|_];
      [discriminate | discriminate |].
    destruct (decide (Some "Tone" = Some "Tone")) as [_|Hn]; [|congruence].
    unfold try_except. rewrite Hi. unfold of_option.
    change ((a <- ret (Z.to_nat (val - 1));; u8_set (length pre + kt) (Z.of_nat a + 1);;;
             bits_set (length pre + kf) s 1 0) (pre ++ l))
      with ((u8_set (length pre + kt) (Z.of_nat (Z.to_nat (val - 1)) + 1);;;
             bits_set (length pre + kf) s 1 0) (pre ++ l)).
    rewrite (store_tone_app _ _ _ _ bf) by assumption.
    replace (Z.of_nat (Z.to_nat (val - 1)) + 1) with val by lia.
    rewrite (land_255_small val) by lia.
    replace (val >? 50) with false by lia. reflexivity. }
  replace (val >? 50) with true in * by lia.
  destruct (py_getitem (DTCS DTCS_CODES) (val - 51)) as [x|] eqn:E; [|discriminate].
  inversion Hdec; subst t.
  apply py_getitem_nonneg in E; [|lia].
  pose proof (index_lookup _ _ _ HD E) as Hi.
  unfold _encode_tone. cbn [t_mode t_value t_pol].
  destruct (decide (Some "DTCS" = Some "" \/ Some "DTCS" = None)) as [[H|H]|_];
    [discriminate | discriminate |].
  destruct (decide (Some "DTCS" = Some "Tone")) as [H|_]; [discriminate|].
  destruct (decide (Some "DTCS" = Some "DTCS")) as [_|Hn]; [|congruence].
  unfold try_except. rewrite Hi. unfold of_option.
  cbn [andb].
  destruct (inv =? 1).
  - destruct (decide (Some "R" = Some "R")) as [_|Hn]; [|congruence].
    change ((a <- ret (Z.to_nat (val - 51));; u8_set (length pre + kt) (Z.of_nat a + 51);;;
             bits_set (length pre + kf) s 1 1) (pre ++ l))
      with ((u8_set (length pre + kt) (Z.of_nat (Z.to_nat (val - 51)) + 51);;;
             bits_set (length pre + kf) s 1 1) (pre ++ l)).
    rewrite (store_tone_app _ _ _ _ bf) by assumption.
    replace (Z.of_nat (Z.to_nat (val - 51)) + 51) with val by lia.
    rewrite (land_255_small val) by lia. reflexivity.
  - destruct (decide (Some "N" = Some "R")) as [H|_]; [discriminate|].
    change ((a <- ret (Z.to_nat (val - 51));; u8_set (length pre + kt) (Z.of_nat a + 51);;;
             bits_set (length pre + kf) s 1 0) (pre ++ l))
      with ((u8_set (length pre + kt) (Z.of_nat (Z.to_nat (val - 51)) + 51);;;
             bits_set (length pre + kf) s 1 0) (pre ++ l)).
    rewrite (store_tone_app _ _ _ _ bf) by assumption.
    replace (Z.of_nat (Z.to_nat (val - 51)) + 51) with val by lia.
    rewrite (land_255_small val) by lia. reflexivity.
Qed.

(** X18. A tone byte read by [_decode_tone] and given back to
    [_encode_tone] is stored as the same byte: with tables that hold no
    value twice, for a byte [val] that decodes, encoding the decoded tone
    succeeds and writes [val] to the tone byte; the inversion bit is set
    to 1 when the tone is digital and was read inverted, and to 0
    otherwise (an inversion bit next to an analog or absent tone is
    cleared). *)
Theorem decode_then_encode_tone :
  forall (TONES DTCS_CODES : list Z) (val inv : Z) (t : tonespec)
         (pre l : list Z) (kt kf : nat) (bf s : Z),
    NoDup TONES ->
    NoDup (DTCS DTCS_CODES) ->
    0 <= val <= 255 ->
    _decode_tone TONES DTCS_CODES val inv = Ok t ->
    (kt < length l)%nat -> l !! kf = Some bf -> kt <> kf ->
    _encode_tone TONES DTCS_CODES (length pre + kt) (length pre + kf) s t (pre ++ l)
    = (Ok tt,
       pre ++ <[kf := Z.land (bits_insert bf s 1
                                (if (val >? 50) && (inv =? 1) then 1 else 0)) 255]>
                (<[kt := val]> l)).
Proof. exact encode_decoded_tone. Qed.

Lemma decode_then_encode_tone_witness :
  _encode_tone chirp_TONES chirp_DTCS_CODES
    (length [1; 2] + 0) (length [1; 2] + 1) channel.ttondinv
    (mk_tonespec (Some "DTCS") (Some 23) (Some "R")) ([1; 2] ++ [0; 0; 9])
  = (Ok tt,
     [1; 2] ++ <[1%nat := Z.land (bits_insert 0 channel.ttondinv 1
                                    (if (51 >? 50) && (1 =? 1) then 1 else 0)) 255]>
                 (<[0%nat := 51]> [0; 0; 9])).
Proof.
  apply (decode_then_encode_tone chirp_TONES chirp_DTCS_CODES 51 1
           (mk_tonespec (Some "DTCS") (Some 23) (Some "R"))
           [1; 2] [0; 0; 9] 0%nat 1%nat 0 channel.ttondinv).
  - apply (bool_decide_unpack _). vm_compute. exact I.
  - apply (bool_decide_unpack _). vm_compute. exact I.
  - lia.
  - reflexivity.
  - cbn. lia.
  - reflexivity.
  - discriminate.
Defined.

(** ** What [get_memory] returns *)

Lemma work_out_polarity_duplex (offminus offplus : Z) (mem : Memory) :
  duplex mem = "" ->
  duplex (work_out_polarity offminus offplus mem) ∈ [""; "-"; "+"; "split"].
Proof.
  intros Hd. unfold work_out_polarity.
  destruct (negb (offset mem =? 0)); [|rewrite Hd; repeat constructor].
  destruct (offminus =? 1), (offplus =? 1);
    cbn [offset freq duplex with_duplex with_offset];
    match goal with
    | |- context [if ?b then _ else _] => destruct b
    end;
    cbn [offset freq duplex with_duplex with_offset];
    rewrite ?Hd; repeat constructor.
Qed.

Lemma work_out_polarity_keeps (offminus offplus : Z) (mem : Memory) :
  number (work_out_polarity offminus offplus mem) = number mem
  /\ extd_number (work_out_polarity offminus offplus mem) = extd_number mem
  /\ empty (work_out_polarity offminus offplus mem) = empty mem.
Proof.
  unfold work_out_polarity.
  destruct (negb (offset mem =? 0)); [|repeat split].
  destruct (offminus =? 1), (offplus =? 1);
    cbn [offset freq duplex with_duplex with_offset];
    match goal with
    | |- context [if ?b then _ else _] => destruct b
    end; repeat split.
Qed.

Lemma decode_tone_cases (TONES DTCS_CODES : list Z) (val inv : Z) (t : tonespec) :
  _decode_tone TONES DTCS_CODES val inv = Ok t ->
  t = no_tone
  \/ (exists v, v ∈ TONES /\ t = mk_tonespec (Some "Tone") (Some v) None)
  \/ (exists c p, c ∈ DTCS DTCS_CODES /\ p ∈ ["N"; "R"]
                  /\ t = mk_tonespec (Some "DTCS") (Some c) (Some p)).
Proof.
  unfold _decode_tone.
  destruct (val =? 0).
  { intros H; inversion H. left. reflexivity. }
  destruct (val <? 51).
  { destruct (py_getitem TONES (val - 1)) as [x|] eqn:E; [|discriminate].
    intros H; inversion H. right. left. exists x.
    split; [exact (py_getitem_elem _ _ _ E) | reflexivity]. }
  destruct (val >? 50); [|discriminate].
  destruct (py_getitem (DTCS DTCS_CODES) (val - 51)) as [x|] eqn:E; [|discriminate].
  intros H; inversion H. right. right.
  exists x, (if inv =? 1 then "R" else "N").
  split; [exact (py_getitem_elem _ _ _ E)|].
  split; [destruct (inv =? 1); repeat constructor | reflexivity].
Qed.

(** What a [get_memory] that returns went through. *)
Lemma get_memory_ok_inv (TONES DTCS_CODES : list Z) (sel : selector)
      (img img' : list Z) (mem : Memory) :
  get_memory TONES DTCS_CODES sel img = (Ok mem, img') ->
  (exists c, _get_special sel = Ok (Some c))
  /\ match sel with
     | Num n => number mem = n /\ extd_number mem = ""
     | Name s => dict_get SPECIALS s = Some (number mem) /\ extd_number mem = s
     end
  /\ mode mem ∈ MODES
  /\ skip mem ∈ SKIP_VALUES
  /\ duplex mem ∈ [""; "-"; "+"; "split"]
  /\ (exists val inv, _decode_tone TONES DTCS_CODES val inv = Ok (tx_tone mem))
  /\ (exists val inv, _decode_tone TONES DTCS_CODES val inv = Ok (rx_tone mem)).
Proof.
  intros Hget. unfold get_memory in Hget.
  read_inv Hget _mem H_mem.
  read_inv Hget mem0 Hmem0.
  2:{ destruct sel; repeat read_only_step. }
  assert (H0 : match sel with
               | Num n => number mem0 = n /\ extd_number mem0 = ""
               | Name s => dict_get SPECIALS s = Some (number mem0) /\ extd_number mem0 = s
               end
               /\ mode mem0 = "FM" /\ skip mem0 = "" /\ duplex mem0 = ""
               /\ tx_tone mem0 = no_tone /\ rx_tone mem0 = no_tone).
  { destruct sel as [n|s].
    - inversion Hmem0. repeat split.
    - unfold bind in Hmem0.
      destruct (dict_get SPECIALS s) as [n|]; inversion Hmem0. repeat split. }
  destruct H0 as (Hsel & Hmode0 & Hskip0 & Hdup0 & Htx0 & Hrx0).
  unfold deref in Hget.
  read_inv Hget c Hc.
  split.
  { exists c. destruct (_get_special sel) as [[c'|]|e]; inversion H_mem; subst.
    - inversion Hc. reflexivity.
    - discriminate. }
  read_inv Hget raw0 Hraw0.
  destruct (raw0 =? 255).
  { inversion Hget; subst mem img'.
    cbn [with_empty number extd_number mode skip duplex tx_tone rx_tone].
    split; [exact Hsel|].
    rewrite Hmode0, Hskip0, Hdup0, Htx0, Hrx0.
    split; [repeat constructor|]. split; [repeat constructor|].
    split; [repeat constructor|].
    split; exists 0, 0; reflexivity. }
  read_inv Hget rxfreq Hrx.
  read_inv Hget txoffset Ho.
  read_inv Hget om Hom.
  read_inv Hget op Hop.
  read_inv Hget wide Hwide.
  read_inv Hget m Hm.
  read_inv Hget noskip Hnoskip.
  read_inv Hget sk Hsk.
  read_inv Hget txt Htxt.
  read_inv Hget ttondinv Httondinv.
  read_inv Hget txtone Htxtone.
  read_inv Hget rxt Hrxt.
  read_inv Hget rtondinv Hrtondinv.
  read_inv Hget rxtone Hrxtone.
  inversion Hget; subst mem img'. clear Hget.
  cbn [with_tones with_skip with_mode number extd_number mode skip duplex
       tx_tone rx_tone].
  destruct (work_out_polarity_keeps om op
              (with_duplex "" (with_offset (txoffset * 10)
                                 (with_freq (rxfreq * 10) mem0))))
    as (Hn & Hx & _).
  rewrite Hn, Hx. cbn [with_duplex with_offset with_freq number extd_number].
  split; [exact Hsel|].
  split.
  { destruct (py_getitem MODES wide) as [x|] eqn:E; inversion Hm; subst.
    exact (py_getitem_elem _ _ _ E). }
  split.
  { destruct (py_getitem SKIP_VALUES noskip) as [x|] eqn:E; inversion Hsk; subst.
    exact (py_getitem_elem _ _ _ E). }
  split.
  { apply work_out_polarity_duplex. reflexivity. }
  split.
  - exists txt, ttondinv.
    destruct (_decode_tone TONES DTCS_CODES txt ttondinv) as [x|];
      inversion Htxtone; subst. reflexivity.
  - exists rxt, rtondinv.
    destruct (_decode_tone TONES DTCS_CODES rxt rtondinv) as [x|];
      inversion Hrxtone; subst. reflexivity.
Qed.

(** X19. What [get_memory] returns is within what [get_features]
    advertises: the value carries the number asked for (for a special
    name, the number SPECIALS gives it, and the name), its bandwidth is
    one of [valid_modes], its skip one of [valid_skips], its duplex one
    of [valid_duplexes], and each of its two tones is absent, or an
    analog tone of the table, or a code of [valid_dtcs_codes] with
    polarity N or R. *)
Theorem get_memory_within_features :
  forall (TONES DTCS_CODES : list Z) (vhf uhf : Z * Z) (sel : selector)
         (img img' : list Z) (mem : Memory),
    get_memory TONES DTCS_CODES sel img = (Ok mem, img') ->
    let rf := get_features DTCS_CODES vhf uhf in
    match sel with
    | Num n => number mem = n /\ extd_number mem = ""
    | Name s => dict_get SPECIALS s = Some (number mem) /\ extd_number mem = s
    end
    /\ mode mem ∈ valid_modes rf
    /\ skip mem ∈ valid_skips rf
    /\ duplex mem ∈ valid_duplexes rf
    /\ forall t : tonespec,
         t = tx_tone mem \/ t = rx_tone mem ->
         t = no_tone
         \/ (exists v, v ∈ TONES /\ t = mk_tonespec (Some "Tone") (Some v) None)
         \/ (exists c p, c ∈ valid_dtcs_codes rf /\ p ∈ ["N"; "R"]
                         /\ t = mk_tonespec (Some "DTCS") (Some c) (Some p)).
Proof.
  intros TONES DTCS_CODES vhf uhf sel img img' mem Hget rf.
  cbn [rf get_features valid_modes valid_skips valid_duplexes valid_dtcs_codes].
  destruct (get_memory_ok_inv _ _ _ _ _ _ Hget)
    as (_ & Hsel & Hm & Hs & Hd & (tv & ti & Ht) & (rv & ri & Hr)).
  repeat (split; [assumption|]).
  intros t [->| ->]; eapply decode_tone_cases; eassumption.
Qed.

Lemma get_memory_within_features_witness :
  let rf := get_features chirp_DTCS_CODES (130000000, 174000000) (400000000, 520000000) in
  match Num 1 with
  | Num n => number channel_simplex_offset = n /\ extd_number channel_simplex_offset = ""
  | Name s => dict_get SPECIALS s = Some (number channel_simplex_offset)
              /\ extd_number channel_simplex_offset = s
  end
  /\ mode channel_simplex_offset ∈ valid_modes rf
  /\ skip channel_simplex_offset ∈ valid_skips rf
  /\ duplex channel_simplex_offset ∈ valid_duplexes rf
  /\ forall t : tonespec,
       t = tx_tone channel_simplex_offset \/ t = rx_tone channel_simplex_offset ->
       t = no_tone
       \/ (exists v, v ∈ chirp_TONES /\ t = mk_tonespec (Some "Tone") (Some v) None)
       \/ (exists c p, c ∈ valid_dtcs_codes rf /\ p ∈ ["N"; "R"]
                       /\ t = mk_tonespec (Some "DTCS") (Some c) (Some p)).
Proof.
  apply (get_memory_within_features chirp_TONES chirp_DTCS_CODES
           (130000000, 174000000) (400000000, 520000000) (Num 1)
           image_simplex_offset image_simplex_offset channel_simplex_offset).
  vm_compute. reflexivity.
Defined.

(** ** What a channel write leaves alone inside the record *)

Section Keeps.

Context {B : Type} (f : list Z -> B).

Lemma keeps_ret {A : Type} (a : A) : keeps f (ret a).
Proof. intros img. reflexivity. Qed.

Lemma keeps_raise {A : Type} (e : error) : keeps (A := A) f (raise e).
Proof. intros img. reflexivity. Qed.

Lemma keeps_bind {A C : Type} (c : M (list Z) A) (k : A -> M (list Z) C) :
  keeps f c -> (forall a, keeps f (k a)) -> keeps f (bind c k).
Proof.
  intros Hc Hk img. unfold bind. pose proof (Hc img) as E.
  destruct (c img) as [[a|e] img1]; cbn [snd] in *.
  - rewrite (Hk a img1). exact E.
  - exact E.
Qed.

Lemma keeps_bind_ret {A C : Type} (a : A) (k : A -> M (list Z) C) :
  keeps f (k a) -> keeps f (bind (ret a) k).
Proof. intros H img. exact (H img). Qed.

Lemma keeps_try_except {A : Type} (c : M (list Z) A) (h : error -> M (list Z) A) :
  keeps f c -> (forall e, keeps f (h e)) -> keeps f (try_except c h).
Proof.
  intros Hc Hh img. unfold try_except. pose proof (Hc img) as E.
  destruct (c img) as [[a|e] img1]; cbn [snd] in *.
  - exact E.
  - rewrite (Hh e img1). exact E.
Qed.

Lemma keeps_read {A : Type} (c : M (list Z) A) : read_only c -> keeps f c.
Proof. intros Hc img. rewrite (Hc img). reflexivity. Qed.

Lemma keeps_lbcd_set_items (offs : list nat) (value : Z) :
  Forall (fun o => forall v, keeps f (set_byte o v)) offs ->
  keeps f (lbcd_set_items offs value).
Proof.
  intros H. revert value. induction H as [|o r Ho _ IH]; intros value;
    cbn [lbcd_set_items].
  - apply keeps_ret.
  - apply keeps_bind; [apply Ho | intros _; apply IH].
Qed.

Lemma keeps_lbcd_set (base n : nat) (value : Z) :
  (forall k v, (k < n)%nat -> keeps f (set_byte (base + k) v)) ->
  keeps f (lbcd_set base n value).
Proof.
  intros H. apply keeps_lbcd_set_items. unfold items.
  apply Forall_forall. intros o Ho v.
  apply list_elem_of_In, in_map_iff in Ho. destruct Ho as (k & <- & Hk).
  apply in_seq in Hk. apply H. lia.
Qed.

Lemma keeps_encode_tone (TONES DTCS_CODES : list Z) (memtone flags : nat)
      (meminv : Z) (t : tonespec) :
  (forall v, keeps f (set_byte memtone v)) ->
  (forall v, keeps f (bits_set flags meminv 1 v)) ->
  keeps f (_encode_tone TONES DTCS_CODES memtone flags meminv t).
Proof.
  intros Hm Hf. unfold _encode_tone, u8_set.
  repeat first
    [ apply Hm
    | apply Hf
    | apply keeps_raise
    | apply keeps_read, read_only_of_option
    | match goal with
      | |- keeps _ (bind _ _) => apply keeps_bind; [ | intros ? ]
      | |- keeps _ (try_except _ _) => apply keeps_try_except; [ | intros ? ]
      | |- keeps _ (if ?b then _ else _) => destruct b
      end ].
Qed.

(** A write of a channel that is not empty assigns the two frequency
    fields, the two tone bytes and six of the flag bits, and nothing
    else. *)
Lemma set_memory_keeps (TONES DTCS_CODES : list Z) (mem : Memory) (c : nat) :
  empty mem = false ->
  _get_special (Num (number mem)) = Ok (Some c) ->
  (forall k v, (k < 10)%nat -> keeps f (set_byte (c + k) v)) ->
  (forall s v, s ∈ [channel.offminus; channel.offplus; channel.rtondinv;
                    channel.ttondinv; channel.wide; channel.noskip] ->
               keeps f (bits_set (channel.flags c) s 1 v)) ->
  keeps f (set_memory TONES DTCS_CODES mem).
Proof.
  intros He Hc Hb Hf. unfold set_memory. rewrite Hc, He.
  cbn [of_result]. unfold deref, of_option.
  assert (Hrx : forall v, keeps f (lbcd_set (channel.rxfreq c) 4 v)).
  { intros v. apply keeps_lbcd_set. intros k v' Hk. unfold channel.rxfreq.
    rewrite <- Nat.add_assoc. apply Hb. lia. }
  assert (Htx : forall v, keeps f (lbcd_set (channel.txoffset c) 4 v)).
  { intros v. apply keeps_lbcd_set. intros k v' Hk. unfold channel.txoffset.
    rewrite <- Nat.add_assoc. apply Hb. lia. }
  assert (Hbit : forall s v,
             s ∈ [channel.offminus; channel.offplus; channel.rtondinv;
                  channel.ttondinv; channel.wide; channel.noskip] ->
             keeps f (bits_set (channel.flags c) s 1 v)) by exact Hf.
  repeat first
    [ match goal with
      | |- keeps _ (bind (ret _) _) => apply keeps_bind_ret
      end
    | apply Hrx
    | apply Htx
    | apply Hbit; repeat constructor
    | apply keeps_encode_tone;
        [ intros ?; apply Hb; lia | intros ?; apply Hbit; repeat constructor ]
    | apply keeps_ret
    | apply keeps_read, read_only_of_option
    | match goal with
      | |- keeps _ (bind _ _) => apply keeps_bind; [ | intros ? ]
      | |- keeps _ (if ?b then _ else _) => destruct b
      end ].
Qed.

End Keeps.

Lemma keeps_byte_set_byte (i off : nat) (v : Z) :
  off <> i -> keeps (fun img => img !! i) (set_byte off v).
Proof.
  intros Hne img. unfold set_byte. destruct (decide _); cbn [snd]; [|reflexivity].
  apply list_lookup_insert_ne. exact Hne.
Qed.

Lemma keeps_byte_bits_set (i off : nat) (shift nbits v : Z) :
  off <> i -> keeps (fun img => img !! i) (bits_set off shift nbits v).
Proof.
  intros Hne. unfold bits_set. apply keeps_bind.
  - apply keeps_read, read_only_u8_get.
  - intros data. apply keeps_byte_set_byte, Hne.
Qed.

Lemma keeps_bit_set_byte (o off : nat) (k v : Z) :
  off <> o -> keeps (stored_bit o k) (set_byte off v).
Proof.
  intros Hne img. unfold stored_bit.
  rewrite (keeps_byte_set_byte o off v Hne img). reflexivity.
Qed.

Lemma keeps_bit_bits_set (o : nat) (k s v : Z) :
  0 <= s < 8 -> 0 <= k < 8 -> s <> k ->
  keeps (stored_bit o k) (bits_set o s 1 v).
Proof.
  intros Hs Hk Hne img. unfold bits_set, bind, u8_get, get_byte, u8_set, set_byte.
  destruct (img !! o) as [b|] eqn:E; cbn [snd]; [|reflexivity].
  destruct (decide _) as [Hlt|Hge]; cbn [snd]; [|reflexivity].
  unfold stored_bit. rewrite list_lookup_insert_eq by exact Hlt. rewrite E.
  cbn [fmap option_fmap option_map]. f_equal.
  rewrite testbit_stored_bit by lia.
  replace (k <? 8) with true by lia. replace (k =? s) with false by lia.
  reflexivity.
Qed.

(** X20. A write of a channel that is not empty leaves the reserved
    part of the record as it was: the five bytes [empty[5]] at the end
    of the record and the two undeclared flag bits [unA] and [unB] are
    the same before and after [set_memory], whether it returns or
    raises. *)
Theorem set_memory_keeps_reserved :
  forall (TONES DTCS_CODES : list Z) (mem : Memory) (c : nat) (img : list Z),
    empty mem = false ->
    _get_special (Num (number mem)) = Ok (Some c) ->
    let img' := snd (set_memory TONES DTCS_CODES mem img) in
    (forall i : nat, (c + 11 <= i < c + channel.size)%nat -> img' !! i = img !! i)
    /\ stored_bit (channel.flags c) channel.unA img'
       = stored_bit (channel.flags c) channel.unA img
    /\ stored_bit (channel.flags c) channel.unB img'
       = stored_bit (channel.flags c) channel.unB img.
Proof.
  intros TONES DTCS_CODES mem c img He Hc img'.
  assert (Hbits : forall k : Z,
    k = channel.unA \/ k = channel.unB ->
    stored_bit (channel.flags c) k img' = stored_bit (channel.flags c) k img).
  { intros k Hk.
    apply (set_memory_keeps (stored_bit (channel.flags c) k) TONES DTCS_CODES mem c He Hc).
    - intros j v Hj. apply keeps_bit_set_byte. unfold channel.flags. lia.
    - intros s v Hs. apply keeps_bit_bits_set.
      + repeat (apply elem_of_cons in Hs; destruct Hs as [->|Hs];
                [unfold channel.offminus, channel.offplus, channel.rtondinv,
                   channel.ttondinv, channel.wide, channel.noskip; lia|]).
        apply elem_of_nil in Hs. contradiction.
      + destruct Hk as [->| ->]; unfold channel.unA, channel.unB; lia.
      + repeat (apply elem_of_cons in Hs; destruct Hs as [->|Hs];
                [destruct Hk as [->| ->]; discriminate|]).
        apply elem_of_nil in Hs. contradiction. }
  split; [|split].
  - intros i Hi.
    apply (set_memory_keeps (fun img => img !! i) TONES DTCS_CODES mem c He Hc).
    + intros j v Hj. apply keeps_byte_set_byte. lia.
    + intros s v _. apply keeps_byte_bits_set. unfold channel.flags. lia.
  - apply Hbits. left. reflexivity.
  - apply Hbits. right. reflexivity.
Qed.

Lemma set_memory_keeps_reserved_witness :
  let img' := snd (set_memory chirp_TONES chirp_DTCS_CODES channel_simplex image_zero) in
  (forall i : nat, (16 + 11 <= i < 16 + channel.size)%nat -> img' !! i = image_zero !! i)
  /\ stored_bit (channel.flags 16) channel.unA img'
     = stored_bit (channel.flags 16) channel.unA image_zero
  /\ stored_bit (channel.flags 16) channel.unB img'
     = stored_bit (channel.flags 16) channel.unB image_zero.
Proof.
  apply (set_memory_keeps_reserved chirp_TONES chirp_DTCS_CODES channel_simplex
           16%nat image_zero).
  - reflexivity.
  - reflexivity.
Defined.

(** ** Erasing a channel *)

Lemma set_raw_app (data : list Z) :
  forall (pre old post : list Z),
    length old = length data ->
    set_raw (length pre) data (pre ++ old ++ post) = (Ok tt, pre ++ data ++ post).
Proof.
  induction data as [|b r IH]; intros pre old post Hl.
  - destruct old; [reflexivity | discriminate].
  - destruct old as [|o old]; [discriminate|].
    cbn [set_raw app]. unfold bind.
    rewrite <- (Nat.add_0_r (length pre)) at 1.
    rewrite set_byte_app by (cbn [length]; lia).
    cbn [insert list_insert].
    replace (S (length pre)) with (length (pre ++ [b]))
      by (rewrite length_app; cbn [length]; lia).
    replace (pre ++ b :: old ++ post) with ((pre ++ [b]) ++ old ++ post)
      by (rewrite <- app_assoc; reflexivity).
    rewrite IH by (cbn [length] in Hl; lia).
    rewrite <- app_assoc. reflexivity.
Qed.

(** X21. Erasing a channel.  For a channel value marked empty whose
    number stands for a record that the image holds, [set_memory]
    succeeds and the image it leaves is the image before with the 16
    bytes of the record replaced by 0xFF; [get_memory] of that number
    then returns an empty value that carries the number and nothing of
    what the value given to [set_memory] held. *)
Theorem erase_then_get_memory :
  forall (TONES DTCS_CODES : list Z) (mem : Memory) (c : nat) (img : list Z),
    empty mem = true ->
    _get_special (Num (number mem)) = Ok (Some c) ->
    (c + channel.size <= length img)%nat ->
    let img' := take c img ++ repeat 255 channel.size ++ drop (c + channel.size) img in
    set_memory TONES DTCS_CODES mem img = (Ok mem, img')
    /\ get_memory TONES DTCS_CODES (Num (number mem)) img'
       = (Ok (with_empty true (with_number (number mem) Memory_new)), img').
Proof.
  intros TONES DTCS_CODES mem c img He Hc Hlen img'.
  assert (Hpre : length (take c img) = c) by (rewrite length_take; lia).
  split.
  - unfold set_memory. rewrite Hc, He. cbn [of_result]. unfold deref, of_option.
    unfold bind at 1. unfold bind at 1. cbn [ret].
    rewrite <- (take_drop c img) at 1.
    rewrite <- (take_drop channel.size (drop c img)) at 1.
    rewrite drop_drop.
    unfold bind. rewrite <- Hpre at 1.
    rewrite set_raw_app.
    + reflexivity.
    + rewrite length_take, length_drop, repeat_length. unfold channel.size in *. lia.
  - unfold get_memory. rewrite Hc. cbn [of_result]. unfold deref, of_option.
    unfold bind at 1. unfold bind at 1. unfold bind at 1. cbn [ret].
    unfold bind. unfold img'. rewrite <- Hpre at 1.
    rewrite (get_byte_app0 _ _ 255) by reflexivity.
    reflexivity.
Qed.

Lemma erase_then_get_memory_witness :
  let mem := with_empty true channel_simplex in
  let img' := take 16 image_zero ++ repeat 255 channel.size
                ++ drop (16 + channel.size) image_zero in
  set_memory chirp_TONES chirp_DTCS_CODES mem image_zero = (Ok mem, img')
  /\ get_memory chirp_TONES chirp_DTCS_CODES (Num (number mem)) img'
     = (Ok (with_empty true (with_number (number mem) Memory_new)), img').
Proof.
  apply (erase_then_get_memory chirp_TONES chirp_DTCS_CODES
           (with_empty true channel_simplex) 16%nat image_zero).
  - reflexivity.
  - reflexivity.
  - apply Nat.leb_le. vm_compute. reflexivity.
Defined.

(** ** Writing back what was read *)

Lemma returns_on_ret {A : Type} (L : nat) (Q : A -> Prop) (a : A) :
  Q a -> returns_on L Q (ret a).
Proof. intros HQ img _. exists a, img. repeat split. exact HQ. Qed.

Lemma returns_on_bind {A B : Type} (L : nat) (Q : A -> Prop) (R : B -> Prop)
      (c : M (list Z) A) (k : A -> M (list Z) B) :
  returns_on L Q c -> (forall a, Q a -> returns_on L R (k a)) ->
  returns_on L R (bind c k).
Proof.
  intros Hc Hk img Hl. destruct (Hc img Hl) as (a & img1 & E & Hl1 & HQ).
  destruct (Hk a HQ img1 ltac:(lia)) as (b & img2 & E2 & Hl2 & HR).
  exists b, img2. unfold bind. rewrite E. split; [exact E2|]. split; [lia | exact HR].
Qed.

Lemma returns_on_try_except {A : Type} (L : nat) (Q : A -> Prop)
      (c : M (list Z) A) (h : error -> M (list Z) A) :
  returns_on L Q c -> returns_on L Q (try_except c h).
Proof.
  intros Hc img Hl. destruct (Hc img Hl) as (a & img1 & E & Hl1 & HQ).
  exists a, img1. unfold try_except. rewrite E. repeat split; assumption.
Qed.

Lemma returns_on_set_byte (L off : nat) (v : Z) :
  (off < L)%nat -> returns_on L (fun _ => True) (set_byte off v).
Proof.
  intros Ho img Hl. unfold set_byte.
  destruct (decide (off < length img)%nat) as [_|H]; [|lia].
  exists tt, (<[off := v]> img). split; [reflexivity|].
  split; [apply length_insert | exact I].
Qed.

Lemma returns_on_bits_set (L off : nat) (shift nbits v : Z) :
  (off < L)%nat -> returns_on L (fun _ => True) (bits_set off shift nbits v).
Proof.
  intros Ho img Hl. unfold bits_set, bind, u8_get, get_byte.
  destruct (img !! off) as [b|] eqn:E.
  - apply (returns_on_set_byte L off _ Ho img Hl).
  - apply lookup_ge_None in E. lia.
Qed.

Lemma returns_on_lbcd_set_items (L : nat) (offs : list nat) (value : Z) :
  Forall (fun o => (o < L)%nat) offs ->
  returns_on L (fun _ => True) (lbcd_set_items offs value).
Proof.
  intros H. revert value. induction H as [|o r Ho _ IH]; intros value;
    cbn [lbcd_set_items].
  - apply returns_on_ret. exact I.
  - apply (returns_on_bind L (fun _ => True)).
    + apply returns_on_set_byte, Ho.
    + intros _ _. apply IH.
Qed.

Lemma returns_on_lbcd_set (L base n : nat) (value : Z) :
  (base + n <= L)%nat -> returns_on L (fun _ => True) (lbcd_set base n value).
Proof.
  intros H. apply returns_on_lbcd_set_items. unfold items.
  apply Forall_forall. intros o Ho.
  apply list_elem_of_In, in_map_iff in Ho. destruct Ho as (k & <- & Hk).
  apply in_seq in Hk. lia.
Qed.

Lemma returns_on_set_raw (L : nat) (data : list Z) :
  forall c : nat,
    (c + length data <= L)%nat -> returns_on L (fun _ => True) (set_raw c data).
Proof.
  induction data as [|b r IH]; intros c Hc; cbn [set_raw].
  - apply returns_on_ret. exact I.
  - cbn [length] in Hc. apply (returns_on_bind L (fun _ => True)).
    + apply returns_on_set_byte. lia.
    + intros _ _. apply IH. lia.
Qed.

Lemma returns_on_index {A : Type} `{EqDecision A} (L : nat) (x : A) (l : list A)
      (e : error) :
  x ∈ l -> returns_on L (fun _ => True) (of_option (index x l) e).
Proof.
  intros Hin. destruct (index_Some x l Hin) as (i & Hi & _). rewrite Hi.
  apply returns_on_ret. exact I.
Qed.

(** [_encode_tone] accepts every tone of the tables. *)
Lemma returns_on_encode_tone (TONES DTCS_CODES : list Z) (L memtone flags : nat)
      (meminv : Z) (t : tonespec) :
  valid_tone TONES DTCS_CODES t = true ->
  (memtone < L)%nat -> (flags < L)%nat ->
  returns_on L (fun _ => True)
    (_encode_tone TONES DTCS_CODES memtone flags meminv t).
Proof.
  intros Hv Hm Hf.
  assert (Hstore : forall v inv,
             returns_on L (fun _ => True)
               (u8_set memtone v ;;; bits_set flags meminv 1 inv)).
  { intros v inv. apply (returns_on_bind L (fun _ => True)).
    - apply returns_on_set_byte, Hm.
    - intros _ _. apply returns_on_bits_set, Hf. }
  destruct t as [m v p]. unfold valid_tone in Hv. cbn [t_mode t_value t_pol] in Hv.
  destruct m as [m|]; [|discriminate].
  unfold _encode_tone. cbn [t_mode t_value t_pol].
  destruct (decide (Some m = Some "" \/ Some m = None)) as [_|Hn1]; [apply Hstore|].
  destruct (decide (m = "")) as [->|Hm1]; [exfalso; apply Hn1; left; reflexivity|].
  destruct (decide (m = "Tone")) as [->|Hm2].
  - destruct (decide (Some "Tone" = Some "Tone")) as [_|Hn]; [|congruence].
    destruct v as [v|]; [|discriminate].
    apply andb_true_iff in Hv. destruct Hv as [Hin _].
    apply bool_decide_eq_true in Hin.
    apply returns_on_try_except.
    apply (returns_on_bind L (fun _ => True)).
    + apply returns_on_index, Hin.
    + intros i _. apply Hstore.
  - destruct (decide (Some m = Some "Tone")) as [H|_]; [congruence|].
    destruct (decide (m = "DTCS")) as [->|Hm3]; [|discriminate].
    destruct (decide (Some "DTCS" = Some "DTCS")) as [_|Hn]; [|congruence].
    destruct v as [v|]; [|discriminate].
    destruct p as [p|]; [|discriminate].
    apply andb_true_iff in Hv. destruct Hv as [Hin _].
    apply bool_decide_eq_true in Hin.
    apply returns_on_try_except.
    apply (returns_on_bind L (fun _ => True)).
    + apply returns_on_index, Hin.
    + intros i _. destruct (decide (Some p = Some "R")); apply Hstore.
Qed.

(** X22. A channel value that [get_memory] returned is accepted by
    [set_memory]: on every image that holds the channel records (at
    least WRITE_SIZE bytes), [set_memory] of that value returns the
    value and keeps the length of the image.  None of the lookups of
    [set_memory] (the record of the number, the bandwidth and skip
    lists, the two tone tables) can fail on a value that was read. *)
Theorem get_memory_result_is_settable :
  forall (TONES DTCS_CODES : list Z) (sel : selector) (img img' : list Z)
         (mem : Memory) (img2 : list Z),
    get_memory TONES DTCS_CODES sel img = (Ok mem, img') ->
    (WRITE_SIZE <= length img2)%nat ->
    exists img2',
      set_memory TONES DTCS_CODES mem img2 = (Ok mem, img2')
      /\ length img2' = length img2.
Proof.
  intros TONES DTCS_CODES sel img img' mem img2 Hget Hlen.
  destruct (get_memory_ok_inv _ _ _ _ _ _ Hget)
    as ((c0 & Hc0) & Hsel & Hm & Hs & _ & (tv & ti & Ht) & (rv & ri & Hr)).
  apply decode_tone_valid in Ht, Hr.
  assert (Hc : exists c, _get_special (Num (number mem)) = Ok (Some c)).
  { destruct sel as [n|s].
    - destruct Hsel as [-> _]. exists c0. exact Hc0.
    - destruct Hsel as [Hd _]. unfold SPECIALS in Hd. cbn [dict_get] in Hd.
      destruct (decide (s = "EMG")); [|destruct (decide (s = "RLY"))];
        inversion Hd; eexists; reflexivity. }
  destruct Hc as (c & Hc).
  pose proof (record_below_write_size c (c + 15) (get_special_record _ _ Hc)
                ltac:(unfold in_region, channel.size; lia)) as Hfit.
  assert (Hrun : returns_on WRITE_SIZE (fun a => a = mem)
                   (set_memory TONES DTCS_CODES mem)).
  { unfold set_memory. rewrite Hc. cbn [of_result]. unfold deref, of_option.
    apply (returns_on_bind _ (fun a => a = Some c)); [apply returns_on_ret; reflexivity|].
    intros _mem ->.
    apply (returns_on_bind _ (fun a => a = c)); [apply returns_on_ret; reflexivity|].
    intros c' ->.
    unfold channel.rxfreq, channel.txoffset, channel.flags, channel.txtone,
      channel.rxtone.
    destruct (empty mem).
    - apply (returns_on_bind _ (fun _ => True)).
      + apply returns_on_set_raw. rewrite repeat_length. lia.
      + intros _ _. apply returns_on_ret. reflexivity.
    - repeat first
        [ apply returns_on_ret; reflexivity
        | apply returns_on_ret; exact I
        | apply returns_on_lbcd_set; lia
        | apply returns_on_bits_set; lia
        | apply returns_on_index; assumption
        | apply returns_on_encode_tone; [assumption | lia | lia]
        | match goal with
          | |- returns_on _ _ (bind _ _) =>
              apply (returns_on_bind _ (fun _ => True)); [ | intros ? _ ]
          | |- returns_on _ _ (if ?b then _ else _) => destruct b
          end ]. }
  destruct (Hrun img2 Hlen) as (a & img2' & E & Hl & ->).
  exists img2'. split; assumption.
Qed.

Lemma get_memory_result_is_settable_witness :
  exists img2',
    set_memory chirp_TONES chirp_DTCS_CODES channel_simplex_offset image_zero
    = (Ok channel_simplex_offset, img2')
    /\ length img2' = length image_zero.
Proof.
  apply (get_memory_result_is_settable chirp_TONES chirp_DTCS_CODES (Num 1)
           image_simplex_offset image_simplex_offset channel_simplex_offset image_zero).
  - vm_compute. reflexivity.
  - apply Nat.leb_le. vm_compute. reflexivity.
Defined.

(** ** Reading a channel and writing it back *)

Lemma bits_insert_same (b s v : Z) :
  0 <= b < 256 -> 0 <= s < 8 -> bits_extract b s 1 = v ->
  Z.land (bits_insert b s 1 v) 255 = b.
Proof.
  intros Hb Hs <-.
  assert (H : forallb (fun k => forallb (fun j =>
              Z.land (bits_insert (Z.of_nat k) (Z.of_nat j) 1
                        (bits_extract (Z.of_nat k) (Z.of_nat j) 1)) 255
              =? Z.of_nat k) (seq 0 8)) (seq 0 256) = true)
    by (vm_compute; reflexivity).
  rewrite forallb_forall in H.
  specialize (H (Z.to_nat b) ltac:(apply in_seq; lia)).
  rewrite forallb_forall in H.
  specialize (H (Z.to_nat s) ltac:(apply in_seq; lia)).
  rewrite !Z2Nat.id in H by lia. apply Z.eqb_eq, H.
Qed.

Lemma bits_extract_bit (b s : Z) :
  0 <= s -> bits_extract b s 1 = 0 \/ bits_extract b s 1 = 1.
Proof.
  intros Hs. rewrite bits_extract_1 by lia. destruct (Z.testbit b s); auto.
Qed.

Lemma valid_bcd_repack (b : Z) :
  valid_bcd b = true ->
  0 <= fst (bcd_digits b) * 10 + snd (bcd_digits b) < 100
  /\ bcd_pack (fst (bcd_digits b) * 10 + snd (bcd_digits b)) = b.
Proof.
  intros Hv.
  assert (Hb : 0 <= b < 256) by (unfold valid_bcd in Hv; lia).
  assert (H : forallb (fun k =>
              let b := Z.of_nat k in
              let d := fst (bcd_digits b) * 10 + snd (bcd_digits b) in
              implb (valid_bcd b) ((0 <=? d) && (d <? 100) && (bcd_pack d =? b)))
            (seq 0 256) = true)
    by (vm_compute; reflexivity).
  rewrite forallb_forall in H.
  specialize (H (Z.to_nat b) ltac:(apply in_seq; lia)).
  cbv zeta in H. rewrite Z2Nat.id in H by lia. rewrite Hv in H. cbn [implb] in H.
  lia.
Qed.

Lemma valid_bcd_not_255 (b : Z) : valid_bcd b = true -> (b =? 255) = false.
Proof.
  intros Hv. destruct (Z.eqb_spec b 255) as [->|]; [discriminate | reflexivity].
Qed.

Lemma lbcd4_unpack (b0 b1 b2 b3 : Z) :
  valid_bcd b0 = true -> valid_bcd b1 = true ->
  valid_bcd b2 = true -> valid_bcd b3 = true ->
  0 <= lbcd4 b0 b1 b2 b3
  /\ bcd_pack (lbcd4 b0 b1 b2 b3 mod 100) = b0
  /\ bcd_pack ((lbcd4 b0 b1 b2 b3 / 100) mod 100) = b1
  /\ bcd_pack (((lbcd4 b0 b1 b2 b3 / 100) / 100) mod 100) = b2
  /\ bcd_pack ((((lbcd4 b0 b1 b2 b3 / 100) / 100) / 100) mod 100) = b3.
Proof.
  intros H0 H1 H2 H3.
  destruct (valid_bcd_repack _ H0) as [R0 P0].
  destruct (valid_bcd_repack _ H1) as [R1 P1].
  destruct (valid_bcd_repack _ H2) as [R2 P2].
  destruct (valid_bcd_repack _ H3) as [R3 P3].
  unfold lbcd4.
  set (v0 := fst (bcd_digits b0) * 10 + snd (bcd_digits b0)) in *.
  set (v1 := fst (bcd_digits b1) * 10 + snd (bcd_digits b1)) in *.
  set (v2 := fst (bcd_digits b2) * 10 + snd (bcd_digits b2)) in *.
  set (v3 := fst (bcd_digits b3) * 10 + snd (bcd_digits b3)) in *.
  set (q := ((v3 * 100 + v2) * 100 + v1) * 100 + v0).
  assert (E0 : q mod 100 = v0) by (unfold q; Z.div_mod_to_equations; lia).
  assert (D0 : q / 100 = (v3 * 100 + v2) * 100 + v1)
    by (unfold q; Z.div_mod_to_equations; lia).
  assert (E1 : ((v3 * 100 + v2) * 100 + v1) mod 100 = v1)
    by (Z.div_mod_to_equations; lia).
  assert (D1 : ((v3 * 100 + v2) * 100 + v1) / 100 = v3 * 100 + v2)
    by (Z.div_mod_to_equations; lia).
  assert (E2 : (v3 * 100 + v2) mod 100 = v2) by (Z.div_mod_to_equations; lia).
  assert (D2 : (v3 * 100 + v2) / 100 = v3) by (Z.div_mod_to_equations; lia).
  assert (E3 : v3 mod 100 = v3) by (apply Z.mod_small; lia).
  rewrite E0, D0, E1, D1, E2, D2, E3.
  repeat split; try assumption. unfold q. lia.
Qed.

Lemma index_py_getitem {A : Type} `{EqDecision A} (l : list A) (i : Z) (x : A) :
  NoDup l -> 0 <= i -> py_getitem l i = Some x ->
  index x l = Some (Z.to_nat i).
Proof.
  intros Hnd Hi Hg. apply index_lookup; [exact Hnd|].
  apply py_getitem_nonneg; assumption.
Qed.

Lemma inversion_bit_kept (val inv : Z) :
  inv = 0 \/ inv = 1 ->
  (inv =? 0) || (50 <? val) = true ->
  (if (val >? 50) && (inv =? 1) then 1 else 0) = inv.
Proof.
  intros [-> | ->] H; cbn [Z.eqb orb andb] in *.
  - rewrite andb_false_r. reflexivity.
  - replace (val >? 50) with true by lia. reflexivity.
Qed.

Lemma work_out_polarity_freq (offminus offplus : Z) (mem : Memory) :
  freq (work_out_polarity offminus offplus mem) = freq mem
  /\ mode (work_out_polarity offminus offplus mem) = mode mem.
Proof.
  unfold work_out_polarity.
  destruct (negb (offset mem =? 0)); [|split; reflexivity].
  destruct (offminus =? 1), (offplus =? 1);
    cbn [offset freq duplex with_duplex with_offset];
    match goal with
    | |- context [if ?b then _ else _] => destruct b
    end; split; reflexivity.
Qed.

(** Assignments that store what is already there. *)
Lemma bits_set_same (pre l : list Z) (k : nat) (b s v : Z) :
  l !! k = Some b -> 0 <= b < 256 -> 0 <= s < 8 -> bits_extract b s 1 = v ->
  bits_set (length pre + k) s 1 v (pre ++ l) = (Ok tt, pre ++ l).
Proof.
  intros Hk Hb Hs Hv. rewrite (bits_set_app _ _ _ _ _ _ _ Hk).
  rewrite bits_insert_same by assumption.
  rewrite list_insert_id by exact Hk. reflexivity.
Qed.

Lemma lbcd_set_digits (pre l : list Z) (k : nat) (q b0 b1 b2 b3 : Z) :
  l !! k = Some b0 -> l !! (k + 1)%nat = Some b1 ->
  l !! (k + 2)%nat = Some b2 -> l !! (k + 3)%nat = Some b3 ->
  bcd_pack (q mod 100) = b0 ->
  bcd_pack ((q / 100) mod 100) = b1 ->
  bcd_pack (((q / 100) / 100) mod 100) = b2 ->
  bcd_pack ((((q / 100) / 100) / 100) mod 100) = b3 ->
  lbcd_set (length pre + k) 4 q (pre ++ l) = (Ok tt, pre ++ l).
Proof.
  intros H0 H1 H2 H3 U0 U1 U2 U3.
  rewrite lbcd_set_app by (apply lookup_lt_Some in H3; lia).
  rewrite U0, U1, U2, U3.
  rewrite (list_insert_id l k) by exact H0.
  rewrite (list_insert_id l (k + 1)) by exact H1.
  rewrite (list_insert_id l (k + 2)) by exact H2.
  rewrite (list_insert_id l (k + 3)) by exact H3.
  reflexivity.
Qed.

Lemma lbcd_set_same (pre l : list Z) (k : nat) (b0 b1 b2 b3 : Z) :
  l !! k = Some b0 -> l !! (k + 1)%nat = Some b1 ->
  l !! (k + 2)%nat = Some b2 -> l !! (k + 3)%nat = Some b3 ->
  valid_bcd b0 = true -> valid_bcd b1 = true ->
  valid_bcd b2 = true -> valid_bcd b3 = true ->
  lbcd_set (length pre + k) 4 (lbcd4 b0 b1 b2 b3) (pre ++ l) = (Ok tt, pre ++ l).
Proof.
  intros H0 H1 H2 H3 V0 V1 V2 V3.
  destruct (lbcd4_unpack _ _ _ _ V0 V1 V2 V3) as (_ & U0 & U1 & U2 & U3).
  apply (lbcd_set_digits pre l k _ b0 b1 b2 b3); assumption.
Qed.

Lemma encode_tone_same (TONES DTCS_CODES : list Z) (pre l : list Z) (kt kf : nat)
      (val bf s : Z) (t : tonespec) :
  NoDup TONES -> NoDup (DTCS DTCS_CODES) ->
  l !! kt = Some val -> l !! kf = Some bf -> kt <> kf ->
  0 <= val < 256 -> 0 <= bf < 256 -> 0 <= s < 8 ->
  (bits_extract bf s 1 =? 0) || (50 <? val) = true ->
  _decode_tone TONES DTCS_CODES val (bits_extract bf s 1) = Ok t ->
  _encode_tone TONES DTCS_CODES (length pre + kt) (length pre + kf) s t (pre ++ l)
  = (Ok tt, pre ++ l).
Proof.
  intros HT HD Hkt Hkf Hne Hval Hbf Hs Hinv Hdec.
  rewrite (encode_decoded_tone TONES DTCS_CODES val (bits_extract bf s 1) t
             pre l kt kf bf s HT HD ltac:(lia) Hdec
             (lookup_lt_Some _ _ _ Hkt) Hkf Hne).
  rewrite inversion_bit_kept by (first [apply bits_extract_bit; lia | exact Hinv]).
  rewrite bits_insert_same by (first [assumption | reflexivity]).
  rewrite (list_insert_id l kt) by exact Hkt.
  rewrite (list_insert_id l kf) by exact Hkf.
  reflexivity.
Qed.

(** What [work_out_polarity] gives on the flags and the offset of a
    record in normal form. *)
Lemma work_out_polarity_normal (om op : Z) (mem : Memory) :
  om = 0 \/ om = 1 -> op = 0 \/ op = 1 ->
  duplex mem = "" -> 0 <= offset mem ->
  (if offset mem =? 0 then (om =? 0) && (op =? 0)
   else if offset mem <=? 71000000 then negb ((om =? 1) && (op =? 1))
   else negb (om =? op)) = true ->
  (duplex (work_out_polarity om op mem) = ""
   /\ offset (work_out_polarity om op mem) = offset mem /\ om = 0 /\ op = 0)
  \/ (duplex (work_out_polarity om op mem) = "+"
      /\ offset (work_out_polarity om op mem) = offset mem /\ om = 0 /\ op = 1)
  \/ (duplex (work_out_polarity om op mem) = "-"
      /\ offset (work_out_polarity om op mem) = offset mem /\ om = 1 /\ op = 0)
  \/ (duplex (work_out_polarity om op mem) = "split"
      /\ offset (work_out_polarity om op mem) = freq mem - offset mem
      /\ om = 1 /\ op = 0 /\ 0 < offset mem)
  \/ (duplex (work_out_polarity om op mem) = "split"
      /\ offset (work_out_polarity om op mem) = freq mem + offset mem
      /\ om = 0 /\ op = 1 /\ 0 < offset mem).
Proof.
  intros Hom Hop Hd Hoff Hpol. unfold work_out_polarity.
  destruct (Z.eqb_spec (offset mem) 0) as [Ez|Ez]; cbn [negb].
  - left. assert (om = 0 /\ op = 0) as [-> ->] by lia. auto.
  - destruct (Z.leb_spec (offset mem) 71000000) as [Ele|Egt].
    + destruct Hom as [-> | ->], Hop as [-> | ->]; try discriminate Hpol;
        cbn [Z.eqb Pos.eqb offset freq duplex with_duplex with_offset];
        replace (offset mem >? 71000000) with false by lia.
      * left. auto.
      * right. left. auto.
      * right. right. left. auto.
    + destruct Hom as [-> | ->], Hop as [-> | ->]; try discriminate Hpol;
        cbn [Z.eqb Pos.eqb offset freq duplex with_duplex with_offset];
        replace (offset mem >? 71000000) with true by lia;
        cbn [offset freq duplex with_duplex with_offset].
      * right. right. right. right. repeat split; lia.
      * right. right. right. left. repeat split; lia.
Qed.

(** The offset and the direction flags that [set_memory] derives from
    the duplex that [get_memory] worked out are the ones the record
    holds. *)
Lemma polarity_block_same (pre post : list Z)
      (b0 b1 b2 b3 b4 b5 b6 b7 b8 b9 b10 b11 b12 b13 b14 b15 tx rx : Z)
      (P : Memory) (B : Type) (k : M (list Z) B) :
  0 <= b10 < 256 -> 0 <= tx ->
  bcd_pack (tx mod 100) = b5 ->
  bcd_pack ((tx / 100) mod 100) = b6 ->
  bcd_pack (((tx / 100) / 100) mod 100) = b7 ->
  bcd_pack ((((tx / 100) / 100) / 100) mod 100) = b8 ->
  freq P = rx * 10 ->
  (duplex P = "" /\ offset P = tx * 10
   /\ bits_extract b10 channel.offminus 1 = 0 /\ bits_extract b10 channel.offplus 1 = 0)
  \/ (duplex P = "+" /\ offset P = tx * 10
      /\ bits_extract b10 channel.offminus 1 = 0
      /\ bits_extract b10 channel.offplus 1 = 1)
  \/ (duplex P = "-" /\ offset P = tx * 10
      /\ bits_extract b10 channel.offminus 1 = 1
      /\ bits_extract b10 channel.offplus 1 = 0)
  \/ (duplex P = "split" /\ offset P = rx * 10 - tx * 10
      /\ bits_extract b10 channel.offminus 1 = 1
      /\ bits_extract b10 channel.offplus 1 = 0 /\ 0 < tx * 10)
  \/ (duplex P = "split" /\ offset P = rx * 10 + tx * 10
      /\ bits_extract b10 channel.offminus 1 = 0
      /\ bits_extract b10 channel.offplus 1 = 1 /\ 0 < tx * 10) ->
  (lbcd_set (length pre + 5) 4 (offset P `quot` 10);;;
   (if decide (duplex P = "")
    then
     bits_set (length pre + 10) channel.offplus 1 0;;;
     bits_set (length pre + 10) channel.offminus 1 0
    else
     if decide (duplex P = "+")
     then
      bits_set (length pre + 10) channel.offplus 1 1;;;
      bits_set (length pre + 10) channel.offminus 1 0
     else
      if decide (duplex P = "-")
      then
       bits_set (length pre + 10) channel.offplus 1 0;;;
       bits_set (length pre + 10) channel.offminus 1 1
      else
       if decide (duplex P = "split")
       then
        if freq P >? offset P
        then
         bits_set (length pre + 10) channel.offplus 1 0;;;
         bits_set (length pre + 10) channel.offminus 1 1;;;
         lbcd_set (length pre + 5) 4 ((freq P - offset P) `quot` 10)
        else
         bits_set (length pre + 10) channel.offplus 1 1;;;
         bits_set (length pre + 10) channel.offminus 1 0;;;
         lbcd_set (length pre + 5) 4 ((offset P - freq P) `quot` 10)
       else ret ());;;
   k)
    (pre ++ b0 :: b1 :: b2 :: b3 :: b4 :: b5 :: b6 :: b7 :: b8 :: b9 :: b10
         :: b11 :: b12 :: b13 :: b14 :: b15 :: post)
  = k (pre ++ b0 :: b1 :: b2 :: b3 :: b4 :: b5 :: b6 :: b7 :: b8 :: b9 :: b10
           :: b11 :: b12 :: b13 :: b14 :: b15 :: post).
Proof.
  intros Hb10 Htx0 U5 U6 U7 U8 HPf Hcases.
  assert (Hplus : 0 <= channel.offplus < 8) by (unfold channel.offplus; lia).
  assert (Hminus : 0 <= channel.offminus < 8) by (unfold channel.offminus; lia).
  destruct Hcases as [(Hd & Ho & Eom & Eop) | [(Hd & Ho & Eom & Eop)
    | [(Hd & Ho & Eom & Eop) | [(Hd & Ho & Eom & Eop & Hpos)
    | (Hd & Ho & Eom & Eop & Hpos)]]]];
    rewrite Hd, Ho, ?HPf; decide_strings.
  1-3: rewrite Z.quot_mul by lia; rewrite ?bind_assoc;
       erewrite bind_ok
         by (apply (lbcd_set_digits _ _ _ _ b5 b6 b7 b8); first [reflexivity | assumption]);
       cbv beta; rewrite ?bind_assoc;
       erewrite bind_ok
         by (apply (bits_set_same _ _ _ b10); [reflexivity | lia | lia | assumption]);
       cbv beta; rewrite ?bind_assoc;
       erewrite bind_ok
         by (apply (bits_set_same _ _ _ b10); [reflexivity | lia | lia | assumption]);
       reflexivity.
  - replace (rx * 10 >? rx * 10 - tx * 10) with true by lia.
    replace (rx * 10 - (rx * 10 - tx * 10)) with (tx * 10) by lia.
    rewrite Z.quot_mul by lia. rewrite ?bind_assoc.
    erewrite bind_ok by (apply lbcd_set_app; cbn [length]; lia).
    cbv beta. cbn [insert list_insert Nat.add]. rewrite ?bind_assoc.
    erewrite bind_ok
      by (apply (bits_set_same _ _ _ b10); [reflexivity | lia | lia | assumption]).
    cbv beta. rewrite ?bind_assoc.
    erewrite bind_ok
      by (apply (bits_set_same _ _ _ b10); [reflexivity | lia | lia | assumption]).
    cbv beta. rewrite ?bind_assoc.
    erewrite bind_ok by (apply lbcd_set_app; cbn [length]; lia).
    cbv beta. cbn [insert list_insert Nat.add].
    rewrite U5, U6, U7, U8. reflexivity.
  - replace (rx * 10 >? rx * 10 + tx * 10) with false by lia.
    replace (rx * 10 + tx * 10 - rx * 10) with (tx * 10) by lia.
    rewrite Z.quot_mul by lia. rewrite ?bind_assoc.
    erewrite bind_ok by (apply lbcd_set_app; cbn [length]; lia).
    cbv beta. cbn [insert list_insert Nat.add]. rewrite ?bind_assoc.
    erewrite bind_ok
      by (apply (bits_set_same _ _ _ b10); [reflexivity | lia | lia | assumption]).
    cbv beta. rewrite ?bind_assoc.
    erewrite bind_ok
      by (apply (bits_set_same _ _ _ b10); [reflexivity | lia | lia | assumption]).
    cbv beta. rewrite ?bind_assoc.
    erewrite bind_ok by (apply lbcd_set_app; cbn [length]; lia).
    cbv beta. cbn [insert list_insert Nat.add].
    rewrite U5, U6, U7, U8. reflexivity.
Qed.

Section ReadWrite.

Variable TONES : list Z.
Variable DTCS_CODES : list Z.
Hypothesis TONES_NoDup : NoDup TONES.
Hypothesis DTCS_NoDup : NoDup (DTCS DTCS_CODES).

Lemma get_then_set_core (pre post : list Z)
      (b0 b1 b2 b3 b4 b5 b6 b7 b8 b9 b10 b11 b12 b13 b14 b15 : Z)
      (sel : selector) (mem : Memory) (img' : list Z) :
  let img := pre ++ [b0; b1; b2; b3; b4; b5; b6; b7; b8; b9; b10; b11; b12; b13; b14; b15]
                 ++ post in
  _get_special sel = Ok (Some (length pre)) ->
  normal_record [b0; b1; b2; b3; b4; b5; b6; b7; b8; b9; b10; b11; b12; b13; b14; b15]
  = true ->
  get_memory TONES DTCS_CODES sel img = (Ok mem, img') ->
  set_memory TONES DTCS_CODES mem img = (Ok mem, img).
Proof.
  intros img Hsel Hnorm Hget.
  unfold normal_record in Hnorm.
  apply andb_true_iff in Hnorm; destruct Hnorm as [Hnorm Hpol].
  apply andb_true_iff in Hnorm; destruct Hnorm as [Hnorm Hrinv].
  apply andb_true_iff in Hnorm; destruct Hnorm as [Hnorm Htinv].
  apply andb_true_iff in Hnorm; destruct Hnorm as [Hbcd Hbytes].
  cbn [forallb] in Hbcd, Hbytes.
  apply andb_true_iff in Hbcd; destruct Hbcd as [Hv0 Hbcd].
  apply andb_true_iff in Hbcd; destruct Hbcd as [Hv1 Hbcd].
  apply andb_true_iff in Hbcd; destruct Hbcd as [Hv2 Hbcd].
  apply andb_true_iff in Hbcd; destruct Hbcd as [Hv3 Hbcd].
  apply andb_true_iff in Hbcd; destruct Hbcd as [Hv5 Hbcd].
  apply andb_true_iff in Hbcd; destruct Hbcd as [Hv6 Hbcd].
  apply andb_true_iff in Hbcd; destruct Hbcd as [Hv7 Hbcd].
  apply andb_true_iff in Hbcd; destruct Hbcd as [Hv8 _].
  assert (Hb4 : 0 <= b4 < 256) by lia.
  assert (Hb9 : 0 <= b9 < 256) by lia.
  assert (Hb10 : 0 <= b10 < 256) by lia.
  clear Hbytes.
  assert (Hnum : _get_special (Num (number mem)) = Ok (Some (length pre))).
  { destruct (get_memory_ok_inv _ _ _ _ _ _ Hget) as (_ & Hid & _).
    destruct sel as [n|s].
    - destruct Hid as [-> _]. exact Hsel.
    - destruct Hid as [Hd _]. unfold SPECIALS in Hd. cbn [dict_get] in Hd.
      destruct (decide (s = "EMG")) as [->|]; [|destruct (decide (s = "RLY")) as [->|]];
        inversion Hd; exact Hsel. }
  unfold get_memory in Hget. rewrite Hsel in Hget. cbn [of_result] in Hget.
  read_inv Hget _mem H_mem. inversion H_mem; subst _mem; clear H_mem.
  read_inv Hget mem0 Hmem0.
  2:{ destruct sel; repeat read_only_step. }
  assert (Hempty0 : empty mem0 = false).
  { destruct sel as [n|s].
    - inversion Hmem0. reflexivity.
    - unfold bind in Hmem0.
      destruct (dict_get SPECIALS s); inversion Hmem0. reflexivity. }
  unfold deref in Hget.
  read_inv Hget c' Hc'. inversion Hc'; subst c'; clear Hc'.
  unfold channel.rxfreq, channel.txoffset, channel.flags, channel.txtone,
    channel.rxtone in Hget.
  read_inv Hget raw0 Hraw0.
  unfold img in Hraw0. rewrite (get_byte_app0 _ _ b0) in Hraw0 by reflexivity.
  inversion Hraw0; subst raw0; clear Hraw0.
  rewrite (valid_bcd_not_255 b0) in Hget by assumption.
  read_inv Hget rxfreq Hrx.
  unfold img in Hrx. erewrite lbcd_get_app in Hrx by reflexivity.
  inversion Hrx; subst rxfreq; clear Hrx.
  read_inv Hget txoffset Ho.
  unfold img in Ho. erewrite lbcd_get_app in Ho by reflexivity.
  inversion Ho; subst txoffset; clear Ho.
  read_inv Hget om Hom.
  unfold img in Hom. erewrite bits_get_app in Hom by reflexivity.
  inversion Hom; subst om; clear Hom.
  read_inv Hget op Hop.
  unfold img in Hop. erewrite bits_get_app in Hop by reflexivity.
  inversion Hop; subst op; clear Hop.
  read_inv Hget wide Hwide.
  unfold img in Hwide. erewrite bits_get_app in Hwide by reflexivity.
  inversion Hwide; subst wide; clear Hwide.
  read_inv Hget m Hm.
  read_inv Hget noskip Hnoskip.
  unfold img in Hnoskip. erewrite bits_get_app in Hnoskip by reflexivity.
  inversion Hnoskip; subst noskip; clear Hnoskip.
  read_inv Hget sk Hsk.
  read_inv Hget txt Htxt.
  unfold img in Htxt. erewrite u8_get_app in Htxt by reflexivity.
  inversion Htxt; subst txt; clear Htxt.
  read_inv Hget ttondinv Httondinv.
  unfold img in Httondinv. erewrite bits_get_app in Httondinv by reflexivity.
  inversion Httondinv; subst ttondinv; clear Httondinv.
  read_inv Hget txtone Htxtone.
  read_inv Hget rxt Hrxt.
  unfold img in Hrxt. erewrite u8_get_app in Hrxt by reflexivity.
  inversion Hrxt; subst rxt; clear Hrxt.
  read_inv Hget rtondinv Hrtondinv.
  unfold img in Hrtondinv. erewrite bits_get_app in Hrtondinv by reflexivity.
  inversion Hrtondinv; subst rtondinv; clear Hrtondinv.
  read_inv Hget rxtone Hrxtone.
  inversion Hget; subst mem img'. clear Hget.
  destruct (py_getitem MODES (bits_extract b10 channel.wide 1)) as [m'|] eqn:Em;
    inversion Hm; subst m'; clear Hm.
  destruct (py_getitem SKIP_VALUES (bits_extract b10 channel.noskip 1)) as [sk'|] eqn:Esk;
    inversion Hsk; subst sk'; clear Hsk.
  destruct (_decode_tone TONES DTCS_CODES b9 (bits_extract b10 channel.ttondinv 1))
    as [t1|] eqn:Et; inversion Htxtone; subst t1; clear Htxtone.
  destruct (_decode_tone TONES DTCS_CODES b4 (bits_extract b10 channel.rtondinv 1))
    as [t2|] eqn:Er; inversion Hrxtone; subst t2; clear Hrxtone.
  clear Hmem0.
  destruct (lbcd4_unpack _ _ _ _ Hv0 Hv1 Hv2 Hv3) as (Hrx0 & U0 & U1 & U2 & U3).
  destruct (lbcd4_unpack _ _ _ _ Hv5 Hv6 Hv7 Hv8) as (Htx0 & U5 & U6 & U7 & U8).
  remember (lbcd4 b0 b1 b2 b3) as rx eqn:Erx.
  remember (lbcd4 b5 b6 b7 b8) as tx eqn:Etx.
  clear Erx Etx Hv0 Hv1 Hv2 Hv3 Hv5 Hv6 Hv7 Hv8.
  pose proof (work_out_polarity_normal
                (bits_extract b10 channel.offminus 1)
                (bits_extract b10 channel.offplus 1)
                (with_duplex "" (with_offset (tx * 10) (with_freq (rx * 10) mem0)))
                (bits_extract_bit b10 channel.offminus ltac:(unfold channel.offminus; lia))
                (bits_extract_bit b10 channel.offplus ltac:(unfold channel.offplus; lia))
                eq_refl ltac:(cbn [offset with_duplex with_offset]; lia) Hpol) as Hcases.
  destruct (work_out_polarity_keeps (bits_extract b10 channel.offminus 1)
              (bits_extract b10 channel.offplus 1)
              (with_duplex "" (with_offset (tx * 10) (with_freq (rx * 10) mem0))))
    as (_ & _ & HPe).
  destruct (work_out_polarity_freq (bits_extract b10 channel.offminus 1)
              (bits_extract b10 channel.offplus 1)
              (with_duplex "" (with_offset (tx * 10) (with_freq (rx * 10) mem0))))
    as (HPf & _).
  cbn [offset freq empty with_duplex with_offset with_freq] in Hcases, HPe, HPf.
  rewrite Hempty0 in HPe.
  remember (work_out_polarity (bits_extract b10 channel.offminus 1)
              (bits_extract b10 channel.offplus 1)
              (with_duplex "" (with_offset (tx * 10) (with_freq (rx * 10) mem0))))
    as P eqn:HP.
  clear HP Hpol.
  unfold img. cbn [app].
  assert (HM : NoDup MODES) by (apply (bool_decide_unpack _); vm_compute; exact I).
  assert (HS : NoDup SKIP_VALUES) by (apply (bool_decide_unpack _); vm_compute; exact I).
  assert (Hw : 0 <= bits_extract b10 channel.wide 1)
    by (destruct (bits_extract_bit b10 channel.wide ltac:(unfold channel.wide; lia)); lia).
  assert (Hns : 0 <= bits_extract b10 channel.noskip 1)
    by (destruct (bits_extract_bit b10 channel.noskip ltac:(unfold channel.noskip; lia));
        lia).
  unfold set_memory.
  cbn [with_tones with_skip with_mode number empty freq offset duplex mode skip
       tx_tone rx_tone] in Hnum |- *.
  rewrite Hnum, HPe. cbn [of_result]. unfold deref, of_option.
  unfold channel.rxfreq, channel.txoffset, channel.flags, channel.txtone,
    channel.rxtone.
  erewrite bind_ok by reflexivity. cbv beta.
  erewrite bind_ok by reflexivity. cbv beta.
  replace (freq P `quot` 10) with rx
    by (rewrite HPf, Z.quot_mul by lia; reflexivity).
  erewrite bind_ok
    by (apply (lbcd_set_digits _ _ _ _ b0 b1 b2 b3); first [reflexivity | assumption]).
  cbv beta.
  rewrite (polarity_block_same pre post b0 b1 b2 b3 b4 b5 b6 b7 b8 b9 b10
             b11 b12 b13 b14 b15 tx rx P _ _ Hb10 Htx0 U5 U6 U7 U8 HPf).
  2:{ destruct Hcases as [H|[H|[H|[H|H]]]];
        [ left | right; left | right; right; left
        | right; right; right; left | right; right; right; right ];
        repeat split; try apply H; lia. }
  rewrite (index_py_getitem MODES _ m HM Hw Em).
  erewrite bind_ok by reflexivity. cbv beta.
  erewrite bind_ok
    by (apply (bits_set_same _ _ _ b10);
        [reflexivity | lia | unfold channel.wide; lia | rewrite Z2Nat.id by lia; reflexivity]).
  cbv beta.
  rewrite (index_py_getitem SKIP_VALUES _ sk HS Hns Esk).
  erewrite bind_ok by reflexivity. cbv beta.
  erewrite bind_ok
    by (apply (bits_set_same _ _ _ b10);
        [reflexivity | lia | unfold channel.noskip; lia
        | rewrite Z2Nat.id by lia; reflexivity]).
  cbv beta.
  erewrite bind_ok
    by (apply (encode_tone_same TONES DTCS_CODES _ _ _ _ b9 b10);
        [ exact TONES_NoDup | exact DTCS_NoDup | reflexivity | reflexivity | lia
        | lia | lia | unfold channel.ttondinv; lia | exact Htinv | exact Et ]).
  cbv beta.
  erewrite bind_ok
    by (apply (encode_tone_same TONES DTCS_CODES _ _ _ _ b4 b10);
        [ exact TONES_NoDup | exact DTCS_NoDup | reflexivity | reflexivity | lia
        | lia | lia | unfold channel.rtondinv; lia | exact Hrinv | exact Er ]).
  reflexivity.
Qed.

End ReadWrite.

(** X23. Reading a channel and writing it back leaves the image as it
    was.  With tables that hold no value twice, for a selector that
    stands for a record in normal form (decimal digits in both
    frequency fields, an inversion flag only next to a digital tone,
    direction flags that fit the offset), whatever [get_memory] returns
    for it is accepted by [set_memory], which then stores, byte for
    byte, what was there: the image after the write is the image
    before. *)
Theorem get_then_set_memory :
  forall (TONES DTCS_CODES : list Z) (sel : selector) (c : nat)
         (img img' : list Z) (mem : Memory),
    NoDup TONES ->
    NoDup (DTCS DTCS_CODES) ->
    _get_special sel = Ok (Some c) ->
    normal_record (take channel.size (drop c img)) = true ->
    get_memory TONES DTCS_CODES sel img = (Ok mem, img') ->
    set_memory TONES DTCS_CODES mem img = (Ok mem, img).
Proof.
  intros TONES DTCS_CODES sel c img img' mem HT HD Hsel Hnorm Hget.
  assert (Hlen : (c + 16 <= length img)%nat).
  { assert (H : length (take channel.size (drop c img)) = 16%nat).
    { destruct (take channel.size (drop c img))
        as [|c0 [|c1 [|c2 [|c3 [|c4 [|c5 [|c6 [|c7 [|c8 [|c9
           [|c10 [|c11 [|c12 [|c13 [|c14 [|c15 [|c16 r]]]]]]]]]]]]]]]]];
        try discriminate Hnorm. reflexivity. }
    rewrite length_take, length_drop in H. unfold channel.size in H. lia. }
  destruct (split_record img c Hlen) as
    (pre & post & c0 & c1 & c2 & c3 & c4 & c5 & c6 & c7 & c8 & c9 & c10 & c11
     & c12 & c13 & c14 & c15 & -> & <-).
  rewrite drop_app_length in Hnorm. unfold channel.size in Hnorm.
  change (take 16 ([c0; c1; c2; c3; c4; c5; c6; c7; c8; c9; c10; c11; c12; c13; c14; c15]
                     ++ post))
    with [c0; c1; c2; c3; c4; c5; c6; c7; c8; c9; c10; c11; c12; c13; c14; c15] in Hnorm.
  exact (get_then_set_core TONES DTCS_CODES HT HD pre post
           c0 c1 c2 c3 c4 c5 c6 c7 c8 c9 c10 c11 c12 c13 c14 c15
           sel mem img' Hsel Hnorm Hget).
Qed.

Lemma get_then_set_memory_witness :
  set_memory chirp_TONES chirp_DTCS_CODES channel_simplex_offset image_simplex_offset
  = (Ok channel_simplex_offset, image_simplex_offset).
Proof.
  apply (get_then_set_memory chirp_TONES chirp_DTCS_CODES (Num 1) 16%nat
           image_simplex_offset image_simplex_offset channel_simplex_offset).
  - apply (bool_decide_unpack _). vm_compute. exact I.
  - apply (bool_decide_unpack _). vm_compute. exact I.
  - reflexivity.
  - vm_compute. reflexivity.
  - vm_compute. reflexivity.
Defined.

(** ** The settings tree *)















(** *** The volume *)




(** *** The FM station *)




(** A stored FM station that is valid under neither reading, in an
    image whose other settings are inside their bounds: the tree has no
    "fm_vfo" entry and nothing is raised. *)
Example fm_vfo_unsupported_is_omitted :
  exists tree,
    get_settings false image_fm_ffff = (Ok (false, tree), image_fm_ffff)
    /\ shown "fm_vfo" tree = None
    /\ map (fun g => map s_name (g_entries g)) tree
       = [ ["tx_pwr"; "channel"; "squelch"; "vox"; "volume"; "scantype"; "timeout";
            "voice"; "alarm"; "backlight"; "blo"; "ste"; "batsave"; "lock"; "beep"];
           ["fm_funct"; "fmrange"];
           ["vhfl"; "vhfh"; "uhfl"; "uhfh"; "relaym"] ].
Proof. eexists. split; [|split]; vm_compute; reflexivity. Qed.

(** An unchanged entry is not written back. *)
Example unchanged_volume_is_not_written :
  set_settings [RadioSetting "volume" 5 false None] image_factory_volume
  = (Ok tt, image_factory_volume).
Proof. reflexivity. Qed.

(** ** An offset without a direction *)

Lemma bits_extract_bit_cases (b s : Z) :
  0 <= s -> bits_extract b s 1 = 0 \/ bits_extract b s 1 = 1.
Proof.
  intros Hs. rewrite bits_extract_1 by exact Hs.
  destruct (Z.testbit b s); [right | left]; reflexivity.
Qed.

(** C9, as stated, fails: a record that is not empty, whose offset of
    600 kHz is not zero and at most 71 MHz and whose two direction
    flags are clear, on which [get_memory] returns no channel value.
    The receive tone byte 200 is an index past the end of the table of
    digital codes and [_decode_tone] raises IndexError. *)
Lemma get_memory_raises_on_unknown_tone :
  _get_special (Num 1) = Ok (Some 16%nat)
  /\ get_byte 16 image_unknown_tone = (Ok 0, image_unknown_tone)
  /\ lbcd_get (channel.txoffset 16) 4 image_unknown_tone = (Ok 60000, image_unknown_tone)
  /\ bits_get (channel.flags 16) channel.offplus 1 image_unknown_tone
     = (Ok 0, image_unknown_tone)
  /\ bits_get (channel.flags 16) channel.offminus 1 image_unknown_tone
     = (Ok 0, image_unknown_tone)
  /\ get_memory chirp_TONES chirp_DTCS_CODES (Num 1) image_unknown_tone
     = (Err (PyError "IndexError"), image_unknown_tone).
Proof. repeat split; vm_compute; reflexivity. Qed.

(** C9, amended.  For every selector that [get_memory] accepts (a
    number, or a name of SPECIALS) and every record inside the image
    that is not empty, whose decoded tx offset is nonzero and at most
    71,000,000 Hz, whose offset-plus and offset-minus flags are both
    clear and whose two tone bytes decode, [get_memory] returns a
    channel value that is not empty, with duplex "" and the nonzero raw
    offset. *)
Theorem get_memory_offset_without_direction :
  forall (TONES DTCS_CODES : list Z) (sel : selector) (img : list Z)
         (c : nat) (raw0 txoffset txt ttondinv rxt rtondinv : Z)
         (txtone rxtone : tonespec),
    _get_special sel = Ok (Some c) ->
    (forall s, sel = Name s -> dict_get SPECIALS s <> None) ->
    (c + channel.size <= length img)%nat ->
    get_byte c img = (Ok raw0, img) ->
    raw0 <> 255 ->
    lbcd_get (channel.txoffset c) 4 img = (Ok txoffset, img) ->
    txoffset * 10 <> 0 ->
    txoffset * 10 <= 71000000 ->
    bits_get (channel.flags c) channel.offplus 1 img = (Ok 0, img) ->
    bits_get (channel.flags c) channel.offminus 1 img = (Ok 0, img) ->
    u8_get (channel.txtone c) img = (Ok txt, img) ->
    bits_get (channel.flags c) channel.ttondinv 1 img = (Ok ttondinv, img) ->
    _decode_tone TONES DTCS_CODES txt ttondinv = Ok txtone ->
    u8_get (channel.rxtone c) img = (Ok rxt, img) ->
    bits_get (channel.flags c) channel.rtondinv 1 img = (Ok rtondinv, img) ->
    _decode_tone TONES DTCS_CODES rxt rtondinv = Ok rxtone ->
    exists mem,
      get_memory TONES DTCS_CODES sel img = (Ok mem, img)
      /\ empty mem = false /\ duplex mem = "" /\ offset mem = txoffset * 10.
Proof.
  intros TONES DTCS_CODES sel img c raw0 txoffset txt ttondinv rxt rtondinv
         txtone rxtone Hc Hname Hlen Hraw Hne Hoff Hnz Hle Hplus Hminus
         Htxt Hti Htx Hrxt Hri Hrx.
  unfold channel.size in Hlen.
  destruct (split_record img c Hlen) as
    (pre & post & c0 & c1 & c2 & c3 & c4 & c5 & c6 & c7 & c8 & c9 & c10 & c11
     & c12 & c13 & c14 & c15 & -> & <-).
  clear Hlen.
  set (l := [c0; c1; c2; c3; c4; c5; c6; c7; c8; c9; c10; c11; c12; c13; c14; c15]
            ++ post) in *.
  assert (Hwide : exists m, py_getitem MODES (bits_extract c10 channel.wide 1) = Some m).
  { destruct (bits_extract_bit_cases c10 channel.wide) as [-> | ->];
      [unfold channel.wide; lia | |]; eexists; reflexivity. }
  assert (Hskip : exists sk,
             py_getitem SKIP_VALUES (bits_extract c10 channel.noskip 1) = Some sk).
  { destruct (bits_extract_bit_cases c10 channel.noskip) as [-> | ->];
      [unfold channel.noskip; lia | |]; eexists; reflexivity. }
  destruct Hwide as (m & Hm). destruct Hskip as (sk & Hsk).
  assert (Hmem0 : exists mem0,
             match sel with
             | Name s =>
                 n <- of_option (dict_get SPECIALS s) (PyError "KeyError") ;;
                 ret (with_extd_number s (with_number n Memory_new))
             | Num n => ret (with_number n Memory_new)
             end (pre ++ l) = (Ok mem0, pre ++ l)
             /\ empty mem0 = false).
  { destruct sel as [n|s].
    - eexists. split; reflexivity.
    - destruct (dict_get SPECIALS s) as [n|] eqn:Hd.
      + eexists. split; reflexivity.
      + exfalso. apply (Hname s eq_refl). exact Hd. }
  destruct Hmem0 as (mem0 & Hmem0 & Hempty0).
  unfold get_memory. rewrite Hc. cbn [of_result].
  erewrite bind_ok by reflexivity.
  erewrite bind_ok by exact Hmem0.
  unfold deref. cbn [of_option].
  erewrite bind_ok by reflexivity.
  erewrite bind_ok by exact Hraw.
  replace (raw0 =? 255) with false by lia.
  unfold channel.rxfreq.
  erewrite bind_ok by (apply lbcd_get_app; reflexivity).
  erewrite bind_ok by exact Hoff.
  erewrite bind_ok by exact Hminus.
  erewrite bind_ok by exact Hplus.
  unfold channel.flags.
  erewrite bind_ok by (apply bits_get_app; reflexivity).
  rewrite Hm. cbn [of_option]. erewrite bind_ok by reflexivity.
  erewrite bind_ok by (apply bits_get_app; reflexivity).
  rewrite Hsk. cbn [of_option]. erewrite bind_ok by reflexivity.
  erewrite bind_ok by exact Htxt.
  fold (channel.flags (length pre)).
  erewrite bind_ok by exact Hti.
  rewrite Htx. cbn [of_result]. erewrite bind_ok by reflexivity.
  erewrite bind_ok by exact Hrxt.
  erewrite bind_ok by exact Hri.
  rewrite Hrx. cbn [of_result]. erewrite bind_ok by reflexivity.
  eexists. split; [reflexivity|].
  unfold work_out_polarity.
  cbn [offset freq with_duplex with_offset with_freq with_mode with_skip
       with_tones number extd_number empty duplex mode skip tx_tone rx_tone].
  replace (txoffset * 10 =? 0) with false by lia.
  change (0 =? 1) with false. cbv iota.
  cbn [negb offset freq with_duplex with_offset with_freq].
  replace (txoffset * 10 >? 71000000) with false by lia.
  cbn [empty duplex offset with_duplex with_offset with_freq].
  split; [exact Hempty0 | split; reflexivity].
Qed.

Lemma get_memory_offset_without_direction_witness :
  exists mem,
    get_memory chirp_TONES chirp_DTCS_CODES (Num 1) image_simplex_offset
    = (Ok mem, image_simplex_offset)
    /\ empty mem = false /\ duplex mem = "" /\ offset mem = 60000 * 10.
Proof.
  apply (get_memory_offset_without_direction
           chirp_TONES chirp_DTCS_CODES (Num 1) image_simplex_offset
           16%nat 0 60000 0 0 0 0 no_tone no_tone).
  - reflexivity.
  - discriminate.
  - apply Nat.leb_le. vm_compute. reflexivity.
  - reflexivity.
  - lia.
  - reflexivity.
  - lia.
  - lia.
  - reflexivity.
  - reflexivity.
  - reflexivity.
  - reflexivity.
  - reflexivity.
  - reflexivity.
  - reflexivity.
  - reflexivity.
Defined.
